(** * Takeout ingestor: the ingestion pipeline and the Claude conversation
      ingestor, embedded from [takeout_ingestor/ingestors/base.py] and
      [takeout_ingestor/ingestors/claude_conversations.py].

    Conventions of the embedding.
    - A Python method that reads or mutates [self] or the outside world is a
      function [state -> Result A * state]: the state reached is kept also
      when the method raises, as in Python.
    - Only exceptions below [Exception] are modelled; they are what the
      [except Exception] clauses of the source catch.
    - A [str] is the [string] of the bytes of its UTF-8 encoding. The
      methods that work on characters ([lower], [title], [strip], [s[:n]],
      the [\w] class of [re], iteration) split it into characters first.
      What they do to an ASCII character is written out; what they do to
      the others comes from the tables of Unicode, the members of the class
      [PyStr.Unicode].
    - A text file is written as on POSIX, without translating the line
      ends, and read with universal newlines. [Path.exists] is the one of
      Python up to version 3.12, which raises the errors of [stat] other
      than a missing path.
    - A [float] is the exact rational of the quotient it comes from; no
      theorem states its value.
    - Python values of type [Any] (parsed JSON, dictionary values) are
      [value]s; a dictionary is an association list read by its first
      binding of a key.
    - [datetime.now()], [json.loads], [json.dumps], [repr] and the Pixeltable
      calls belong to the environment and are section variables. *)

From Stdlib Require Import String Ascii List ZArith QArith Bool Lia DecimalString.
Import ListNotations.

Set Warnings "-register-all".

Open Scope string_scope.
Open Scope Z_scope.

(* ===================================================================== *)
(** ** Python run-time: exceptions and the state-and-exception monad *)
(* ===================================================================== *)

Module Py.

Inductive ExnClass : Type :=
| ValueError
| TypeError
| AttributeError
| KeyError
| ImportError
| OSError
| UnicodeDecodeError
| UnicodeEncodeError
| JSONDecodeError
| ZeroDivisionError
| RuntimeError.

Definition ExnClass_eqb (a b : ExnClass) : bool :=
  match a, b with
  | ValueError, ValueError | TypeError, TypeError
  | AttributeError, AttributeError | KeyError, KeyError
  | ImportError, ImportError | OSError, OSError
  | UnicodeDecodeError, UnicodeDecodeError
  | UnicodeEncodeError, UnicodeEncodeError
  | JSONDecodeError, JSONDecodeError
  | ZeroDivisionError, ZeroDivisionError | RuntimeError, RuntimeError => true
  | _, _ => false
  end.

(** An exception object: its class and [str(e)]. *)
Record exn : Type := Exn { exn_class : ExnClass; exn_str : string }.

Inductive Result (A : Type) : Type :=
| Ok (a : A)
| Raise (e : exn).
Arguments Ok {A} a.
Arguments Raise {A} e.

Definition is_ok {A} (r : Result A) : bool :=
  match r with Ok _ => true | Raise _ => false end.

(** Computations over a state [S] that may raise. *)
Definition M (S A : Type) : Type := S -> Result A * S.

Definition ret {S A} (a : A) : M S A := fun s => (Ok a, s).

Definition bind {S A B} (m : M S A) (k : A -> M S B) : M S B :=
  fun s => match m s with
           | (Ok a, s') => k a s'
           | (Raise e, s') => (Raise e, s')
           end.

Definition raise {S A} (e : exn) : M S A := fun s => (Raise e, s).

(** [try: m  except Exception as e: h e] *)
Definition try_except {S A} (m : M S A) (h : exn -> M S A) : M S A :=
  fun s => match m s with
           | (Ok a, s') => (Ok a, s')
           | (Raise e, s') => h e s'
           end.

Definition gets {S A} (f : S -> A) : M S A := fun s => (Ok (f s), s).
Definition modify {S} (f : S -> S) : M S unit := fun s => (Ok tt, f s).
Definition lift_result {S A} (r : Result A) : M S A := fun s => (r, s).

(** Run a computation on a component of the state. *)
Definition zoom {S T A} (get : S -> T) (set : T -> S -> S) (m : M T A) : M S A :=
  fun s => let (r, t') := m (get s) in (r, set t' s).

End Py.

Export Py.

Declare Scope py_scope.
Delimit Scope py_scope with py.
Notation "x <- c ;; k" := (bind c (fun x => k))
  (at level 61, c at next level, right associativity) : py_scope.
Notation "c ;;; k" := (bind c (fun _ => k))
  (at level 61, right associativity) : py_scope.
Notation "' pat <- c ;; k" := (bind c (fun x => match x with pat => k end))
  (at level 61, pat pattern, c at next level, right associativity) : py_scope.
Open Scope py_scope.

(* ===================================================================== *)
(** ** Python strings *)
(* ===================================================================== *)

Module PyStr.

(** A [str] is held as the bytes of its UTF-8 encoding (a lone surrogate,
    which a [str] may hold, as the three bytes of its code point); the
    literals of the source are ASCII. Equality, concatenation, [in],
    [startswith] and splitting at an ASCII character are those of the
    bytes. The methods that work character by character go through
    [chars]. *)

Definition code (c : ascii) : nat := nat_of_ascii c.

Definition is_upper (c : ascii) : bool :=
  (Nat.leb 65 (code c) && Nat.leb (code c) 90)%bool.
Definition is_lower (c : ascii) : bool :=
  (Nat.leb 97 (code c) && Nat.leb (code c) 122)%bool.
Definition is_cased (c : ascii) : bool := (is_upper c || is_lower c)%bool.
Definition is_digit (c : ascii) : bool :=
  (Nat.leb 48 (code c) && Nat.leb (code c) 57)%bool.

Definition to_lower (c : ascii) : ascii :=
  if is_upper c then ascii_of_nat (code c + 32) else c.
Definition to_upper (c : ascii) : ascii :=
  if is_lower c then ascii_of_nat (code c - 32) else c.

(** A byte of an ASCII character, and a continuation byte of UTF-8. *)
Definition is_ascii_byte (c : ascii) : bool := Nat.ltb (code c) 128.
Definition is_continuation (c : ascii) : bool :=
  (Nat.leb 128 (code c) && Nat.ltb (code c) 192)%bool.

(** The characters of a string, each as the bytes that encode it: a byte
    below 128 is a character of its own; any other byte starts a character,
    and the continuation bytes after it belong to it. *)
Fixpoint chars (s : string) : list string :=
  match s with
  | EmptyString => []
  | String c r =>
      if is_ascii_byte c then String c EmptyString :: chars r
      else match chars r with
           | String c' ch :: rest =>
               if is_continuation c'
               then String c (String c' ch) :: rest
               else String c EmptyString :: String c' ch :: rest
           | rest => String c EmptyString :: rest
           end
  end.

(** The string has a byte that is not ASCII. *)
Definition has_high (s : string) : bool :=
  existsb (fun c => negb (is_ascii_byte c)) (list_ascii_of_string s).

Definition is_ascii (s : string) : bool := negb (has_high s).

Definition utf8 (bytes : list nat) : string :=
  string_of_list_ascii (map ascii_of_nat bytes).

(** A lone surrogate U+D800..U+DFFF: the bytes ED A0..BF 80..BF. *)
Definition is_surrogate (ch : string) : bool :=
  match ch with
  | String c1 (String c2 (String _ EmptyString)) =>
      (Nat.eqb (code c1) 237 && Nat.leb 160 (code c2))%bool
  | _ => false
  end.

(** [s.encode('utf-8')] does not raise: [s] holds no lone surrogate. *)
Definition encodable (s : string) : bool :=
  forallb (fun ch => negb (is_surrogate ch)) (chars s).

(** What the embedding takes from the Unicode tables and the UTF-8 codec of
    Python, for the characters outside ASCII: [str.isalnum] (the [\w] of
    [re] is [isalnum] or the underscore), the [Cased] property, the
    lower-case mapping of a character between the text before and after it
    (the context decides the form of a capital sigma), the title-case
    mapping, and the message of the [UnicodeEncodeError] for a string that is
    not [encodable]. *)
Class Unicode : Type := {
  uni_alnum : string -> bool;
  uni_cased : string -> bool;
  uni_lower : string -> string -> string -> string;
  uni_title : string -> string;
  encode_error : string -> string
}.

Section Characters.

Context {U : Unicode}.

(** The lower-case mapping of the character [ch] of [before ++ ch ++ after]. *)
Definition lower_char (before ch after : string) : string :=
  match ch with
  | String c EmptyString =>
      if is_ascii_byte c then String (to_lower c) EmptyString
      else uni_lower before ch after
  | _ => uni_lower before ch after
  end.

Definition title_char (ch : string) : string :=
  match ch with
  | String c EmptyString =>
      if is_ascii_byte c then String (to_upper c) EmptyString else uni_title ch
  | _ => uni_title ch
  end.

Definition cased_char (ch : string) : bool :=
  match ch with
  | String c EmptyString => if is_ascii_byte c then is_cased c else uni_cased ch
  | _ => uni_cased ch
  end.

Fixpoint lower_chars (before : string) (l : list string) : list string :=
  match l with
  | [] => []
  | ch :: after =>
      lower_char before ch (String.concat EmptyString after)
      :: lower_chars (before ++ ch) after
  end.

(** [str.lower] *)
Definition lower (s : string) : string :=
  String.concat EmptyString (lower_chars EmptyString (chars s)).

(** [str.title]: a character is given its title-case mapping when the
    character before it is not cased, its lower-case mapping otherwise. *)
Fixpoint title_chars (previous_is_cased : bool) (before : string)
    (l : list string) : list string :=
  match l with
  | [] => []
  | ch :: after =>
      (if previous_is_cased
       then lower_char before ch (String.concat EmptyString after)
       else title_char ch)
      :: title_chars (cased_char ch) (before ++ ch) after
  end.

Definition title (s : string) : string :=
  String.concat EmptyString (title_chars false EmptyString (chars s)).

(** [\w], [-], [_] or [.]: what [re.sub(r'[^\w\-_\.]', '_', s)] keeps. *)
Definition word_char (ch : string) : bool :=
  match ch with
  | String c EmptyString =>
      if is_ascii_byte c
      then (is_cased c || is_digit c || Ascii.eqb c "_"%char
            || Ascii.eqb c "-"%char || Ascii.eqb c "."%char)%bool
      else uni_alnum ch
  | _ => uni_alnum ch
  end.

(** [re.sub(r'[^\w\-_\.]', '_', s)] *)
Definition sub_unsafe (s : string) : string :=
  String.concat EmptyString
    (map (fun ch => if word_char ch then ch else "_") (chars s)).

End Characters.

(** [s[:n]] *)
Definition take (n : nat) (s : string) : string :=
  String.concat EmptyString (firstn n (chars s)).

(** White space of [str.strip()] in ASCII: tab, LF, VT, FF, CR, FS, GS, RS,
    US, space. *)
Definition is_space (c : ascii) : bool :=
  ((Nat.leb 9 (code c) && Nat.leb (code c) 13)
   || (Nat.leb 28 (code c) && Nat.leb (code c) 32))%bool.

(** And outside ASCII: U+0085, U+00A0, U+1680, U+2000 to U+200A, U+2028,
    U+2029, U+202F, U+205F and U+3000. *)
Definition unicode_spaces : list string :=
  (map utf8 [[194; 133]; [194; 160]; [225; 154; 128]]%nat
   ++ map (fun b => utf8 [226; 128; b]%nat) (seq 128 11)
   ++ map utf8 [[226; 128; 168]; [226; 128; 169]; [226; 128; 175];
                [226; 129; 159]; [227; 128; 128]]%nat)%list.

Definition is_space_char (ch : string) : bool :=
  match ch with
  | String c EmptyString => is_space c
  | _ => existsb (String.eqb ch) unicode_spaces
  end.

Fixpoint lstrip_chars (l : list string) : list string :=
  match l with
  | [] => []
  | ch :: r => if is_space_char ch then lstrip_chars r else l
  end.

(** [str.strip()] *)
Definition strip (s : string) : string :=
  String.concat EmptyString
    (rev (lstrip_chars (rev (lstrip_chars (chars s))))).

(** The text that a file read in text mode gives for the text stored:
    [\r\n] and a lone [\r] become [\n]. *)
Fixpoint universal_newlines (s : string) : string :=
  match s with
  | EmptyString => EmptyString
  | String c r =>
      if Ascii.eqb c "013"%char
      then String "010"%char
             (match r with
              | String c' r' =>
                  if Ascii.eqb c' "010"%char then universal_newlines r'
                  else universal_newlines r
              | EmptyString => EmptyString
              end)
      else String c (universal_newlines r)
  end.

(** [s.startswith(p)] *)
Definition startswith (p s : string) : bool := String.prefix p s.

(** [sub in s] *)
Definition contains (sub s : string) : bool :=
  match String.index 0 sub s with Some _ => true | None => false end.

(** [sep.join(parts)] *)
Definition join (sep : string) (parts : list string) : string :=
  String.concat sep parts.

(** [str(n)] for an [int] *)
Definition str_of_int (n : Z) : string := NilZero.string_of_int (Z.to_int n).

(** [x in xs] for a list of strings *)
Definition str_in (x : string) (xs : list string) : bool :=
  existsb (String.eqb x) xs.

(** [s.split(sep)] for a one-character separator. *)
Fixpoint split_on (sep : ascii) (s : string) : list string :=
  match s with
  | EmptyString => [EmptyString]
  | String c r =>
      if Ascii.eqb c sep then EmptyString :: split_on sep r
      else match split_on sep r with
           | [] => [String c EmptyString]
           | w :: ws => String c w :: ws
           end
  end.

(** [s.rfind(".")]: position of the last dot. *)
Fixpoint rfind_dot (s : string) : option nat :=
  match s with
  | EmptyString => None
  | String c r =>
      match rfind_dot r with
      | Some i => Some (S i)
      | None => if Ascii.eqb c "."%char then Some O else None
      end
  end.

End PyStr.

(* ===================================================================== *)
(** ** pathlib *)
(* ===================================================================== *)

Module PyPath.
Import PyStr.

(** The parts of a POSIX path: the components between slashes, the empty
    ones and the ["."] ones dropped. *)
Definition parts (p : string) : list string :=
  filter (fun c => negb (String.eqb c EmptyString || String.eqb c "."))
         (split_on "/"%char p).

(** [Path(p).name] *)
Definition name (p : string) : string := last (parts p) EmptyString.

(** [Path(p).suffix] *)
Definition suffix (p : string) : string :=
  let n := name p in
  match rfind_dot n with
  | Some i =>
      if (Nat.ltb 0 i && Nat.ltb i (String.length n - 1))%bool
      then substring i (String.length n - i) n
      else EmptyString
  | None => EmptyString
  end.

(** [str(Path(d) / child)] *)
Definition joinpath (d child : string) : string := d ++ "/" ++ child.

End PyPath.

(** ** Python values *)

Inductive value : Type :=
| VNone
| VBool (b : bool)
| VInt (n : Z)
| VFloat (q : Q)
| VStr (s : string)
| VList (items : list value)
| VDict (items : list (string * value)).

Definition dict := list (string * value).

(** [d.get(k)] as an option; [k in d] is [dict_get] being [Some]. *)
Fixpoint dict_get (d : dict) (k : string) : option value :=
  match d with
  | [] => None
  | (k', v) :: r => if String.eqb k k' then Some v else dict_get r k
  end.

Definition dict_has (d : dict) (k : string) : bool :=
  match dict_get d k with Some _ => true | None => false end.

(** [d.get(k, default)] *)
Definition dict_get_default (d : dict) (k : string) (default : value) : value :=
  match dict_get d k with Some v => v | None => default end.

(** [d[k] = v] *)
Fixpoint dict_set (d : dict) (k : string) (v : value) : dict :=
  match d with
  | [] => [(k, v)]
  | (k', v') :: r =>
      if String.eqb k k' then (k, v) :: r else (k', v') :: dict_set r k v
  end.

(** [d.update(other)] *)
Definition dict_update (d other : dict) : dict :=
  fold_left (fun acc kv => dict_set acc (fst kv) (snd kv)) other d.

(** Truth value of a Python value. *)
Definition truthy (v : value) : bool :=
  match v with
  | VNone => false
  | VBool b => b
  | VInt n => negb (n =? 0)
  | VFloat q => negb (Qeq_bool q 0)
  | VStr s => negb (String.eqb s EmptyString)
  | VList l => match l with [] => false | _ => true end
  | VDict d => match d with [] => false | _ => true end
  end.

(** Truth value of an [Optional[Dict]] argument. *)
Definition dict_truthy (o : option dict) : bool :=
  match o with Some (_ :: _) => true | _ => false end.

(** A [datetime] is observed by the program only through [isoformat()] and
    [strftime("%Y%m%d_%H%M%S")]. *)
Record datetime : Type := Datetime { isoformat : string; strftime_compact : string }.

(** [a / b] on integers. The source computes a float; here the quotient is
    kept as the exact rational: it is not rounded to a double, and the
    [OverflowError] of a quotient beyond the range of the doubles is left
    out. What is modelled is the [ZeroDivisionError] of a zero divisor; no
    theorem below states the value of a quotient. *)
Definition truediv (a b : Z) : Result Q :=
  if b =? 0 then Raise (Exn ZeroDivisionError "division by zero")
  else Ok (inject_Z a / inject_Z b)%Q.

(** [range(start, stop, step)] *)
Definition py_range (start stop step : Z) : Result (list Z) :=
  if step =? 0 then Raise (Exn ValueError "range() arg 3 must not be zero")
  else if 0 <? step then
    Ok (map (fun k => start + Z.of_nat k * step)
            (seq 0 (Z.to_nat ((stop - start + step - 1) / step))))
  else
    Ok (map (fun k => start + Z.of_nat k * step)
            (seq 0 (Z.to_nat ((start - stop - step - 1) / (- step))))).

(** [l[i:j]] for [0 <= i] and [0 <= j]. *)
Definition slice {A} (l : list A) (i j : Z) : list A :=
  firstn (Z.to_nat (j - i)) (skipn (Z.to_nat i) l).

(** [len(l)] *)
Definition len {A} (l : list A) : Z := Z.of_nat (length l).

(** [for x in xs: acc = body x acc] *)
Fixpoint for_each {S A B} (xs : list A) (body : A -> B -> M S B) (acc : B) : M S B :=
  match xs with
  | [] => ret acc
  | x :: r => acc' <- body x acc ;; for_each r body acc'
  end.

(* ===================================================================== *)
(** ** base.py: progress tracking *)
(* ===================================================================== *)

Module Progress.

Inductive IngestorStatus : Type :=
| PENDING
| RUNNING
| COMPLETED
| FAILED
| PAUSED.

(** [IngestorStatus.value] *)
Definition status_value (s : IngestorStatus) : string :=
  match s with
  | PENDING => "pending"
  | RUNNING => "running"
  | COMPLETED => "completed"
  | FAILED => "failed"
  | PAUSED => "paused"
  end.

Definition is_terminal (s : IngestorStatus) : bool :=
  match s with COMPLETED | FAILED => true | _ => false end.

Record IngestorProgress : Type := mkProgress {
  total_items : Z;
  processed_items : Z;
  failed_items : Z;
  start_time : datetime;
  last_update : datetime;
  status : IngestorStatus;
  errors : list string;
  metadata : dict
}.

(** [IngestorProgress.__init__], at the time [t] read from the clock. *)
Definition init (total : Z) (t : datetime) : IngestorProgress :=
  mkProgress total 0 0 t t PENDING [] [].

Definition set_total_items (n : Z) (p : IngestorProgress) : IngestorProgress :=
  mkProgress n (processed_items p) (failed_items p) (start_time p)
             (last_update p) (status p) (errors p) (metadata p).

Definition set_status (st : IngestorStatus) (p : IngestorProgress) : IngestorProgress :=
  mkProgress (total_items p) (processed_items p) (failed_items p) (start_time p)
             (last_update p) st (errors p) (metadata p).

(** [completion_percentage] *)
Definition completion_percentage (p : IngestorProgress) : Result Q :=
  if total_items p =? 0 then Ok 0%Q
  else match truediv (processed_items p) (total_items p) with
       | Ok q => Ok (q * 100)%Q
       | Raise e => Raise e
       end.

(** [success_rate] *)
Definition success_rate (p : IngestorProgress) : Result Q :=
  if processed_items p =? 0 then Ok 0%Q
  else match truediv (processed_items p - failed_items p) (processed_items p) with
       | Ok q => Ok (q * 100)%Q
       | Raise e => Raise e
       end.

(** [update(processed, failed, metadata)], at the time [t]. *)
Definition update (processed failed : Z) (md : option dict) (t : datetime)
    (p : IngestorProgress) : IngestorProgress :=
  mkProgress (total_items p)
             (processed_items p + processed)
             (failed_items p + failed)
             (start_time p)
             t
             (status p)
             (errors p)
             (if dict_truthy md
              then match md with Some d => dict_update (metadata p) d | None => metadata p end
              else metadata p).

(** [add_error(error)], at the time [t]. *)
Definition add_error (error : string) (t : datetime) (p : IngestorProgress)
    : IngestorProgress :=
  mkProgress (total_items p) (processed_items p) (failed_items p) (start_time p)
             (last_update p) (status p)
             (errors p ++ [isoformat t ++ ": " ++ error])
             (metadata p).

(** The dictionary built by [to_dict]. *)
Record ProgressDict : Type := mkProgressDict {
  d_total_items : Z;
  d_processed_items : Z;
  d_failed_items : Z;
  d_completion_percentage : Q;
  d_success_rate : Q;
  d_status : string;
  d_start_time : string;
  d_last_update : string;
  d_error_count : Z;
  d_recent_errors : list string;
  d_metadata : dict
}.

(** [l[-n:]] *)
Definition last_n {A} (n : nat) (l : list A) : list A :=
  skipn (length l - n) l.

Definition to_dict (p : IngestorProgress) : Result ProgressDict :=
  match completion_percentage p with
  | Raise e => Raise e
  | Ok cp =>
      match success_rate p with
      | Raise e => Raise e
      | Ok sr =>
          Ok (mkProgressDict (total_items p) (processed_items p) (failed_items p)
                cp sr (status_value (status p))
                (isoformat (start_time p)) (isoformat (last_update p))
                (len (errors p)) (last_n 5 (errors p)) (metadata p))
      end
  end.

End Progress.

Export Progress.

(* ===================================================================== *)
(** ** base.py: the ingestor object and the pipeline *)
(* ===================================================================== *)

Module Base.

Inductive LogLevel : Type := INFO | WARNING | ERROR.

(** The part of the ingestor that the hooks of a subclass work on: the
    backend handle, the logger and the outside world [W] (files, backend
    tables, the clock). *)
Record Env (W : Type) : Type := mkEnv {
  pixeltable_client : bool;
  log : list (LogLevel * string);
  world : W
}.
Arguments mkEnv {W}.
Arguments pixeltable_client {W}.
Arguments log {W}.
Arguments world {W}.

(** The calls the pipeline makes to the hooks, in order. Not a field of the
    Python object: it records which hooks a run has invoked. *)
Inductive Call : Type :=
| CallEnsureSchema
| CallValidateSource
| CallParseSource
| CallTransformRecord
| CallStorePixeltable.

Definition Call_eqb (a b : Call) : bool :=
  match a, b with
  | CallEnsureSchema, CallEnsureSchema
  | CallValidateSource, CallValidateSource
  | CallParseSource, CallParseSource
  | CallTransformRecord, CallTransformRecord
  | CallStorePixeltable, CallStorePixeltable => true
  | _, _ => false
  end.

(** The ingestor object [self]. *)
Record St (W : Type) : Type := mkSt {
  batch_size : Z;
  progress : option IngestorProgress;
  calls : list Call;
  env : Env W
}.
Arguments mkSt {W}.
Arguments batch_size {W}.
Arguments progress {W}.
Arguments calls {W}.
Arguments env {W}.

(** The abstract methods, supplied by a subclass. They run on [Env]: no hook
    of this repository touches [self.progress]. *)
Record Hooks (W R T : Type) : Type := mkHooks {
  class_name : string;
  get_supported_formats : list string;
  get_table_name : string;
  validate_source : string -> M (Env W) (bool * option string);
  parse_source : string -> M (Env W) (list R);
  transform_record : R -> M (Env W) T;
  _ensure_pixeltable_schema : M (Env W) unit;
  _store_pixeltable : T -> M (Env W) unit
}.
Arguments class_name {W R T}.
Arguments get_supported_formats {W R T}.
Arguments get_table_name {W R T}.
Arguments validate_source {W R T}.
Arguments parse_source {W R T}.
Arguments transform_record {W R T}.
Arguments _ensure_pixeltable_schema {W R T}.
Arguments _store_pixeltable {W R T}.

(** What [ingest] returns: the report of a validate-only run or the summary
    of a full run. *)
Record ValidationReport (R : Type) : Type := mkReport {
  validation : string;
  record_count : Z;
  sample_record : option R
}.
Arguments mkReport {R}.
Arguments validation {R}.
Arguments record_count {R}.
Arguments sample_record {R}.

Record Summary : Type := mkSummary {
  total_records : Z;
  processed_records : Z;
  failed_records : Z;
  summary_success_rate : Q;
  table_name : string;
  summary_progress : option ProgressDict
}.

Inductive IngestResult (R : Type) : Type :=
| Validated (r : ValidationReport R)
| Ingested (s : Summary).
Arguments Validated {R}.
Arguments Ingested {R}.

Section Pipeline.

Context {W R T : Type}.

(** The clock: the time that [datetime.now()] returns, and the world after
    the reading. *)
Variable clock : W -> datetime * W.
(** [import pixeltable as pxt] *)
Variable import_pixeltable : M W unit.
(** [str(summary)] in the last log line *)
Variable repr_summary : Summary -> string.

(** [datetime.now()] *)
Definition now : M W datetime :=
  fun w => let (t, w') := clock w in (Ok t, w').

Definition set_world (w : W) (e : Env W) : Env W :=
  mkEnv (pixeltable_client e) (log e) w.
Definition set_client (c : bool) (e : Env W) : Env W :=
  mkEnv c (log e) (world e).
Definition add_log (lvl : LogLevel) (msg : string) (e : Env W) : Env W :=
  mkEnv (pixeltable_client e) (log e ++ [(lvl, msg)]) (world e).

Definition set_env (e : Env W) (s : St W) : St W :=
  mkSt (batch_size s) (progress s) (calls s) e.
Definition set_progress (p : option IngestorProgress) (s : St W) : St W :=
  mkSt (batch_size s) p (calls s) (env s).
Definition add_call (c : Call) (s : St W) : St W :=
  mkSt (batch_size s) (progress s) (calls s ++ [c]) (env s).

(** Lifting along [world] and [env]. *)
Definition in_world {A} (m : M W A) : M (Env W) A := zoom world set_world m.
Definition in_env {A} (m : M (Env W) A) : M (St W) A := zoom env set_env m.

(** [self.logger.info/warning/error(msg)] *)
Definition logger (lvl : LogLevel) (msg : string) : M (Env W) unit :=
  modify (add_log lvl msg).

(** A call of a hook, recorded. *)
Definition call {A} (c : Call) (m : M (Env W) A) : M (St W) A :=
  modify (add_call c) ;;; in_env m.

(** [if self.progress: self.progress.<f>(...)] *)
Definition with_progress (f : IngestorProgress -> IngestorProgress) : M (St W) unit :=
  modify (fun s => set_progress (option_map f (progress s)) s).

(** The same for a method that reads the clock. *)
Definition with_progress_at (f : datetime -> IngestorProgress -> IngestorProgress)
    : M (St W) unit :=
  p <- gets progress ;;
  match p with
  | Some _ => t <- in_env (in_world now) ;; with_progress (f t)
  | None => ret tt
  end.

(** [BaseIngestor.__init__]; the [PIXELTABLE_HOME] setting is left out. *)
Definition new_ingestor (h : Hooks W R T) (batch_size : Z)
    (enable_progress_tracking : bool) (w : W) : Result unit * St W :=
  ((if enable_progress_tracking
    then t <- in_env (in_world now) ;;
         modify (set_progress (Some (Progress.init 0 t)))
    else ret tt) ;;;
   in_env (logger INFO ("Initialized " ++ class_name h)))
  (mkSt batch_size None [] (mkEnv false [] w)).

(** [initialize_backend] *)
Definition initialize_backend (h : Hooks W R T) : M (St W) unit :=
  try_except
    (in_env (in_world import_pixeltable) ;;;
     in_env (modify (set_client true)) ;;;
     call CallEnsureSchema (_ensure_pixeltable_schema h) ;;;
     in_env (logger INFO "Pixeltable backend initialized"))
    (fun e =>
       if ExnClass_eqb (exn_class e) ImportError
       then in_env (logger ERROR
              "Pixeltable not available - install with: pip install pixeltable") ;;;
            raise e
       else in_env (logger ERROR
              ("Pixeltable initialization failed: " ++ exn_str e)) ;;;
            raise e).

(** The [try] block of the loop of [_process_batch]: transform, then store. *)
Definition transform_and_store (h : Hooks W R T) (record : R) : M (St W) unit :=
  transformed <- call CallTransformRecord (transform_record h record) ;;
  call CallStorePixeltable (_store_pixeltable h transformed).

(** One turn of the loop of [_process_batch]. *)
Definition process_record (h : Hooks W R T) (record : R) (acc : Z * Z)
    : M (St W) (Z * Z) :=
  let '(processed, failed) := acc in
  try_except
    (transform_and_store h record ;;;
     ret (processed + 1, failed))
    (fun e =>
       in_env (logger WARNING ("Failed to process record: " ++ exn_str e)) ;;;
       with_progress_at (add_error ("Record processing: " ++ exn_str e)) ;;;
       ret (processed, failed + 1)).

(** [_process_batch] of [BaseIngestor] *)
Definition _process_batch (h : Hooks W R T) (batch : list R) : M (St W) (Z * Z) :=
  for_each batch (process_record h) (0, 0).

(** The method table of an ingestor class: the hooks and [_process_batch],
    which a subclass inherits unless it overrides it. *)
Record Class : Type := mkClass {
  hooks : Hooks W R T;
  process_batch_method : list R -> M (St W) (Z * Z)
}.

Definition subclass (h : Hooks W R T) : Class := mkClass h (_process_batch h).

(** [f"{error_msg}"] for an [Optional[str]] *)
Definition fmt_optional (o : option string) : string :=
  match o with Some s => s | None => "None" end.

(** Steps 1 to 3 of [ingest]: backend, validation, parsing. *)
Definition prepare (c : Class) (source_path : string) : M (St W) (list R) :=
  in_env (logger INFO ("Starting ingestion of " ++ source_path)) ;;;
  initialize_backend (hooks c) ;;;
  '(is_valid, error_msg) <-
     call CallValidateSource (validate_source (hooks c) source_path) ;;
  (if negb is_valid
   then raise (Exn ValueError ("Source validation failed: " ++ fmt_optional error_msg))
   else ret tt) ;;;
  call CallParseSource (parse_source (hooks c) source_path).

(** One turn of the batch loop, for the start index [i]. The only statement
    of the [try] block that can raise is the call of [_process_batch], so the
    handler sees the counters as they were before the turn. *)
Definition batch_turn (c : Class) (records : list R) (i : Z) (acc : Z * Z)
    : M (St W) (Z * Z) :=
  bs <- gets batch_size ;;
  let '(processed_count, failed_count) := acc in
  let batch := slice records i (i + bs) in
  try_except
    ('(processed, failed) <- process_batch_method c batch ;;
     let processed_count := processed_count + processed in
     let failed_count := failed_count + failed in
     with_progress_at (update processed failed None) ;;;
     in_env (logger INFO
       ("Processed batch " ++ PyStr.str_of_int (i / bs + 1) ++ ", records: "
        ++ PyStr.str_of_int processed_count ++ "/"
        ++ PyStr.str_of_int (len records))) ;;;
     ret (processed_count, failed_count))
    (fun e =>
       in_env (logger ERROR ("Batch processing failed: " ++ exn_str e)) ;;;
       with_progress_at
         (add_error ("Batch " ++ PyStr.str_of_int (i / bs + 1) ++ ": " ++ exn_str e)) ;;;
       ret (processed_count, failed_count + len batch)).

(** Steps 5 and 6: the batch loop, the final status and the summary. *)
Definition run_batches (c : Class) (records : list R) : M (St W) Summary :=
  bs <- gets batch_size ;;
  starts <- lift_result (py_range 0 (len records) bs) ;;
  '(processed_count, failed_count) <- for_each starts (batch_turn c records) (0, 0) ;;
  with_progress (set_status (if failed_count =? 0 then COMPLETED else FAILED)) ;;;
  rate <- (if 0 <? processed_count
           then q <- lift_result (truediv (processed_count - failed_count) processed_count) ;;
                ret (q * 100)%Q
           else ret 0%Q) ;;
  p <- gets progress ;;
  pd <- match p with
        | Some p => d <- lift_result (to_dict p) ;; ret (Some d)
        | None => ret None
        end ;;
  let summary :=
    mkSummary (len records) processed_count failed_count rate
              (get_table_name (hooks c)) pd in
  in_env (logger INFO ("Ingestion completed: " ++ repr_summary summary)) ;;;
  ret summary.

(** The body of the [try] block of [ingest]. *)
Definition ingest_body (c : Class) (source_path : string) (validate_only : bool)
    : M (St W) (IngestResult R) :=
  records <- prepare c source_path ;;
  with_progress (fun p => set_status RUNNING (set_total_items (len records) p)) ;;;
  in_env (logger INFO
    ("Parsed " ++ PyStr.str_of_int (len records) ++ " records from source")) ;;;
  if validate_only
  then ret (Validated (mkReport "passed" (len records) (hd_error records)))
  else summary <- run_batches c records ;; ret (Ingested summary).

(** [ingest(source_path, resume, validate_only)]; [resume] is not read. *)
Definition ingest (c : Class) (source_path : string) (resume validate_only : bool)
    : M (St W) (IngestResult R) :=
  try_except
    (ingest_body c source_path validate_only)
    (fun e =>
       in_env (logger ERROR ("Ingestion failed: " ++ exn_str e)) ;;;
       with_progress (set_status FAILED) ;;;
       with_progress_at (add_error (exn_str e)) ;;;
       raise e).

(** [get_progress] *)
Definition get_progress : M (St W) (option ProgressDict) :=
  p <- gets progress ;;
  match p with
  | Some p => d <- lift_result (to_dict p) ;; ret (Some d)
  | None => ret None
  end.

(** [pause] *)
Definition pause : M (St W) unit :=
  p <- gets progress ;;
  match p with
  | Some _ =>
      with_progress (set_status PAUSED) ;;;
      in_env (logger INFO "Ingestion paused")
  | None => ret tt
  end.

(** [resume] *)
Definition resume : M (St W) unit :=
  p <- gets progress ;;
  match p with
  | Some _ =>
      with_progress (set_status RUNNING) ;;;
      in_env (logger INFO "Ingestion resumed")
  | None => ret tt
  end.

(** [cleanup] of [BaseIngestor] *)
Definition cleanup : M (St W) unit :=
  in_env (modify (set_client false)) ;;;
  in_env (logger INFO "Cleanup completed").

End Pipeline.

End Base.

(* ===================================================================== *)
(** ** claude_conversations.py: files, backend and the world *)
(* ===================================================================== *)

Module Claude.
Import Base.

(** What a path of the file system holds: a file with the text written to
    it, a file whose bytes are not UTF-8, a directory, or nothing that the
    process can tell: every system call on the path fails with an [OSError]
    ([reason] is its [strerror] with the number, as in
    ["[Errno 13] Permission denied"] below a directory that the process may
    not search, or ["[Errno 36] File name too long"]). *)
Inductive Node : Type :=
| NFile (text : string)
| NUndecodable (error : string)
| NDir
| NNoStat (reason : string).

Definition FS := list (string * Node).

Fixpoint fs_lookup (f : FS) (p : string) : option Node :=
  match f with
  | [] => None
  | (p', n) :: r => if String.eqb p p' then Some n else fs_lookup r p
  end.

Definition fs_remove (f : FS) (p : string) : FS :=
  filter (fun e => negb (String.eqb p (fst e))) f.

Definition fs_write (f : FS) (p : string) (n : Node) : FS :=
  (p, n) :: fs_remove f p.

(** [Path(p).exists()] returns [True]. *)
Definition fs_exists (f : FS) (p : string) : bool :=
  match fs_lookup f p with
  | Some (NNoStat _) | None => false
  | Some _ => true
  end.

(** [str(e)] of the [OSError] of a system call on [p]. *)
Definition os_error (reason p : string) : exn :=
  Exn OSError (reason ++ ": '" ++ p ++ "'").

(** The world of a Claude ingestor: the files, the clock (the times that the
    successive calls of [datetime.now()] return), the paths that the process
    may not unlink, and the state [B] of the Pixeltable backend. *)
Record World (B : Type) : Type := mkWorld {
  fs : FS;
  ticks : nat;
  times : nat -> datetime;
  undeletable : list string;
  backend : B
}.
Arguments mkWorld {B}.
Arguments fs {B}.
Arguments ticks {B}.
Arguments times {B}.
Arguments undeletable {B}.
Arguments backend {B}.

(** The Pixeltable calls of the module, as the environment provides them.
    They work on the state of the backend; [insert] also reads the files
    that the rows refer to. *)
Record Pixeltable (B : Type) : Type := mkPixeltable {
  pxt_import : M B unit;
  pxt_create_dir : string -> M B unit;
  pxt_create_table : string -> M B unit;
  pxt_create_view : string -> M B unit;
  pxt_add_embedding_index : string -> M B unit;
  pxt_get_table : string -> M B unit;
  pxt_insert : string -> list dict -> FS -> M B unit
}.
Arguments pxt_import {B}.
Arguments pxt_create_dir {B}.
Arguments pxt_create_table {B}.
Arguments pxt_create_view {B}.
Arguments pxt_add_embedding_index {B}.
Arguments pxt_get_table {B}.
Arguments pxt_insert {B}.

(** A canonical record, as [_extract_conversation_as_document] builds it. *)
Record Document : Type := mkDocument {
  document_text : value;
  doc_metadata : dict;
  doc_title : value
}.

Section Ingestor.

Context {B : Type}.
Context {U : PyStr.Unicode}.

Variable pxt : Pixeltable B.
(** [json.loads] and [json.dumps] *)
Variable json_loads : string -> Result value.
Variable json_dumps : value -> string.
(** [str(v)] for a value that is not a [str] *)
Variable str_value : value -> string.
(** [tempfile.gettempdir()] *)
Variable gettempdir : string.
(** [str(summary)] in the last log line of [ingest] *)
Variable repr_summary : Summary -> string.

Definition set_fs (f : FS) (w : World B) : World B :=
  mkWorld f (ticks w) (times w) (undeletable w) (backend w).

Definition set_backend (b : B) (w : World B) : World B :=
  mkWorld (fs w) (ticks w) (times w) (undeletable w) b.

Definition in_backend {A} (m : M B A) : M (World B) A := zoom backend set_backend m.

(** The clock of the world. *)
Definition clock (w : World B) : datetime * World B :=
  (times w (ticks w),
   mkWorld (fs w) (S (ticks w)) (times w) (undeletable w) (backend w)).

(** [datetime.now()] *)
Definition datetime_now : M (World B) datetime := Base.now clock.

(** [Path(p).exists()]: as in Python up to version 3.12, an error of [stat]
    other than a missing path is raised. *)
Definition path_exists (p : string) : M (World B) bool :=
  fun w => match fs_lookup (fs w) p with
           | Some (NNoStat reason) => (Raise (os_error reason p), w)
           | Some _ => (Ok true, w)
           | None => (Ok false, w)
           end.

(** [Path(p).read_text(encoding='utf-8')]: the text is read with universal
    newlines. *)
Definition read_text (p : string) : M (World B) string :=
  fun w => match fs_lookup (fs w) p with
           | Some (NFile t) => (Ok (PyStr.universal_newlines t), w)
           | Some (NUndecodable err) => (Raise (Exn UnicodeDecodeError err), w)
           | Some NDir => (Raise (os_error "[Errno 21] Is a directory" p), w)
           | Some (NNoStat reason) => (Raise (os_error reason p), w)
           | None => (Raise (os_error "[Errno 2] No such file or directory" p), w)
           end.

(** [Path(p).unlink()] *)
Definition unlink (p : string) : M (World B) unit :=
  fun w => match fs_lookup (fs w) p with
           | None => (Raise (os_error "[Errno 2] No such file or directory" p), w)
           | Some NDir => (Raise (os_error "[Errno 21] Is a directory" p), w)
           | Some (NNoStat reason) => (Raise (os_error reason p), w)
           | Some _ =>
               if PyStr.str_in p (undeletable w)
               then (Raise (os_error "[Errno 13] Permission denied" p), w)
               else (Ok tt, set_fs (fs_remove (fs w) p) w)
           end.

(** [Path(d).mkdir(exist_ok=True)], for a directory [d] inside [parent]. *)
Definition mkdir_exist_ok (parent d : string) : M (World B) unit :=
  fun w => match fs_lookup (fs w) d with
           | Some NDir => (Ok tt, w)
           | Some (NNoStat reason) => (Raise (os_error reason d), w)
           | Some _ => (Raise (os_error "[Errno 17] File exists" d), w)
           | None =>
               match fs_lookup (fs w) parent with
               | Some NDir => (Ok tt, set_fs (fs_write (fs w) d NDir) w)
               | Some (NNoStat reason) => (Raise (os_error reason d), w)
               | Some _ => (Raise (os_error "[Errno 20] Not a directory" d), w)
               | None =>
                   (Raise (os_error "[Errno 2] No such file or directory" d), w)
               end
           end.

(** [with open(p, 'w', encoding='utf-8') as f: f.write(part) ...]: the file
    is created or truncated, the parts are written in order, and when a part
    raises the file keeps what was written before it. A part that cannot be
    encoded raises when it is written. The line ends are written as they
    are (POSIX). *)
Fixpoint written (parts : list (Result string)) (sofar : string)
    : string * option exn :=
  match parts with
  | [] => (sofar, None)
  | Ok s :: r =>
      if PyStr.encodable s then written r (sofar ++ s)
      else (sofar, Some (Exn UnicodeEncodeError (PyStr.encode_error s)))
  | Raise e :: _ => (sofar, Some e)
  end.

Definition open_write (p : string) (parts : list (Result string)) : M (World B) unit :=
  fun w => match fs_lookup (fs w) p with
           | Some NDir => (Raise (os_error "[Errno 21] Is a directory" p), w)
           | Some (NNoStat reason) => (Raise (os_error reason p), w)
           | _ =>
               let '(text, failure) := written parts EmptyString in
               let w' := set_fs (fs_write (fs w) p (NFile text)) w in
               match failure with
               | None => (Ok tt, w')
               | Some e => (Raise e, w')
               end
           end.

(** [f"{v}"] *)
Definition fmt (v : value) : string :=
  match v with VStr s => s | _ => str_value v end.

(** A short name of the type of a value, for the messages of type errors. *)
Definition type_name (v : value) : string :=
  match v with
  | VNone => "NoneType"
  | VBool _ => "bool"
  | VInt _ => "int"
  | VFloat _ => "float"
  | VStr _ => "str"
  | VList _ => "list"
  | VDict _ => "dict"
  end.

Definition no_attribute (v : value) (attr : string) : exn :=
  Exn AttributeError
      ("'" ++ type_name v ++ "' object has no attribute '" ++ attr ++ "'").

(* ===================================================================== *)
(** ** claude_conversations.py: the ingestor *)
(* ===================================================================== *)

(** [get_supported_formats] *)
Definition get_supported_formats : list string := [".txt"; ".json"; ".md"].

(** [get_table_name] *)
Definition get_table_name : string := "doc_search.all_documents".

Definition markers : list string := ["human:"; "assistant:"; "claude:"; "user:"].

(** [validate_source] *)
Definition validate_source (source_path : string) : M (World B) (bool * option string) :=
  exists_ <- path_exists source_path ;;
  if negb exists_
  then ret (false, Some ("Source path does not exist: " ++ source_path))
  else if negb (PyStr.str_in (PyStr.lower (PyPath.suffix source_path))
                             get_supported_formats)
  then ret (false, Some ("Unsupported file format: " ++ PyPath.suffix source_path))
  else
    try_except
      (content <- read_text source_path ;;
       if (String.length (PyStr.strip content) =? 0)%nat
       then ret (false, Some "File is empty")
       else
         accepted_json <-
           (if String.eqb (PyStr.lower (PyPath.suffix source_path)) ".json"
            then match json_loads content with
                 | Ok (VDict _) | Ok (VList _) => ret true
                 | Ok _ => ret false
                 | Raise e =>
                     if ExnClass_eqb (exn_class e) JSONDecodeError
                     then ret false
                     else raise e
                 end
            else ret false) ;;
         if accepted_json : bool then ret (true, None)
         else if existsb (fun marker => PyStr.contains marker (PyStr.lower content)) markers
         then ret (true, None)
         else ret (true, None))
      (fun e => ret (false, Some ("Error reading file: " ++ exn_str e))).

(** The items that [for msg in messages] visits. *)
Definition iterate (v : value) : Result (list value) :=
  match v with
  | VList l => Ok l
  | VDict d => Ok (map (fun kv => VStr (fst kv)) d)
  | VStr s => Ok (map VStr (PyStr.chars s))
  | _ => Raise (Exn TypeError ("'" ++ type_name v ++ "' object is not iterable"))
  end.

(** The role of a message after [.title()] and the normalization. *)
Definition normalize_role (role : string) : string :=
  let role := PyStr.title role in
  if PyStr.str_in (PyStr.lower role) ["human"; "user"] then "Human"
  else if PyStr.str_in (PyStr.lower role) ["assistant"; "claude"] then "Assistant"
  else role.

(** One turn of the loop of [_format_messages_as_text]: the block of [msg]. *)
Definition format_message (msg : value) : Result string :=
  match msg with
  | VDict d =>
      match dict_get_default d "role" (VStr "unknown") with
      | VStr role =>
          let content := dict_get_default d "content" (VStr EmptyString) in
          Ok (normalize_role role ++ ": " ++ fmt content)
      | v => Raise (no_attribute v "title")
      end
  | v => Raise (no_attribute v "get")
  end.

Fixpoint format_messages (msgs : list value) (text_parts : list string)
    : Result (list string) :=
  match msgs with
  | [] => Ok text_parts
  | msg :: r =>
      match format_message msg with
      | Ok block => format_messages r (text_parts ++ [block])
      | Raise e => Raise e
      end
  end.

(** [_format_messages_as_text] *)
Definition _format_messages_as_text (messages : value) : Result string :=
  match iterate messages with
  | Raise e => Raise e
  | Ok msgs =>
      match format_messages msgs [] with
      | Ok text_parts => Ok (PyStr.join (String "010"%char (String "010"%char EmptyString)) text_parts)
      | Raise e => Raise e
      end
  end.

Definition default_title (index : Z) : string :=
  "Claude Conversation " ++ PyStr.str_of_int (index + 1).

(** The first half of [_extract_conversation_as_document]: the dictionary
    read, the document text, the title and the two dates. *)
Definition conversation_fields (conv_data : value) (index : Z)
    : Result (dict * value * value * value * value) :=
  match conv_data with
  | VDict d =>
      if dict_has d "messages"
      then
        match _format_messages_as_text (dict_get_default d "messages" VNone) with
        | Ok doc_text =>
            Ok (d, VStr doc_text,
                dict_get_default d "title" (VStr (default_title index)),
                dict_get_default d "created_at" VNone,
                dict_get_default d "updated_at" VNone)
        | Raise e => Raise e
        end
      else
        Ok (d, dict_get_default d "raw_content" (VStr (str_value conv_data)),
            VStr (default_title index), VNone, VNone)
  | VStr s =>
      if PyStr.contains "messages" s
      then Raise (Exn TypeError "string indices must be integers")
      else Raise (no_attribute conv_data "get")
  | VList l =>
      if existsb (fun v => match v with
                           | VStr s => String.eqb s "messages"
                           | _ => false
                           end) l
      then Raise (Exn TypeError "list indices must be integers or slices, not str")
      else Raise (no_attribute conv_data "get")
  | v => Raise (Exn TypeError
                  ("argument of type '" ++ type_name v ++ "' is not iterable"))
  end.

(** The metadata dictionary of a document. *)
Definition document_metadata (d : dict) (source_path : string) (index : Z)
    (title created_at updated_at : value) (parsed_at : datetime) : dict :=
  [ ("source_type", VStr "claude_conversation");
    ("source_file", VStr source_path);
    ("title", title);
    ("conversation_index", VInt index);
    ("created_at", created_at);
    ("updated_at", updated_at);
    ("parsed_at", VStr (isoformat parsed_at));
    ("format", dict_get_default d "format" (VStr "json")) ].

(** [_extract_conversation_as_document] *)
Definition _extract_conversation_as_document (conv_data : value)
    (source_path : string) (index : Z) : M (World B) Document :=
  '(d, doc_text, title, created_at, updated_at) <-
    lift_result (conversation_fields conv_data index) ;;
  parsed_at <- datetime_now ;;
  let metadata :=
    document_metadata d source_path index title created_at updated_at parsed_at in
  ret (mkDocument doc_text metadata title).

(** [for i, conv in enumerate(data): conversations.append(...)] *)
Fixpoint extract_each (convs : list value) (source_path : string) (i : Z)
    (conversations : list Document) : M (World B) (list Document) :=
  match convs with
  | [] => ret conversations
  | conv :: r =>
      doc <- _extract_conversation_as_document conv source_path i ;;
      extract_each r source_path (i + 1) (conversations ++ [doc])
  end.

(** [_parse_json_conversations] *)
Definition _parse_json_conversations (content source_path : string)
    : M (Env (World B)) (list Document) :=
  match json_loads content with
  | Raise e =>
      if ExnClass_eqb (exn_class e) JSONDecodeError
      then logger ERROR ("Invalid JSON in " ++ source_path ++ ": " ++ exn_str e) ;;;
           ret []
      else raise e
  | Ok (VList convs) => in_world (extract_each convs source_path 0 [])
  | Ok (VDict d) =>
      doc <- in_world (_extract_conversation_as_document (VDict d) source_path 0) ;;
      ret [doc]
  | Ok _ => ret []
  end.

(** [_parse_text_conversations] *)
Definition _parse_text_conversations (content source_path : string)
    : M (Env (World B)) (list Document) :=
  parsed_at <- in_world datetime_now ;;
  let conversation_data : dict :=
    [ ("raw_content", VStr content);
      ("source_file", VStr source_path);
      ("format", VStr "text");
      ("parsed_at", VStr (isoformat parsed_at));
      ("conversation_index", VInt 0) ] in
  doc <- in_world
    (_extract_conversation_as_document (VDict conversation_data) source_path 0) ;;
  ret [doc].

(** [parse_source] *)
Definition parse_source (source_path : string) : M (Env (World B)) (list Document) :=
  content <- in_world (read_text source_path) ;;
  if String.eqb (PyStr.lower (PyPath.suffix source_path)) ".json"
  then _parse_json_conversations content source_path
  else _parse_text_conversations content source_path.

Definition temp_dir : string := PyPath.joinpath gettempdir "takeout_ingestor_docs".

Definition separator_line : string :=
  String "010"%char
    ("==================================================" ++
     String "010"%char (String "010"%char EmptyString)).

Definition nl : string := String "010"%char EmptyString.

(** [_create_temp_document] *)
Definition _create_temp_document (text title : value) (metadata : dict) : M (World B) string :=
  match title with
  | VStr title_s =>
      let safe_title := PyStr.take 50 (PyStr.sub_unsafe title_s) in
      t <- datetime_now ;;
      let timestamp := strftime_compact t in
      mkdir_exist_ok gettempdir temp_dir ;;;
      let temp_file :=
        PyPath.joinpath temp_dir
          ("claude_conv_" ++ timestamp ++ "_" ++ safe_title ++ ".txt") in
      open_write temp_file
        ([ Ok ("Title: " ++ title_s ++ nl);
           Ok ("Source: " ++ fmt (dict_get_default metadata "source_type" (VStr "unknown")) ++ nl) ]
         ++ (if truthy (dict_get_default metadata "created_at" VNone)
             then [ Ok ("Created: " ++ fmt (dict_get_default metadata "created_at" VNone) ++ nl) ]
             else [])
         ++ [ match dict_get metadata "parsed_at" with
              | Some v => Ok ("Parsed: " ++ fmt v ++ nl)
              | None => Raise (Exn KeyError "'parsed_at'")
              end;
              Ok separator_line;
              match text with
              | VStr s => Ok s
              | v => Raise (Exn TypeError
                       ("write() argument must be str, not " ++ type_name v))
              end ]) ;;;
      ret temp_file
  | _ => raise (Exn TypeError "expected string or bytes-like object")
  end.

(** [transform_record] *)
Definition transform_record (record : Document) : M (World B) dict :=
  let doc_text := document_text record in
  let metadata := doc_metadata record in
  let title := doc_title record in
  temp_file <- _create_temp_document doc_text title metadata ;;
  ingested_at <- datetime_now ;;
  let transformed : dict :=
    [ ("pdf_file", VStr temp_file);
      ("document_metadata", VStr (json_dumps (VDict metadata)));
      ("ingested_at", VStr (isoformat ingested_at)) ] in
  ret (dict_set transformed "_temp_file_path" (VStr temp_file)).

(** A backend call made from a method of the ingestor. *)
Definition on_backend {A} (m : M B A) : M (Env (World B)) A :=
  in_world (in_backend m).

(** [_ensure_pixeltable_schema] *)
Definition _ensure_pixeltable_schema : M (Env (World B)) unit :=
  try_except
    (on_backend (pxt_create_dir pxt "doc_search") ;;;
     on_backend (pxt_create_table pxt "doc_search.all_documents") ;;;
     try_except
       (on_backend (pxt_create_view pxt "doc_search.all_documents_chunks") ;;;
        on_backend (pxt_add_embedding_index pxt "doc_search.all_documents_chunks") ;;;
        logger INFO "Unified documents table schema ready")
       (fun e => logger WARNING ("Chunks view might already exist: " ++ exn_str e)))
    (fun e =>
       logger ERROR ("Error setting up Pixeltable schema: " ++ exn_str e) ;;;
       raise e).

(** The clean-up of the temp file inside [_store_pixeltable]. *)
Definition release_temp_file (record : dict) : M (Env (World B)) unit :=
  match dict_get_default record "_temp_file_path" VNone with
  | VStr temp_file =>
      if String.eqb temp_file EmptyString then ret tt
      else
        present <- in_world (path_exists temp_file) ;;
        if present : bool
        then try_except
               (in_world (unlink temp_file))
               (fun e => logger WARNING
                  ("Could not clean up temp file " ++ temp_file ++ ": " ++ exn_str e))
        else ret tt
  | v =>
      if truthy v
      then raise (Exn TypeError
             ("expected str, bytes or os.PathLike object, not " ++ type_name v))
      else ret tt
  end.

(** The first half of the [try] block of [_store_pixeltable]: the table is
    fetched and the record inserted without its underscore keys. *)
Definition insert_record (record : dict) : M (Env (World B)) unit :=
  client <- gets pixeltable_client ;;
  (if client : bool then on_backend (pxt_get_table pxt "doc_search.all_documents")
   else raise (no_attribute VNone "get_table")) ;;;
  let store_record :=
    filter (fun kv => negb (PyStr.startswith "_" (fst kv))) record in
  files <- gets (fun e => fs (world e)) ;;
  on_backend (pxt_insert pxt "doc_search.all_documents" [store_record] files).

(** [_store_pixeltable] *)
Definition _store_pixeltable (record : dict) : M (Env (World B)) unit :=
  try_except
    (insert_record record ;;;
     release_temp_file record)
    (fun e =>
       logger ERROR ("Error storing record in Pixeltable: " ++ exn_str e) ;;;
       raise e).

(** The hooks of [ClaudeConversationIngestor]. *)
Definition claude_hooks : Hooks (World B) Document dict :=
  mkHooks (World B) Document dict
    "ClaudeConversationIngestor"
    get_supported_formats
    get_table_name
    (fun p => in_world (validate_source p))
    parse_source
    (fun r => in_world (transform_record r))
    _ensure_pixeltable_schema
    _store_pixeltable.

(** The class: it inherits [_process_batch]. *)
Definition ClaudeConversationIngestor : Class :=
  subclass clock claude_hooks.

(** [p] is the directory [d] or a path below it. *)
Definition inside (d p : string) : bool :=
  (String.eqb p d || String.prefix (d ++ "/") p)%bool.

(** The walk of [shutil.rmtree(d)] over the entries below [d], taken in the
    order in which the file system lists them: each is removed, and the
    first one whose status cannot be read or that the process may not remove
    stops the walk with an error; what was removed before it stays
    removed. *)
Fixpoint rmtree_entries (d : string) (entries : FS) (f : FS) (locked : list string)
    : FS * option exn :=
  match entries with
  | [] => (f, None)
  | (p, n) :: rest =>
      if String.prefix (d ++ "/") p
      then match n with
           | NNoStat reason => (f, Some (os_error reason p))
           | _ =>
               if PyStr.str_in p locked
               then (f, Some (os_error "[Errno 13] Permission denied" p))
               else rmtree_entries d rest (fs_remove f p) locked
           end
      else rmtree_entries d rest f locked
  end.

(** [shutil.rmtree(d)] *)
Definition rmtree (d : string) : M (World B) unit :=
  fun w => match fs_lookup (fs w) d with
           | Some NDir =>
               match rmtree_entries d (fs w) (fs w) (undeletable w) with
               | (f, Some e) => (Raise e, set_fs f w)
               | (f, None) =>
                   if PyStr.str_in d (undeletable w)
                   then (Raise (Exn OSError
                           ("[Errno 13] Permission denied: '" ++ d ++ "'")),
                         set_fs f w)
                   else (Ok tt, set_fs (fs_remove f d) w)
               end
           | Some (NNoStat reason) => (Raise (os_error reason d), w)
           | Some _ =>
               (Raise (Exn OSError ("[Errno 20] Not a directory: '" ++ d ++ "'")), w)
           | None =>
               (Raise (Exn OSError
                  ("[Errno 2] No such file or directory: '" ++ d ++ "'")), w)
           end.

(** [cleanup] of [ClaudeConversationIngestor] *)
Definition claude_cleanup : M (St (World B)) unit :=
  Base.cleanup ;;;
  in_env
    (present <- in_world (path_exists temp_dir) ;;
     if present : bool
     then try_except
            (in_world (rmtree temp_dir) ;;;
             logger INFO "Cleaned up temporary document files")
            (fun e => logger WARNING
               ("Could not clean up temp directory: " ++ exn_str e))
     else ret tt).

(** [ClaudeConversationIngestor(batch_size, enable_progress_tracking)] *)
Definition new_claude_ingestor (batch_size : Z) (enable_progress_tracking : bool)
    (w : World B) : Result unit * St (World B) :=
  Base.new_ingestor clock claude_hooks batch_size enable_progress_tracking w.

(** [ingest] of a [ClaudeConversationIngestor] *)
Definition claude_ingest (source_path : string) (resume validate_only : bool)
    : M (St (World B)) (IngestResult Document) :=
  Base.ingest clock (in_backend (pxt_import pxt)) repr_summary
              ClaudeConversationIngestor source_path resume validate_only.

End Ingestor.

End Claude.

(* ===================================================================== *)
(** ** Concrete environments *)
(* ===================================================================== *)

(** A small backend, files and clock on which the ingestor can be run. *)
Module Fixture.
Import Base Claude.

Definition quote : string := String "034"%char EmptyString.
Definition newline : string := String "010"%char EmptyString.

(** The letters U+00E9 and U+00C9, and the lone surrogate U+D800. *)
Definition e_acute : string := PyStr.utf8 [195; 169]%nat.
Definition capital_e_acute : string := PyStr.utf8 [195; 137]%nat.
Definition lone_surrogate : string := PyStr.utf8 [237; 160; 128]%nat.

(** The Unicode tables on the characters that occur below: the two letters
    are a cased pair; any other character outside ASCII is taken as a
    symbol. The message is the one for a string that starts with the lone
    surrogate. *)
#[export] Instance unicode : PyStr.Unicode := {|
  PyStr.uni_alnum ch :=
    (String.eqb ch e_acute || String.eqb ch capital_e_acute)%bool;
  PyStr.uni_cased ch :=
    (String.eqb ch e_acute || String.eqb ch capital_e_acute)%bool;
  PyStr.uni_lower _ ch _ :=
    if String.eqb ch capital_e_acute then e_acute else ch;
  PyStr.uni_title ch :=
    if String.eqb ch e_acute then capital_e_acute else ch;
  PyStr.encode_error _ :=
    "'utf-8' codec can't encode character '\ud800' in position 0: surrogates not allowed"
|}.

(** A backend whose state is the list of the rows inserted. *)
Definition Rows := list dict.

Definition backend_ok : Pixeltable Rows :=
  mkPixeltable Rows
    (ret tt) (fun _ => ret tt) (fun _ => ret tt) (fun _ => ret tt)
    (fun _ => ret tt) (fun _ => ret tt)
    (fun _ rows _ => modify (fun b => (b ++ rows)%list)).

(** The same backend with an [insert] that always raises. *)
Definition backend_insert_fails : Pixeltable Rows :=
  mkPixeltable Rows
    (ret tt) (fun _ => ret tt) (fun _ => ret tt) (fun _ => ret tt)
    (fun _ => ret tt) (fun _ => ret tt)
    (fun _ _ _ => raise (Exn RuntimeError "insert failed")).

(** [json.dumps] and [str] on the values that occur below. *)
Fixpoint json_dumps (v : value) : string :=
  match v with
  | VNone => "null"
  | VBool true => "true"
  | VBool false => "false"
  | VInt n => PyStr.str_of_int n
  | VFloat _ => "0.0"
  | VStr s => quote ++ s ++ quote
  | VList l => "[" ++ PyStr.join ", " (map json_dumps l) ++ "]"
  | VDict d =>
      "{" ++ PyStr.join ", "
               (map (fun kv => match kv with
                               | (k, v') => quote ++ k ++ quote ++ ": " ++ json_dumps v'
                               end) d) ++ "}"
  end.

Definition str_value (v : value) : string :=
  match v with
  | VNone => "None"
  | VBool true => "True"
  | VBool false => "False"
  | VInt n => PyStr.str_of_int n
  | VDict [] => "{}"
  | VList [] => "[]"
  | _ => "<object>"
  end.

Definition repr_summary (s : Summary) : string := "<summary>".

(** The text of a JSON export with three conversations. *)
Definition three_conversations_json : string :=
  "[{" ++ quote ++ "title" ++ quote ++ ": " ++ quote ++ "a" ++ quote ++ ", "
       ++ quote ++ "messages" ++ quote ++ ": [{"
       ++ quote ++ "role" ++ quote ++ ": " ++ quote ++ "human" ++ quote ++ ", "
       ++ quote ++ "content" ++ quote ++ ": " ++ quote ++ "Hi" ++ quote ++ "}, {"
       ++ quote ++ "role" ++ quote ++ ": " ++ quote ++ "Claude" ++ quote ++ ", "
       ++ quote ++ "content" ++ quote ++ ": " ++ quote ++ "Hello" ++ quote ++ "}]}, {"
       ++ quote ++ "title" ++ quote ++ ": " ++ quote ++ "b" ++ quote ++ ", "
       ++ quote ++ "messages" ++ quote ++ ": []}, {"
       ++ quote ++ "raw_content" ++ quote ++ ": " ++ quote ++ "c" ++ quote ++ "}]".

Definition conversation_list : list value :=
  [ VDict [ ("title", VStr "a");
            ("messages",
             VList [ VDict [("role", VStr "human"); ("content", VStr "Hi")];
                     VDict [("role", VStr "Claude"); ("content", VStr "Hello")] ]) ];
    VDict [ ("title", VStr "b"); ("messages", VList []) ];
    VDict [ ("raw_content", VStr "c") ] ].

Definition three_conversations : value := VList conversation_list.

(** The text of a JSON export with one conversation object. *)
Definition one_conversation_json : string :=
  "{" ++ quote ++ "raw_content" ++ quote ++ ": " ++ quote ++ "c" ++ quote ++ "}".

Definition one_conversation_items : dict := [ ("raw_content", VStr "c") ].

Definition one_conversation : value := VDict one_conversation_items.

(** [json.loads] on the texts above; any other text of the fixture is not
    JSON. *)
Definition json_loads (text : string) : Result value :=
  if String.eqb text three_conversations_json then Ok three_conversations
  else if String.eqb text one_conversation_json then Ok one_conversation
  else Raise (Exn JSONDecodeError "Expecting value: line 1 column 1 (char 0)").

Definition chat_text : string :=
  "Human: Hi" ++ newline ++ newline ++ "Assistant: Hello".

Definition files : FS :=
  [ ("/tmp", NDir);
    ("/data/conversations.json", NFile three_conversations_json);
    ("/data/single.json", NFile one_conversation_json);
    ("/data/broken.json", NFile "{not json");
    ("/data/chat.txt", NFile chat_text);
    ("/data/blank.md", NFile (" " ++ newline));
    ("/data/slides.pdf", NFile "%PDF") ].

Definition midnight : datetime :=
  Datetime "2024-01-01T00:00:00" "20240101_000000".

Definition world0 : World Rows :=
  mkWorld files 0 (fun _ => midnight) [] [].

(** A fresh ingestor with batch size [bs] and progress tracking, in
    [world0]. *)
Definition fresh (bs : Z) : St (World Rows) :=
  snd (new_claude_ingestor backend_ok json_loads json_dumps str_value "/tmp"
                            bs true world0).

(** [ingest] with the backend [pxt] on the fixture. *)
Definition run_ingest (pxt : Pixeltable Rows) (source_path : string)
    (validate_only : bool) (s : St (World Rows))
    : Result (IngestResult Document) * St (World Rows) :=
  claude_ingest pxt json_loads json_dumps str_value "/tmp" repr_summary
                source_path false validate_only s.

(** A class that inherits everything from [ClaudeConversationIngestor] but
    whose [_process_batch] raises on a batch that starts with the
    conversation titled [bad]. *)
Definition failing_batch_class (bad : string) : Class :=
  let base :=
    ClaudeConversationIngestor backend_ok json_loads json_dumps str_value "/tmp" in
  mkClass (hooks base)
    (fun batch =>
       match batch with
       | doc :: _ =>
           match doc_title doc with
           | VStr t =>
               if String.eqb t bad
               then raise (Exn RuntimeError "systemic failure")
               else process_batch_method base batch
           | _ => process_batch_method base batch
           end
       | [] => process_batch_method base batch
       end).

Definition progress_counters (s : St (World Rows)) : option (Z * Z * Z * IngestorStatus) :=
  option_map (fun p => (total_items p, processed_items p, failed_items p, status p))
             (progress s).

(** The class of the fixture and its first three steps. *)
Definition claude_class : Class :=
  ClaudeConversationIngestor backend_ok json_loads json_dumps str_value "/tmp".

Definition run_prepare (source_path : string) (s : St (World Rows))
    : Result (list Document) * St (World Rows) :=
  prepare (in_backend (pxt_import backend_ok)) claude_class source_path s.

(** The plain-text chat, parsed by a fresh ingestor. *)
Definition chat_records : list Document :=
  Eval vm_compute in
    match fst (run_prepare "/data/chat.txt" (fresh 100)) with
    | Ok records => records
    | Raise _ => []
    end.

Definition chat_parsed : St (World Rows) :=
  Eval vm_compute in snd (run_prepare "/data/chat.txt" (fresh 100)).

(** The blank file, refused by a fresh ingestor. *)
Definition blank_refused : St (World Rows) :=
  Eval vm_compute in snd (run_prepare "/data/blank.md" (fresh 100)).

(** The first conversation of the export, staged by [transform_record]. *)
Definition first_document : Document :=
  Eval vm_compute in
    match fst (parse_source json_loads str_value "/data/conversations.json"
                 (mkEnv true [] world0)) with
    | Ok (doc :: _) => doc
    | _ => mkDocument VNone [] VNone
    end.

Definition staged_record : dict :=
  Eval vm_compute in
    match fst (transform_record json_dumps str_value "/tmp" first_document world0) with
    | Ok t => t
    | Raise _ => []
    end.

Definition staged_world : World Rows :=
  Eval vm_compute in
    snd (transform_record json_dumps str_value "/tmp" first_document world0).

Definition staged_path : string :=
  "/tmp/takeout_ingestor_docs/claude_conv_20240101_000000_a.txt".

(** The same world when the process may not unlink the staged file. *)
Definition staged_world_locked : World Rows :=
  mkWorld (fs staged_world) (ticks staged_world) (times staged_world)
          [staged_path] (backend staged_world).

(** The export of three conversations, parsed by a fresh ingestor of batch
    size 1. *)
Definition export_records : list Document :=
  Eval vm_compute in
    match fst (run_prepare "/data/conversations.json" (fresh 1)) with
    | Ok records => records
    | Raise _ => []
    end.

Definition export_parsed : St (World Rows) :=
  Eval vm_compute in snd (run_prepare "/data/conversations.json" (fresh 1)).

(** An ingestor whose run has completed. *)
Definition completed : St (World Rows) :=
  snd (run_ingest backend_ok "/data/chat.txt" false (fresh 100)).

(** The environment of an ingestor before its backend is initialized. *)
Definition env0 : Env (World Rows) := mkEnv false [] world0.

Definition sample_messages : list value :=
  [ VDict [("role", VStr "HUMAN"); ("content", VStr "Hi")];
    VDict [("role", VStr "Claude"); ("content", VStr "Hello")];
    VDict [("role", VStr "system"); ("content", VStr "Be brief")];
    VDict [("content", VStr "no role")] ].

(** Messages with roles in mixed case, one of them outside ASCII. *)
Definition mixed_messages : list value :=
  [ VDict [("role", VStr "uSEr"); ("content", VStr "Hi")];
    VDict [("role", VStr "CLAUDE"); ("content", VStr "Hello")];
    VDict [("role", VStr "tool_use 2nd"); ("content", VInt 7)];
    VDict [("role", VStr (e_acute ++ "DITEUR")); ("content", VStr "Bien")] ].




End Fixture.

(* ===================================================================== *)
(** ** Definitions used to state the properties *)
(* ===================================================================== *)

Module Spec.
Import Base Claude.

(** [m] leaves the component [proj] of the state as it found it, whether it
    returns or raises. *)
Definition keeps {S A X} (proj : S -> X) (m : M S A) : Prop :=
  forall s, proj (snd (m s)) = proj s.

(** What the handler of [ingest] does to the progress record. *)
Definition failed_with (e : exn) (t : datetime) (p : IngestorProgress)
    : IngestorProgress :=
  add_error (exn_str e) t (set_status FAILED p).

(** The progress record after the parse step. *)
Definition parsed (n : Z) (p : IngestorProgress) : IngestorProgress :=
  set_status RUNNING (set_total_items n p).

(** The rational that the two rates of a progress record have here:
    [num / den * 100], and 0 when [den] is 0. *)
Definition percentage_of (num den : Z) : Q :=
  if den =? 0 then 0%Q else (inject_Z num / inject_Z den * 100)%Q.

Section Outcomes.

Context {W R T : Type}.
Variable clock : W -> datetime * W.

(** Whether the hook [transform_record] returns on [record] and the hook
    [_store_pixeltable] returns on what it gave, from the state [s]: the
    record succeeds; it fails when one of the two raises. *)
Definition record_succeeds (h : Hooks W R T) (record : R) (s : St W) : bool :=
  match Base.transform_record h record (env s) with
  | (Ok transformed, e) => is_ok (fst (Base._store_pixeltable h transformed e))
  | (Raise _, _) => false
  end.

(** The state in which [_process_batch] leaves the ingestor after [record]. *)
Definition after_record (h : Hooks W R T) (record : R) (s : St W) : St W :=
  snd (process_record clock h record (0, 0) s).

(** The outcome of every record of a batch, in order, each from the state
    that the records before it have left. *)
Fixpoint outcomes (h : Hooks W R T) (batch : list R) (s : St W) : list bool :=
  match batch with
  | [] => []
  | record :: rest =>
      record_succeeds h record s :: outcomes h rest (after_record h record s)
  end.

Definition count (b : bool) (l : list bool) : Z :=
  len (filter (Bool.eqb b) l).

(** *** The accounting of the batch loop *)

(** The state in which the batch loop of [ingest] starts, from the state in
    which parsing has ended. *)
Definition loop_start (records : list R) (s : St W) : St W :=
  snd ((with_progress (fun p => set_status RUNNING (set_total_items (len records) p)) ;;;
        in_env (logger INFO
          ("Parsed " ++ PyStr.str_of_int (len records) ++ " records from source")))
         s).

(** What [_process_batch] answered on every batch of a run, in order: the
    batch and the counts returned or the exception raised. *)
Fixpoint batch_log (c : Class) (records : list R) (starts : list Z)
    (acc : Z * Z) (s : St W) : list (list R * Result (Z * Z)) :=
  match starts with
  | [] => []
  | i :: rest =>
      let batch := slice records i (i + batch_size s) in
      (batch, fst (process_batch_method (T:=T) c batch s))
      :: match batch_turn clock c records i acc s with
         | (Ok acc', s') => batch_log c records rest acc' s'
         | (Raise _, _) => []
         end
  end.

(** The counts of one batch as the summary takes them (a raising batch
    fails as a whole) and as the progress record takes them (a raising batch
    is not counted). *)
Definition summary_counts (entry : list R * Result (Z * Z)) : Z * Z :=
  match entry with
  | (_, Ok counts) => counts
  | (batch, Raise _) => (0, len batch)
  end.

Definition progress_counts (entry : list R * Result (Z * Z)) : Z * Z :=
  match entry with
  | (_, Ok counts) => counts
  | (_, Raise _) => (0, 0)
  end.

Definition sum_counts (f : list R * Result (Z * Z) -> Z * Z)
    (l : list (list R * Result (Z * Z))) : Z * Z :=
  fold_right (fun entry acc => (fst (f entry) + fst acc, snd (f entry) + snd acc))
             (0, 0) l.

(** The number of records in the batches of a log. *)
Definition records_in (l : list (list R * Result (Z * Z))) : Z :=
  fold_right (fun entry n => len (fst entry) + n) 0 l.

(** The batch stored all of its records. *)
Definition stored (entry : list R * Result (Z * Z)) : Prop :=
  snd entry = Ok (len (fst entry), 0).

(** The fields of the progress record that [_process_batch] must leave
    alone: the batch size of the ingestor, the two counters and the
    status. *)
Definition tracked (s : St W) : Z * option (Z * Z * IngestorStatus) :=
  (batch_size s,
   option_map (fun p => (processed_items p, failed_items p, status p)) (progress s)).

Definition process_batch_frame (c : Class) : Prop :=
  forall batch s, tracked (snd (process_batch_method (R:=R) (T:=T) c batch s)) = tracked s.

End Outcomes.

(** *** Messages and conversations, as the specification words them *)

(** Lower case and title case of ASCII text, from the alphabet: a letter is
    put in upper case when it starts the text or follows a character that
    is not a letter, in lower case otherwise; the other characters stay. *)
Definition small_letters : string := "abcdefghijklmnopqrstuvwxyz".
Definition capital_letters : string := "ABCDEFGHIJKLMNOPQRSTUVWXYZ".

Definition place (c : ascii) (alphabet : string) : option nat :=
  String.index 0 (String c EmptyString) alphabet.

Definition letter_at (n : nat) (alphabet : string) (default : ascii) : ascii :=
  match String.get n alphabet with Some c => c | None => default end.

Definition is_letter (c : ascii) : bool :=
  match place c small_letters, place c capital_letters with
  | None, None => false
  | _, _ => true
  end.

Definition small (c : ascii) : ascii :=
  match place c capital_letters with
  | Some n => letter_at n small_letters c
  | None => c
  end.

Definition capital (c : ascii) : ascii :=
  match place c small_letters with
  | Some n => letter_at n capital_letters c
  | None => c
  end.

Fixpoint lowercased (s : string) : string :=
  match s with
  | EmptyString => EmptyString
  | String c r => String (small c) (lowercased r)
  end.

Fixpoint capitalized_after (after_letter : bool) (s : string) : string :=
  match s with
  | EmptyString => EmptyString
  | String c r =>
      String (if after_letter then small c else capital c)
             (capitalized_after (is_letter c) r)
  end.

Definition capitalized (s : string) : string := capitalized_after false s.

(** A text of small letters other than [k], and a text that starts with
    [h], [u], [a] or [c]: what the four role names are. *)
Definition plain (s : string) : bool :=
  forallb (fun c => (PyStr.is_lower c && negb (Ascii.eqb c "k"))%bool)
          (list_ascii_of_string s).

Definition starts_like_role (s : string) : bool :=
  match s with
  | String c _ =>
      (Ascii.eqb c "h" || Ascii.eqb c "u" || Ascii.eqb c "a" || Ascii.eqb c "c")%bool
  | EmptyString => false
  end.

(** A list of characters as [PyStr.chars] gives them: each is one ASCII
    byte, or bytes outside ASCII of which only the first may be other than
    a continuation byte; and a character that starts with a continuation
    byte follows no character outside ASCII. *)
Definition is_char (ch : string) : bool :=
  match ch with
  | String c EmptyString => true
  | String c k =>
      (negb (PyStr.is_ascii_byte c)
       && forallb PyStr.is_continuation (list_ascii_of_string k))%bool
  | EmptyString => false
  end.

Definition starts_continuation (ch : string) : bool :=
  match ch with
  | String c _ => PyStr.is_continuation c
  | EmptyString => false
  end.

Definition is_ascii_char (ch : string) : bool :=
  match ch with
  | String c EmptyString => PyStr.is_ascii_byte c
  | _ => false
  end.

Fixpoint chunked (l : list string) : bool :=
  match l with
  | [] => true
  | ch :: rest =>
      (is_char ch
       && match rest with
          | next :: _ => is_ascii_char ch || negb (starts_continuation next)
          | [] => true
          end
       && chunked rest)%bool
  end.

Section Text.

Context {U : PyStr.Unicode}.

(** The two facts of the Unicode tables that role normalization rests on.
    The only character outside ASCII whose lower-case mapping is ASCII is
    the Kelvin sign, which gives [k]. Where the title-case mapping of a
    character outside ASCII is ASCII (sharp s, dotless i, long s, the
    ligatures ff, fi, fl, ffi, ffl and st), it starts with [S], [I] or
    [F]. *)
Definition lawful : Prop :=
  (forall before ch after,
      PyStr.has_high ch = true ->
      PyStr.has_high (PyStr.uni_lower before ch after) = true
      \/ PyStr.uni_lower before ch after = "k")
  /\ (forall ch,
      PyStr.has_high ch = true ->
      PyStr.has_high (PyStr.uni_title ch) = true
      \/ exists c rest,
           PyStr.uni_title ch = String c rest
           /\ (c = "S" \/ c = "I" \/ c = "F")%char).

(** Role normalization on the lower-cased role. *)
Definition normalized_role (role : string) : string :=
  if PyStr.str_in (PyStr.lower role) ["human"; "user"] then "Human"
  else if PyStr.str_in (PyStr.lower role) ["assistant"; "claude"] then "Assistant"
  else PyStr.title role.

(** A message: an object whose role, when it has one, is a string. *)
Definition is_message (m : value) : bool :=
  match m with
  | VDict d =>
      match dict_get d "role" with
      | None | Some (VStr _) => true
      | Some _ => false
      end
  | _ => false
  end.

Definition message_role (m : value) : string :=
  match m with
  | VDict d =>
      match dict_get d "role" with
      | Some (VStr role) => role
      | _ => "unknown"
      end
  | _ => "unknown"
  end.

Definition message_content (m : value) : value :=
  match m with
  | VDict d => dict_get_default d "content" (VStr EmptyString)
  | _ => VStr EmptyString
  end.

Definition blank_line : string :=
  String "010"%char (String "010"%char EmptyString).

(** A conversation object: an object whose [messages], when it has them, are
    a sequence of messages. *)
Definition is_conversation (conv : value) : bool :=
  match conv with
  | VDict d =>
      match dict_get d "messages" with
      | None => true
      | Some (VList msgs) => forallb is_message msgs
      | Some _ => false
      end
  | _ => false
  end.

(** [doc['metadata']['conversation_index']] *)
Definition conversation_index (doc : Document) : option value :=
  dict_get (doc_metadata doc) "conversation_index".

(** The indices 0 .. n-1 *)
Definition indices (n : nat) : list (option value) :=
  map (fun i => Some (VInt (Z.of_nat i))) (seq 0 n).

Section Rendering.

Variable str_value : value -> string.

(** The block ["<role>: <content>"] of a message, with the role as
    [normalize_role] gives it. *)
Definition block (m : value) : string :=
  normalize_role (message_role m) ++ ": " ++ fmt str_value (message_content m).

(** The block ["<NormalizedRole>: <content>"] of a message, with the role
    normalized as the specification words it. *)
Definition labelled (m : value) : string :=
  normalized_role (message_role m) ++ ": " ++ fmt str_value (message_content m).

(** The document text: the blocks in order, a blank line between them. *)
Definition rendered (msgs : list value) : string :=
  String.concat blank_line (map block msgs).

(** The document text of a conversation object. *)
Definition text_of (conv : value) : option value :=
  match conversation_fields str_value conv 0 with
  | Ok (_, doc_text, _, _, _) => Some doc_text
  | Raise _ => None
  end.

End Rendering.

(** *** Sources that validation must reject *)

(** The path does not exist; or it exists and its extension is not
    supported; or it is a file whose text is empty after trimming. (A path
    whose status cannot be read is none of these: see [NNoStat].) *)
Definition unacceptable (files : FS) (source_path : string) : Prop :=
  fs_lookup files source_path = None
  \/ (fs_exists files source_path = true
      /\ PyStr.str_in (PyStr.lower (PyPath.suffix source_path))
           [".txt"; ".json"; ".md"] = false)
  \/ exists content,
       fs_lookup files source_path = Some (NFile content)
       /\ PyStr.strip (PyStr.universal_newlines content) = EmptyString.

End Text.

End Spec.

(* ===================================================================== *)
(** ** Definitions used to state the further properties *)
(* ===================================================================== *)

Module Laws.
Import Base Claude Spec.

(** *** Batches and counts *)

(** The batches of the loop of [ingest] for the batch size [bs]: the slices
    [records[i:i + bs]] for [i] in [range(0, len(records), bs)]. *)
Definition batches_of {R} (bs : Z) (records : list R) : list (list R) :=
  match py_range 0 (len records) bs with
  | Ok starts => map (fun i => slice records i (i + bs)) starts
  | Raise _ => []
  end.

(** What [_process_batch] of [BaseIngestor] answers on a batch. *)
Definition counted {R} (entry : list R * Result (Z * Z)) : Prop :=
  exists processed failed,
    snd entry = Ok (processed, failed)
    /\ processed + failed = len (fst entry)
    /\ 0 <= processed /\ 0 <= failed.

(** How often the hook [c] occurs in a trace of calls. *)
Definition count_call (c : Call) (l : list Call) : Z :=
  len (filter (Call_eqb c) l).

(** The number of messages in the error log of the progress record. *)
Definition error_count {W} (s : St W) : option Z :=
  option_map (fun p => len (errors p)) (progress s).

(** *** Dictionaries and the error log *)

(** The keys of a dictionary. *)
Definition keys (d : dict) : list string := map fst d.

(** The entry that [add_error] appends for [msg] at the time [t]. *)
Definition stamped (t : datetime) (msg : string) : string :=
  isoformat t ++ ": " ++ msg.

(** No string occurs twice in the list. *)
Fixpoint distinct (l : list string) : bool :=
  match l with
  | [] => true
  | x :: r => (negb (PyStr.str_in x r) && distinct r)%bool
  end.

(** *** Sources *)

Section Texts.

Context {U : PyStr.Unicode}.

(** The sources that [validate_source] accepts: a file that can be read,
    with a supported extension, whose text is not blank; the text of a
    [.json] file need not be JSON, but [json.loads] must not fail on it with
    anything else than a [JSONDecodeError]. *)
Definition acceptable (json_loads : string -> Result value) (files : FS)
    (source_path : string) : bool :=
  match fs_lookup files source_path with
  | Some (NFile stored) =>
      let content := PyStr.universal_newlines stored in
      (PyStr.str_in (PyStr.lower (PyPath.suffix source_path)) [".txt"; ".json"; ".md"]
       && negb (String.eqb (PyStr.strip content) EmptyString)
       && (if String.eqb (PyStr.lower (PyPath.suffix source_path)) ".json"
           then match json_loads content with
                | Ok _ => true
                | Raise e => ExnClass_eqb (exn_class e) JSONDecodeError
                end
           else true))%bool
  | _ => false
  end.

(** A conversation that [_extract_conversation_as_document] can turn into a
    record. *)
Definition extractable (str_value : value -> string) (conv : value) : bool :=
  is_ok (conversation_fields str_value conv 0).

(** What [json.loads] makes of a text that holds no conversation: it fails
    with a [JSONDecodeError], or gives a value that is neither an array nor
    an object. *)
Definition no_conversations (loaded : Result value) : bool :=
  match loaded with
  | Ok (VList _) | Ok (VDict _) => false
  | Ok _ => true
  | Raise e => ExnClass_eqb (exn_class e) JSONDecodeError
  end.

(** *** Staged files *)

(** The title as it goes into the name of the staged file. *)
Definition safe_title (title : string) : string :=
  PyStr.take 50 (PyStr.sub_unsafe title).

(** The name of the file staged at the time [t] for a document titled
    [title]. *)
Definition staged_name (t : datetime) (title : string) : string :=
  "claude_conv_" ++ strftime_compact t ++ "_" ++ safe_title title ++ ".txt".


Section Staging.

Variable str_value : value -> string.

Definition title_line (title : string) : string :=
  "Title: " ++ title ++ nl.

Definition source_line (metadata : dict) : string :=
  "Source: "
  ++ fmt str_value (dict_get_default metadata "source_type" (VStr "unknown")) ++ nl.

Definition created_line (metadata : dict) : string :=
  "Created: " ++ fmt str_value (dict_get_default metadata "created_at" VNone) ++ nl.

Definition parsed_line (metadata : dict) : string :=
  "Parsed: " ++ fmt str_value (dict_get_default metadata "parsed_at" VNone) ++ nl.

(** The header of a staged file: title, source type, creation time when
    there is one, parse time, separator. *)
Definition staged_lines (title : string) (metadata : dict) : list string :=
  [title_line title; source_line metadata]
  ++ (if truthy (dict_get_default metadata "created_at" VNone)
      then [created_line metadata] else [])
  ++ [parsed_line metadata; separator_line].

Definition staged_header (title : string) (metadata : dict) : string :=
  String.concat EmptyString (staged_lines title metadata).

(** The text of a staged file: the header, then the document text. *)
Definition staged_content (title : string) (metadata : dict) (text : string)
    : string :=
  String.concat EmptyString (staged_lines title metadata ++ [text]).

End Staging.

End Texts.

(** *** Files *)

(** Two file systems that agree on every path outside the directory [d]. *)
Definition same_outside (d : string) (f f' : FS) : Prop :=
  forall q, inside d q = false -> fs_lookup f' q = fs_lookup f q.

(** Every run of [m] relates the state before to the state after by [P]. *)
Definition steps {S A} (P : S -> S -> Prop) (m : M S A) : Prop :=
  forall s, P s (snd (m s)).

(** The files of an ingestor. *)
Definition files_of {B} (s : St (World B)) : FS := fs (world (env s)).

(** The status of the node can be read. *)
Definition has_status (n : Node) : bool :=
  match n with NNoStat _ => false | _ => true end.

(** The entries below [d] have a status that can be read. *)
Definition readable_below (d : string) (entries : FS) : bool :=
  forallb (fun entry => (negb (inside d (fst entry)) || has_status (snd entry))%bool)
    entries.

(** Nothing below [d] is protected from removal: the process may remove
    each entry, and can read the status of each. *)
Definition removable {B} (d : string) (w : World B) : bool :=
  (forallb (fun p => negb (inside d p)) (undeletable w)
   && readable_below d (fs w))%bool.

(** Between two states of an ingestor, only paths inside [d] have changed. *)
Definition touches_only {B} (d : string) (s s' : St (World B)) : Prop :=
  same_outside d (files_of s) (files_of s').

End Laws.

(** Further concrete runs on the fixture. *)
Module Samples.
Import Base Claude Fixture Spec Laws.

(** A backend that is not installed. *)
Definition backend_missing : Pixeltable Rows :=
  mkPixeltable Rows
    (raise (Exn ImportError "No module named 'pixeltable'"))
    (fun _ => ret tt) (fun _ => ret tt) (fun _ => ret tt)
    (fun _ => ret tt) (fun _ => ret tt)
    (fun _ rows _ => modify (fun b => (b ++ rows)%list)).

(** The plain-text chat, parsed by a fresh ingestor of batch size [bs]. *)
Definition chat_parsed_zero : St (World Rows) :=
  Eval vm_compute in snd (run_prepare "/data/chat.txt" (fresh 0)).

Definition chat_parsed_negative : St (World Rows) :=
  Eval vm_compute in snd (run_prepare "/data/chat.txt" (fresh (-5))).

(** The first conversation of the export, staged a second time within the
    same second. *)
Definition restaged_record : dict :=
  Eval vm_compute in
    match fst (transform_record json_dumps str_value "/tmp" first_document
                 staged_world) with
    | Ok t => t
    | Raise _ => []
    end.

Definition restaged_world : World Rows :=
  Eval vm_compute in
    snd (transform_record json_dumps str_value "/tmp" first_document staged_world).

(** A progress record with six errors in its log, its dictionary, and the
    dictionary after one more error. *)
Definition six_errors : IngestorProgress :=
  mkProgress 10 6 6 midnight midnight RUNNING ["e1"; "e2"; "e3"; "e4"; "e5"; "e6"] [].

Definition six_errors_view : ProgressDict :=
  Eval vm_compute in
    match to_dict six_errors with
    | Ok d => d
    | Raise _ => mkProgressDict 0 0 0 0 0 EmptyString EmptyString EmptyString 0 [] []
    end.

Definition seven_errors_view : ProgressDict :=
  Eval vm_compute in
    match to_dict (add_error "late" midnight six_errors) with
    | Ok d => d
    | Raise _ => mkProgressDict 0 0 0 0 0 EmptyString EmptyString EmptyString 0 [] []
    end.


(** An ingestor that has left a staged file behind. *)
Definition leftover : St (World Rows) :=
  mkSt 100 None [] (mkEnv true [] staged_world).

Definition cr : string := String "013"%char EmptyString.

(** A document from another system: its title has an accent, blanks and a
    slash, its text ends its lines with [\r\n] or [\r]. *)
Definition dos_document : Document :=
  mkDocument (VStr ("Hi" ++ cr ++ newline ++ "there" ++ cr))
    [("parsed_at", VStr "2024-01-01T00:00:00")]
    (VStr ("caf" ++ e_acute ++ " a/b")).

Definition dos_record : dict :=
  Eval vm_compute in
    match fst (transform_record json_dumps str_value "/tmp" dos_document world0) with
    | Ok t => t
    | Raise _ => []
    end.

Definition dos_world : World Rows :=
  Eval vm_compute in
    snd (transform_record json_dumps str_value "/tmp" dos_document world0).

(** A document whose title holds a lone surrogate. *)
Definition surrogate_document : Document :=
  mkDocument (VStr "Hi") [("parsed_at", VStr "2024-01-01T00:00:00")]
    (VStr ("a" ++ lone_surrogate)).

(** An ingestor whose staging directory lies where the process may not
    search. *)
Definition sealed : St (World Rows) :=
  mkSt 100 None []
    (mkEnv true []
       (mkWorld (("/tmp/takeout_ingestor_docs", NNoStat "[Errno 13] Permission denied")
                 :: files)
          0 (fun _ => midnight) [] [])).

End Samples.

(* ===================================================================== *)
(** * Properties *)
(* ===================================================================== *)

(** ** Evaluation of the Python helpers on examples *)

Example suffix_examples :
  PyPath.suffix "/data/conv.JSON" = ".JSON"
  /\ PyPath.suffix "a/b.tar.gz" = ".gz"
  /\ PyPath.suffix "/tmp/.bashrc" = EmptyString
  /\ PyPath.suffix "x./" = EmptyString
  /\ PyPath.suffix "dir.d/file" = EmptyString.
Proof. repeat split; reflexivity. Qed.

Module StringExamples.
Import Fixture.

Example title_examples :
  PyStr.title "hUMAN" = "Human"
  /\ PyStr.title "system prompt" = "System Prompt"
  /\ PyStr.title "tool_use" = "Tool_Use"
  /\ PyStr.title "o'neil 2nd" = "O'Neil 2Nd"
  /\ PyStr.title (Fixture.e_acute ++ "LAN") = Fixture.capital_e_acute ++ "lan"
  /\ PyStr.lower ("CAF" ++ Fixture.capital_e_acute) = "caf" ++ Fixture.e_acute.
Proof. repeat split; reflexivity. Qed.

Example strip_examples :
  PyStr.strip (String "009"%char " a b  ") = "a b"
  /\ PyStr.strip (PyStr.utf8 [194; 160]%nat ++ "a " ++ PyStr.utf8 [226; 128; 131]%nat)
     = "a"
  /\ PyStr.strip (PyStr.utf8 [194; 160; 226; 128; 131; 10]%nat) = EmptyString
  /\ PyStr.strip (Fixture.e_acute ++ " ") = Fixture.e_acute
  /\ PyStr.universal_newlines (PyStr.utf8 [97; 13; 10; 98; 13; 99; 13]%nat)
     = PyStr.utf8 [97; 10; 98; 10; 99; 10]%nat.
Proof. repeat split; reflexivity. Qed.

Example safe_title_examples :
  PyStr.chars ("a" ++ Fixture.e_acute ++ "b") = ["a"; Fixture.e_acute; "b"]
  /\ PyStr.take 2 (Fixture.e_acute ++ "ab") = Fixture.e_acute ++ "a"
  /\ PyStr.sub_unsafe ("caf" ++ Fixture.e_acute ++ " a/b.c-d")
     = "caf" ++ Fixture.e_acute ++ "_a_b.c-d"
  /\ PyStr.sub_unsafe (PyStr.utf8 [226; 130; 172]%nat ++ "5") = "_5"
  /\ PyStr.encodable ("a" ++ Fixture.lone_surrogate) = false
  /\ PyStr.encodable ("a" ++ Fixture.e_acute) = true.
Proof. repeat split; reflexivity. Qed.

End StringExamples.

Example py_range_examples :
  py_range 0 5 2 = Ok [0; 2; 4] /\ py_range 0 4 2 = Ok [0; 2]
  /\ py_range 0 0 3 = Ok [] /\ py_range 0 5 (-1) = Ok []
  /\ py_range 5 0 (-2) = Ok [5; 3; 1] /\ is_ok (py_range 0 5 0) = false
  /\ slice [1; 2; 3; 4; 5] 4 6 = [5].
Proof. repeat split; reflexivity. Qed.


(** ** Progress tracking *)

Module ProgressProps.
Import Spec.

Lemma completion_percentage_value (p : IngestorProgress) :
  completion_percentage p = Ok (percentage_of (processed_items p) (total_items p)).
Proof.
  unfold completion_percentage, percentage_of, truediv.
  destruct (total_items p =? 0); reflexivity.
Qed.

Lemma success_rate_value (p : IngestorProgress) :
  success_rate p
  = Ok (percentage_of (processed_items p - failed_items p) (processed_items p)).
Proof.
  unfold success_rate, percentage_of, truediv.
  destruct (processed_items p =? 0); reflexivity.
Qed.

(** With a zero denominator the rates are 0: no division takes place. *)
Lemma rates_zero_denominator (t : datetime) (failed : Z) :
  completion_percentage (mkProgress 0 7 failed t t RUNNING [] []) = Ok 0%Q
  /\ success_rate (mkProgress 7 0 failed t t RUNNING [] []) = Ok 0%Q.
Proof. split; reflexivity. Qed.

Lemma update_keeps_status processed failed md t p :
  status (update processed failed md t p) = status p.
Proof. reflexivity. Qed.

Lemma add_error_keeps_status msg t p :
  status (add_error msg t p) = status p.
Proof. reflexivity. Qed.

End ProgressProps.

(** ** The state-and-exception monad *)

Module MonadProps.
Import Spec.

Lemma keeps_ret {S A X} (proj : S -> X) (a : A) : keeps proj (ret a).
Proof. intro s. reflexivity. Qed.

Lemma keeps_raise {S A X} (proj : S -> X) (e : exn) : keeps proj (@raise S A e).
Proof. intro s. reflexivity. Qed.

Lemma keeps_gets {S A X} (proj : S -> X) (f : S -> A) : keeps proj (gets f).
Proof. intro s. reflexivity. Qed.

Lemma keeps_lift_result {S A X} (proj : S -> X) (r : Result A) :
  keeps proj (@lift_result S A r).
Proof. intro s. reflexivity. Qed.

Lemma keeps_bind {S A B X} (proj : S -> X) (m : M S A) (k : A -> M S B) :
  keeps proj m -> (forall a, keeps proj (k a)) -> keeps proj (bind m k).
Proof.
  intros Hm Hk s. unfold bind. specialize (Hm s).
  destruct (m s) as [[a | e] s']; simpl in *.
  - rewrite Hk. exact Hm.
  - exact Hm.
Qed.

Lemma keeps_try_except {S A X} (proj : S -> X) (m : M S A) (h : exn -> M S A) :
  keeps proj m -> (forall e, keeps proj (h e)) -> keeps proj (try_except m h).
Proof.
  intros Hm Hh s. unfold try_except. specialize (Hm s).
  destruct (m s) as [[a | e] s']; simpl in *.
  - exact Hm.
  - rewrite Hh. exact Hm.
Qed.

Lemma keeps_modify {S X} (proj : S -> X) (f : S -> S) :
  (forall s, proj (f s) = proj s) -> keeps proj (modify f).
Proof. intros H s. apply H. Qed.

Lemma keeps_zoom {S T A X} (proj : S -> X) (get : S -> T) (set : T -> S -> S)
    (m : M T A) :
  (forall t s, proj (set t s) = proj s) -> keeps proj (zoom get set m).
Proof.
  intros H s. unfold zoom. destruct (m (get s)) as [r t']. apply H.
Qed.

Lemma keeps_for_each {S A B X} (proj : S -> X) (xs : list A)
    (body : A -> B -> M S B) :
  (forall x acc, keeps proj (body x acc)) ->
  forall acc, keeps proj (for_each xs body acc).
Proof.
  intros Hbody. induction xs as [| x r IH]; intro acc; simpl.
  - apply keeps_ret.
  - apply keeps_bind; [apply Hbody | intro acc'; apply IH].
Qed.

Lemma bind_ok {S A B} (m : M S A) (k : A -> M S B) s a s' :
  m s = (Ok a, s') -> bind m k s = k a s'.
Proof. intro H. unfold bind. rewrite H. reflexivity. Qed.

Lemma bind_raise {S A B} (m : M S A) (k : A -> M S B) s e s' :
  m s = (Raise e, s') -> bind m k s = (Raise e, s').
Proof. intro H. unfold bind. rewrite H. reflexivity. Qed.

End MonadProps.

(** ** The pipeline of [BaseIngestor] *)

Module BaseProps.
Import Base Spec MonadProps.

Section Pipeline.

Context {W R T : Type}.
Variable clock : W -> datetime * W.
Variable import_pixeltable : M W unit.
Variable repr_summary : Summary -> string.

(** *** Frames: what the parts of the pipeline leave alone *)

Lemma in_env_keeps_progress {A} (m : M (Env W) A) : keeps progress (in_env m).
Proof. apply keeps_zoom. reflexivity. Qed.

Lemma in_env_keeps_calls {A} (m : M (Env W) A) : keeps calls (in_env m).
Proof. apply keeps_zoom. reflexivity. Qed.

Lemma in_env_keeps_batch_size {A} (m : M (Env W) A) : keeps batch_size (in_env m).
Proof. apply keeps_zoom. reflexivity. Qed.

Lemma call_keeps_progress {A} (c : Call) (m : M (Env W) A) :
  keeps progress (call c m).
Proof.
  apply keeps_bind; [apply keeps_modify; reflexivity | intro].
  apply in_env_keeps_progress.
Qed.

Lemma call_calls {A} (c : Call) (m : M (Env W) A) (s : St W) :
  calls (snd (call c m s)) = (calls s ++ [c])%list.
Proof.
  unfold call, bind, modify. simpl.
  rewrite (in_env_keeps_calls m (add_call c s)). reflexivity.
Qed.

Lemma with_progress_keeps_calls f : keeps calls (@with_progress W f).
Proof. apply keeps_modify. reflexivity. Qed.

Lemma with_progress_at_keeps_calls f : keeps calls (with_progress_at clock f).
Proof.
  unfold with_progress_at. apply keeps_bind; [apply keeps_gets | intros [p |]].
  - apply keeps_bind; [apply in_env_keeps_calls | intro; apply with_progress_keeps_calls].
  - apply keeps_ret.
Qed.

Lemma initialize_backend_keeps_progress (h : Hooks W R T) :
  keeps progress (initialize_backend import_pixeltable h).
Proof.
  unfold initialize_backend.
  apply keeps_try_except.
  - apply keeps_bind; [apply in_env_keeps_progress | intro].
    apply keeps_bind; [apply in_env_keeps_progress | intro].
    apply keeps_bind; [apply call_keeps_progress | intro].
    apply in_env_keeps_progress.
  - intro e. destruct (ExnClass_eqb (exn_class e) ImportError);
      (apply keeps_bind; [apply in_env_keeps_progress | intro; apply keeps_raise]).
Qed.

Lemma prepare_keeps_progress (c : Class) (source_path : string) :
  keeps progress (prepare (R:=R) (T:=T) import_pixeltable c source_path).
Proof.
  unfold prepare.
  apply keeps_bind; [apply in_env_keeps_progress | intro].
  apply keeps_bind; [apply initialize_backend_keeps_progress | intro].
  apply keeps_bind; [apply call_keeps_progress | intros [is_valid error_msg]].
  apply keeps_bind; [| intro; apply call_keeps_progress].
  destruct (negb is_valid); [apply keeps_raise | apply keeps_ret].
Qed.

(** *** The hooks that a run of the first three steps has called *)

Lemma initialize_backend_calls (h : Hooks W R T) (s : St W) :
  let out := initialize_backend import_pixeltable h s in
  (is_ok (fst out) = true -> calls (snd out) = (calls s ++ [CallEnsureSchema])%list)
  /\ (calls (snd out) = calls s \/ calls (snd out) = (calls s ++ [CallEnsureSchema])%list).
Proof.
  cbv [initialize_backend try_except bind in_env in_world zoom modify call
       logger raise set_env set_client set_world add_log add_call].
  cbn [env world calls].
  destruct (import_pixeltable (world (env s))) as [[[] | e] w1]; cbn.
  - destruct (_ensure_pixeltable_schema h _) as [[[] | e] e1]; cbn.
    + split; [reflexivity | right; reflexivity].
    + destruct (ExnClass_eqb (exn_class e) ImportError); cbn;
        (split; [discriminate | right; reflexivity]).
  - destruct (ExnClass_eqb (exn_class e) ImportError); cbn;
      (split; [discriminate | left; reflexivity]).
Qed.

Lemma prepare_calls_ok (c : Class) (source_path : string) (s s1 : St W)
    (records : list R) :
  prepare (T:=T) import_pixeltable c source_path s = (Ok records, s1) ->
  calls s1 = (calls s ++ [CallEnsureSchema; CallValidateSource; CallParseSource])%list.
Proof.
  unfold prepare. intro H.
  unfold bind at 1 in H.
  destruct (in_env (logger INFO _) s) as [[[] | e] s0] eqn:E0; [| discriminate].
  assert (C0 : calls s0 = calls s).
  { pose proof (in_env_keeps_calls (logger INFO ("Starting ingestion of " ++ source_path)) s) as K.
    rewrite E0 in K. exact K. }
  unfold bind at 1 in H.
  pose proof (initialize_backend_calls (hooks c) s0) as [Kok _].
  destruct (initialize_backend import_pixeltable (hooks c) s0) as [[[] | e] s2];
    [| discriminate].
  specialize (Kok eq_refl). simpl in Kok.
  unfold bind at 1 in H.
  pose proof (call_calls CallValidateSource (validate_source (hooks c) source_path) s2) as K3.
  destruct (call CallValidateSource _ s2) as [[[is_valid error_msg] | e] s3];
    [| discriminate].
  simpl in K3.
  unfold bind at 1 in H.
  destruct (negb is_valid); simpl in H; [discriminate |].
  pose proof (call_calls CallParseSource (parse_source (hooks c) source_path) s3) as K4.
  rewrite H in K4. simpl in K4.
  rewrite K4, K3, Kok, C0. rewrite <- !app_assoc. reflexivity.
Qed.

(** When the first three steps raise, parsing may have been called but
    nothing after it. *)
Lemma prepare_calls_any (c : Class) (source_path : string) (s : St W) :
  exists extra,
    calls (snd (prepare (R:=R) (T:=T) import_pixeltable c source_path s))
    = (calls s ++ extra)%list
    /\ incl extra [CallEnsureSchema; CallValidateSource; CallParseSource].
Proof.
  unfold prepare.
  unfold bind at 1.
  destruct (in_env (logger INFO _) s) as [[[] | e] s0] eqn:E0.
  2:{ exists []. simpl. pose proof (in_env_keeps_calls (logger INFO ("Starting ingestion of " ++ source_path)) s) as K.
      rewrite E0 in K. simpl in K. rewrite K, app_nil_r. split; [reflexivity | apply incl_nil_l]. }
  assert (C0 : calls s0 = calls s).
  { pose proof (in_env_keeps_calls (logger INFO ("Starting ingestion of " ++ source_path)) s) as K.
    rewrite E0 in K. exact K. }
  unfold bind at 1.
  pose proof (initialize_backend_calls (hooks c) s0) as [Kok Kany].
  destruct (initialize_backend import_pixeltable (hooks c) s0) as [[[] | e] s2].
  2:{ simpl in *. destruct Kany as [K | K]; rewrite K, C0.
      - exists []. rewrite app_nil_r. split; [reflexivity | apply incl_nil_l].
      - exists [CallEnsureSchema]. split; [reflexivity |].
        intros x [<- | []]. simpl; auto. }
  specialize (Kok eq_refl). simpl in Kok.
  unfold bind at 1.
  pose proof (call_calls CallValidateSource (validate_source (hooks c) source_path) s2) as K3.
  destruct (call CallValidateSource _ s2) as [[[is_valid error_msg] | e] s3];
    simpl in K3.
  2:{ simpl. rewrite K3, Kok, C0, <- app_assoc.
      exists [CallEnsureSchema; CallValidateSource]. split; [reflexivity |].
      intros x [<- | [<- | []]]; simpl; auto. }
  unfold bind at 1.
  destruct (negb is_valid); simpl.
  - rewrite K3, Kok, C0, <- app_assoc.
    exists [CallEnsureSchema; CallValidateSource]. split; [reflexivity |].
    intros x [<- | [<- | []]]; simpl; auto.
  - rewrite call_calls, K3, Kok, C0, <- !app_assoc.
    exists [CallEnsureSchema; CallValidateSource; CallParseSource].
    split; [reflexivity | apply incl_refl].
Qed.

(** *** [_process_batch] *)

Lemma process_record_run (h : Hooks W R T) (record : R) (processed failed : Z)
    (s : St W) :
  process_record clock h record (processed, failed) s
  = (Ok (if record_succeeds h record s
         then (processed + 1, failed) else (processed, failed + 1)),
     after_record clock h record s).
Proof.
  assert (E : is_ok (fst (transform_and_store h record s))
              = record_succeeds h record s).
  { unfold record_succeeds, transform_and_store, call, bind, modify, in_env, zoom.
    cbn [env add_call].
    destruct (Base.transform_record h record (env s)) as [[t | e] e1];
      cbn [fst snd is_ok env set_env]; [| reflexivity].
    destruct (Base._store_pixeltable h t e1) as [[[] | e] e2]; reflexivity. }
  rewrite <- E.
  unfold after_record, process_record, try_except, bind.
  destruct (transform_and_store h record s) as [[[] | e] s1]; cbn [fst snd is_ok].
  - reflexivity.
  - cbv [in_env zoom logger modify with_progress_at gets ret with_progress
         in_world now bind].
    cbn [fst snd].
    destruct (progress _) as [p |]; [| reflexivity].
    destruct (clock _) as [t w1]. reflexivity.
Qed.

Lemma count_cons (b x : bool) (l : list bool) :
  count b (x :: l) = (if Bool.eqb b x then 1 else 0) + count b l.
Proof.
  unfold count, len. cbn [filter].
  destruct (Bool.eqb b x); cbn [length]; lia.
Qed.

Lemma count_true_false (l : list bool) :
  count true l + count false l = len l.
Proof.
  induction l as [| x l IH].
  - reflexivity.
  - rewrite !count_cons. unfold len in *. cbn [length].
    destruct x; cbn [Bool.eqb]; lia.
Qed.

Lemma outcomes_length (h : Hooks W R T) (batch : list R) (s : St W) :
  length (outcomes clock h batch s) = length batch.
Proof.
  revert s. induction batch as [| r rest IH]; intro s; cbn [outcomes length].
  - reflexivity.
  - now rewrite IH.
Qed.

Lemma for_each_process_record (h : Hooks W R T) (batch : list R) :
  forall processed failed s,
  exists s',
    for_each batch (process_record clock h) (processed, failed) s
    = (Ok (processed + count true (outcomes clock h batch s),
           failed + count false (outcomes clock h batch s)), s').
Proof.
  induction batch as [| r rest IH]; intros processed failed s.
  - exists s. cbn. now rewrite !Z.add_0_r.
  - cbn [for_each outcomes].
    rewrite (bind_ok _ _ _ _ _ (process_record_run h r processed failed s)).
    rewrite !count_cons.
    destruct (record_succeeds h r s); cbn [Bool.eqb];
      rewrite !Z.add_assoc, !Z.add_0_r.
    + destruct (IH (processed + 1) failed (after_record clock h r s)) as [s' E].
      exists s'. exact E.
    + destruct (IH processed (failed + 1) (after_record clock h r s)) as [s' E].
      exists s'. exact E.
Qed.

(** C10: [_process_batch] always returns, and its two counts are the number
    of records whose transform and store both returned and the number of
    records for which one of them raised; every record is in exactly one
    of the two, so the counts add up to the length of the batch. *)
Theorem process_batch_counts_every_record_once (h : Hooks W R T)
    (batch : list R) (s : St W) :
  exists s',
    _process_batch clock h batch s
    = (Ok (count true (outcomes clock h batch s),
           count false (outcomes clock h batch s)), s')
    /\ count true (outcomes clock h batch s)
       + count false (outcomes clock h batch s) = len batch
    /\ length (outcomes clock h batch s) = length batch.
Proof.
  destruct (for_each_process_record h batch 0 0 s) as [s' E].
  exists s'. split; [exact E |]. split.
  - rewrite count_true_false. unfold len. now rewrite outcomes_length.
  - apply outcomes_length.
Qed.

(** *** The fatal path of [ingest] *)

Lemma ingest_handler_run (e : exn) (s1 : St W) :
  exists s2,
    (in_env (logger ERROR ("Ingestion failed: " ++ exn_str e)) ;;;
     with_progress (set_status FAILED) ;;;
     with_progress_at clock (add_error (exn_str e)) ;;;
     @raise (St W) (IngestResult R) e) s1 = (Raise e, s2)
    /\ progress s2
       = option_map (failed_with e (fst (clock (world (env s1))))) (progress s1)
    /\ calls s2 = calls s1.
Proof.
  cbv [bind in_env zoom logger modify with_progress_at gets ret with_progress
       in_world now raise set_env add_log set_progress set_world].
  cbn [fst snd env world progress calls option_map].
  destruct (progress s1) as [p |]; cbn.
  - destruct (clock (world (env s1))) as [t w1]. cbn.
    eexists. split; [reflexivity |]. split; reflexivity.
  - eexists. split; [reflexivity |]. split; reflexivity.
Qed.

(** C4: when backend initialization, validation or parsing raises [e], or
    validation answers no (then [e] is the [ValueError] built from the
    reason), [ingest] raises the same [e], and before that the progress
    record gets the status [FAILED] and one more entry in [errors], the
    message of [e] after the time stamp. *)
Theorem ingest_reraises_fatal_error (c : Class) (source_path : string)
    (resume validate_only : bool) (s s1 : St W) (e : exn) :
  prepare (R:=R) (T:=T) import_pixeltable c source_path s = (Raise e, s1) ->
  exists s2 t,
    ingest clock import_pixeltable repr_summary c source_path resume validate_only s
    = (Raise e, s2)
    /\ progress s2 = option_map (failed_with e t) (progress s)
    /\ option_map status (progress s2) = option_map (fun _ => FAILED) (progress s)
    /\ option_map errors (progress s2)
       = option_map (fun p => (errors p ++ [(isoformat t ++ ": " ++ exn_str e)%string])%list)
                    (progress s).
Proof.
  intro H.
  pose proof (prepare_keeps_progress c source_path s) as K.
  rewrite H in K. cbn [snd] in K.
  destruct (ingest_handler_run e s1) as [s2 [E [P _]]].
  exists s2, (fst (clock (world (env s1)))).
  split.
  - unfold ingest, try_except, ingest_body.
    rewrite (bind_raise _ _ _ _ _ H). exact E.
  - rewrite P, K. destruct (progress s) as [p |]; cbn; auto.
Qed.

(** A negative answer of [validate_source] is one of these errors. *)
Lemma prepare_rejects_invalid_source (c : Class) (source_path : string)
    (s s0 s1 s2 : St W) (reason : option string) :
  in_env (logger INFO ("Starting ingestion of " ++ source_path)) s = (Ok tt, s0) ->
  initialize_backend import_pixeltable (hooks c) s0 = (Ok tt, s1) ->
  call CallValidateSource (validate_source (hooks c) source_path) s1
  = (Ok (false, reason), s2) ->
  prepare (R:=R) (T:=T) import_pixeltable c source_path s
  = (Raise (Exn ValueError ("Source validation failed: " ++ fmt_optional reason)), s2).
Proof.
  intros E0 E1 E2. unfold prepare.
  rewrite (bind_ok _ _ _ _ _ E0), (bind_ok _ _ _ _ _ E1), (bind_ok _ _ _ _ _ E2).
  reflexivity.
Qed.

(** *** Validate-only runs *)

(** C2, as the code has it: when the first three steps succeed and
    [validate_only] is set, [ingest] returns the report (record count and
    first record, or [None] when there is none), the only hooks called are
    schema, validation and parsing (no transform, no store), and the progress
    record has its total set and its status moved to [RUNNING], where it
    stays. *)
Theorem validate_only_report (c : Class) (source_path : string) (resume : bool)
    (s s1 : St W) (records : list R) :
  prepare (T:=T) import_pixeltable c source_path s = (Ok records, s1) ->
  exists s2,
    ingest clock import_pixeltable repr_summary c source_path resume true s
    = (Ok (Validated (mkReport "passed" (len records) (hd_error records))), s2)
    /\ calls s2
       = (calls s ++ [CallEnsureSchema; CallValidateSource; CallParseSource])%list
    /\ progress s2 = option_map (parsed (len records)) (progress s)
    /\ world (env s2) = world (env s1).
Proof.
  intro H.
  pose proof (prepare_keeps_progress c source_path s) as K.
  rewrite H in K. cbn [snd] in K.
  pose proof (prepare_calls_ok c source_path s s1 records H) as C.
  unfold ingest, try_except, ingest_body.
  rewrite (bind_ok _ _ _ _ _ H).
  cbv [bind in_env zoom logger modify ret with_progress set_env add_log set_progress].
  cbn [fst snd env progress calls world].
  eexists. split; [reflexivity |].
  cbn [calls progress env world]. rewrite K. auto.
Qed.

(** *** The batch loop *)

(** A batch whose [_process_batch] raises adds its length to the local
    [failed_count] only: the progress record gets an error message and no
    change of its counters. *)
Lemma batch_turn_raise (c : Class) (records : list R) (i : Z)
    (processed_count failed_count : Z) (s s1 : St W) (e : exn) :
  process_batch_method c (slice records i (i + batch_size s)) s = (Raise e, s1) ->
  exists s2,
    batch_turn (T:=T) clock c records i (processed_count, failed_count) s
    = (Ok (processed_count,
           failed_count + len (slice records i (i + batch_size s))), s2)
    /\ option_map processed_items (progress s2) = option_map processed_items (progress s1)
    /\ option_map failed_items (progress s2) = option_map failed_items (progress s1)
    /\ option_map status (progress s2) = option_map status (progress s1).
Proof.
  intro H. unfold batch_turn.
  unfold bind at 1. cbn [gets]. unfold try_except.
  rewrite (bind_raise _ _ _ _ _ H).
  cbv [bind in_env zoom logger modify with_progress_at gets ret with_progress
       in_world now set_env add_log set_progress set_world].
  cbn [fst snd env world progress calls batch_size].
  destruct (progress s1) as [p |] eqn:P; cbn.
  - destruct (clock (world (env s1))) as [t w1]. cbn.
    eexists. split; [reflexivity |]. cbn. rewrite ?P. auto.
  - eexists. split; [reflexivity |]. cbn. rewrite ?P. auto.
Qed.

(** A batch whose [_process_batch] returns adds its two counts to the local
    counters and to the progress record alike. *)
Lemma batch_turn_ok (c : Class) (records : list R) (i : Z)
    (processed_count failed_count processed failed : Z) (s s1 : St W) :
  process_batch_method c (slice records i (i + batch_size s)) s
  = (Ok (processed, failed), s1) ->
  exists s2,
    batch_turn (T:=T) clock c records i (processed_count, failed_count) s
    = (Ok (processed_count + processed, failed_count + failed), s2)
    /\ option_map processed_items (progress s2)
       = option_map (fun p => processed_items p + processed) (progress s1)
    /\ option_map failed_items (progress s2)
       = option_map (fun p => failed_items p + failed) (progress s1)
    /\ option_map status (progress s2) = option_map status (progress s1).
Proof.
  intro H. unfold batch_turn.
  unfold bind at 1. cbn [gets]. unfold try_except.
  rewrite (bind_ok _ _ _ _ _ H).
  cbv [bind in_env zoom logger modify with_progress_at gets ret with_progress
       in_world now set_env add_log set_progress set_world].
  cbn [fst snd env world progress calls batch_size].
  destruct (progress s1) as [p |] eqn:P; cbn.
  - destruct (clock (world (env s1))) as [t w1]. cbn.
    eexists. split; [reflexivity |]. cbn. rewrite ?P. auto.
  - eexists. split; [reflexivity |]. cbn. rewrite ?P. auto.
Qed.

(** *** Pause and resume *)

Lemma pause_sets_paused (s : St W) :
  option_map status (progress (snd (pause s)))
  = option_map (fun _ => PAUSED) (progress s).
Proof.
  unfold pause, bind, gets. cbn.
  destruct (progress s) as [p |] eqn:E; cbn; rewrite ?E; reflexivity.
Qed.

Lemma resume_sets_running (s : St W) :
  option_map status (progress (snd (Base.resume s)))
  = option_map (fun _ => RUNNING) (progress s).
Proof.
  unfold Base.resume, bind, gets. cbn.
  destruct (progress s) as [p |] eqn:E; cbn; rewrite ?E; reflexivity.
Qed.

(** C5, as the code has it: [update] and [add_error] never change the
    status, in a terminal state or in any other; [pause] and [resume] have no
    guard and set the status to [PAUSED] and to [RUNNING] from every status,
    [COMPLETED] and [FAILED] included, whenever progress is tracked. *)
Theorem status_changes (s : St W) (p : IngestorProgress)
    (processed failed : Z) (md : option dict) (msg : string) (t : datetime) :
  status (update processed failed md t p) = status p
  /\ status (add_error msg t p) = status p
  /\ option_map status (progress (snd (pause s)))
     = option_map (fun _ => PAUSED) (progress s)
  /\ option_map status (progress (snd (Base.resume s)))
     = option_map (fun _ => RUNNING) (progress s).
Proof.
  split; [reflexivity |]. split; [reflexivity |].
  split; [apply pause_sets_paused | apply resume_sets_running].
Qed.

(** *** The accounting of the batch loop *)

Lemma to_dict_returns (p : IngestorProgress) :
  exists d,
    to_dict p = Ok d
    /\ d_processed_items d = processed_items p
    /\ d_failed_items d = failed_items p
    /\ d_status d = status_value (status p).
Proof.
  unfold to_dict.
  rewrite ProgressProps.completion_percentage_value, ProgressProps.success_rate_value.
  eexists. repeat split.
Qed.

(** One turn of the loop never raises; it adds to the local counters what
    the summary counts for the batch and to the progress record what the
    progress counts for it. *)
Lemma batch_turn_accounting (c : Class) (records : list R) (i : Z)
    (acc : Z * Z) (s : St W) :
  process_batch_frame c ->
  let batch := slice records i (i + batch_size s) in
  let entry := (batch, fst (process_batch_method (T:=T) c batch s)) in
  exists s',
    batch_turn clock c records i acc s
    = (Ok (fst acc + fst (summary_counts entry), snd acc + snd (summary_counts entry)),
       s')
    /\ batch_size s' = batch_size s
    /\ option_map processed_items (progress s')
       = option_map (fun p => processed_items p + fst (progress_counts entry))
                    (progress s)
    /\ option_map failed_items (progress s')
       = option_map (fun p => failed_items p + snd (progress_counts entry))
                    (progress s)
    /\ option_map status (progress s') = option_map status (progress s).
Proof.
  intros F batch entry. destruct acc as [processed_count failed_count].
  specialize (F batch s). unfold tracked in F.
  subst entry. unfold batch_turn.
  unfold bind at 1. cbn [gets]. fold batch. unfold try_except.
  destruct (process_batch_method c batch s) as [[[processed failed] | e] s1] eqn:E;
    cbn [fst snd summary_counts progress_counts] in *;
    injection F as Fb Fp.
  - rewrite (bind_ok _ _ _ _ _ E).
    cbv [bind in_env zoom logger modify with_progress_at gets ret with_progress
         in_world now set_env add_log set_progress set_world].
    cbn [fst snd env world progress calls batch_size].
    destruct (progress s1) as [p1 |] eqn:P1; destruct (progress s) as [p |];
      try discriminate; cbn in Fp |- *.
    + destruct (clock (world (env s1))) as [t w1]. cbn.
      eexists. split; [reflexivity |]. cbn. rewrite ?P1. cbn.
      injection Fp as -> -> ->. auto.
    + eexists. split; [reflexivity |]. cbn. rewrite ?P1. auto.
  - rewrite (bind_raise _ _ _ _ _ E).
    cbv [bind in_env zoom logger modify with_progress_at gets ret with_progress
         in_world now set_env add_log set_progress set_world].
    cbn [fst snd env world progress calls batch_size].
    destruct (progress s1) as [p1 |] eqn:P1; destruct (progress s) as [p |];
      try discriminate; cbn in Fp |- *.
    + destruct (clock (world (env s1))) as [t w1]. cbn.
      rewrite Z.add_0_r.
      eexists. split; [reflexivity |]. cbn. rewrite ?P1. cbn.
      injection Fp as -> -> ->. rewrite !Z.add_0_r. auto.
    + rewrite Z.add_0_r.
      eexists. split; [reflexivity |]. cbn. rewrite ?P1. auto.
Qed.

Lemma option_shift (f : IngestorProgress -> Z) (o o1 o' : option IngestorProgress)
    (a b : Z) :
  option_map f o1 = option_map (fun p => f p + a) o ->
  option_map f o' = option_map (fun p => f p + b) o1 ->
  option_map f o' = option_map (fun p => f p + (a + b)) o.
Proof.
  destruct o, o1, o'; cbn; intros H1 H2; try discriminate; try reflexivity.
  injection H1 as H1. injection H2 as H2. f_equal. lia.
Qed.

Lemma sum_counts_cons f (x : list R * Result (Z * Z)) l :
  sum_counts f (x :: l)
  = (fst (f x) + fst (sum_counts f l), snd (f x) + snd (sum_counts f l)).
Proof. reflexivity. Qed.

Lemma batch_loop_accounting (c : Class) (records : list R) (starts : list Z) :
  process_batch_frame c ->
  forall acc s,
    let log := batch_log (T:=T) clock c records starts acc s in
    exists s',
      for_each starts (batch_turn clock c records) acc s
      = (Ok (fst acc + fst (sum_counts summary_counts log),
             snd acc + snd (sum_counts summary_counts log)), s')
      /\ batch_size s' = batch_size s
      /\ option_map processed_items (progress s')
         = option_map
             (fun p => processed_items p + fst (sum_counts progress_counts log))
             (progress s)
      /\ option_map failed_items (progress s')
         = option_map
             (fun p => failed_items p + snd (sum_counts progress_counts log))
             (progress s)
      /\ option_map status (progress s') = option_map status (progress s).
Proof.
  intro F. induction starts as [| i rest IH]; intros acc s; cbn zeta.
  - exists s. cbn. rewrite !Z.add_0_r. destruct acc.
    repeat split; destruct (progress s); cbn; try reflexivity;
      now rewrite Z.add_0_r.
  - destruct (batch_turn_accounting c records i acc s F)
      as (s1 & E & B1 & P1 & F1 & S1).
    cbn [for_each batch_log]. rewrite (bind_ok _ _ _ _ _ E), E.
    match type of E with
    | _ = (Ok ?a, _) => destruct (IH a s1) as (s' & E' & B' & P' & F' & S')
    end.
    exists s'. rewrite !sum_counts_cons. cbn [fst snd] in *.
    rewrite E'.
    split; [apply (f_equal (fun x => (Ok x, s'))); apply f_equal2; lia |].
    split; [now rewrite B', B1 |].
    split; [exact (option_shift processed_items _ _ _ _ _ P1 P') |].
    split; [exact (option_shift failed_items _ _ _ _ _ F1 F') |].
    now rewrite S', S1.
Qed.

Lemma loop_start_run {A} (records : list R) (k : M (St W) A) (s : St W) :
  (with_progress (fun p => set_status RUNNING (set_total_items (len records) p)) ;;;
   in_env (logger INFO
     ("Parsed " ++ PyStr.str_of_int (len records) ++ " records from source")) ;;;
   k) s = k (loop_start records s).
Proof. reflexivity. Qed.

Lemma loop_start_tracks (records : list R) (s : St W) :
  batch_size (loop_start records s) = batch_size s
  /\ option_map processed_items (progress (loop_start records s))
     = option_map processed_items (progress s)
  /\ option_map failed_items (progress (loop_start records s))
     = option_map failed_items (progress s).
Proof.
  unfold loop_start. cbn. destruct (progress s); cbn; auto.
Qed.

(** The accounting of a full run: the summary counts a raising batch as
    failed as a whole, the progress record does not count it at all, and
    both take the counts that [_process_batch] returns for the other
    batches. The run returns a summary whatever the batches do, and ends
    [COMPLETED] or [FAILED]. *)
Theorem ingest_accounting (c : Class) (source_path : string) (resume : bool)
    (s s1 : St W) (records : list R) (starts : list Z) :
  prepare (T:=T) import_pixeltable c source_path s = (Ok records, s1) ->
  process_batch_frame c ->
  py_range 0 (len records) (batch_size s1) = Ok starts ->
  let log := batch_log clock c records starts (0, 0) (loop_start records s1) in
  exists summary s2,
    ingest clock import_pixeltable repr_summary c source_path resume false s
    = (Ok (Ingested summary), s2)
    /\ total_records summary = len records
    /\ processed_records summary = fst (sum_counts summary_counts log)
    /\ failed_records summary = snd (sum_counts summary_counts log)
    /\ option_map processed_items (progress s2)
       = option_map
           (fun p => processed_items p + fst (sum_counts progress_counts log))
           (progress s)
    /\ option_map failed_items (progress s2)
       = option_map
           (fun p => failed_items p + snd (sum_counts progress_counts log))
           (progress s)
    /\ option_map status (progress s2)
       = option_map
           (fun _ => if snd (sum_counts summary_counts log) =? 0
                     then COMPLETED else FAILED)
           (progress s).
Proof.
  intros Hprep F Hrange log.
  pose proof (prepare_keeps_progress c source_path s) as K.
  rewrite Hprep in K. cbn [snd] in K.
  destruct (loop_start_tracks records s1) as (B0 & P0 & F0).
  destruct (batch_loop_accounting c records starts F (0, 0) (loop_start records s1))
    as (s' & E & B' & P' & F' & S').
  fold log in E, P', F'. cbn [fst snd] in E. rewrite !Z.add_0_l in E.
  set (pc := fst (sum_counts summary_counts log)) in *.
  set (fc := snd (sum_counts summary_counts log)) in *.
  unfold ingest, try_except, ingest_body.
  rewrite (bind_ok _ _ _ _ _ Hprep), loop_start_run.
  unfold bind at 1. unfold run_batches.
  rewrite (bind_ok (gets batch_size) _ (loop_start records s1)
             (batch_size (loop_start records s1)) (loop_start records s1) eq_refl).
  rewrite B0.
  assert (Hr : @lift_result (St W) _ (py_range 0 (len records) (batch_size s1))
                 (loop_start records s1) = (Ok starts, loop_start records s1))
    by (unfold lift_result; now rewrite Hrange).
  rewrite (bind_ok _ _ _ _ _ Hr), (bind_ok _ _ _ _ _ E).
  assert (Hrate : exists q,
            (if 0 <? pc
             then q <- lift_result (truediv (pc - fc) pc) ;; ret (q * 100)%Q
             else ret 0%Q)
            = @ret (St W) Q q).
  { destruct (0 <? pc) eqn:Hpos.
    - unfold truediv. apply Z.ltb_lt in Hpos.
      destruct (pc =? 0) eqn:Hz; [apply Z.eqb_eq in Hz; lia |].
      eexists. reflexivity.
    - eexists. reflexivity. }
  destruct Hrate as [q Hq]. rewrite Hq.
  cbv [bind modify with_progress ret gets set_progress].
  cbn [fst snd progress].
  destruct (progress s') as [p' |] eqn:Pp'; cbn [option_map].
  - destruct (to_dict_returns (set_status (if fc =? 0 then COMPLETED else FAILED) p'))
      as (d & D & _).
    unfold lift_result. rewrite D.
    cbv [in_env zoom logger modify set_env add_log].
    eexists _, _. split; [reflexivity |].
    cbn [total_records processed_records failed_records progress option_map].
    rewrite <- K.
    destruct (progress s1) as [p1 |]; destruct (progress (loop_start records s1)) as [p0 |];
      cbn in *; try discriminate.
    injection P0 as P0. injection F0 as F0. injection P' as P'. injection F' as F'.
    repeat split; f_equal; lia.
  - cbv [in_env zoom logger modify set_env add_log].
    eexists _, _. split; [reflexivity |].
    cbn [total_records processed_records failed_records progress option_map].
    rewrite <- K.
    destruct (progress s1) as [p1 |]; destruct (progress (loop_start records s1)) as [p0 |];
      cbn in *; try discriminate.
    repeat split.
Qed.

Lemma sum_counts_app f (l1 l2 : list (list R * Result (Z * Z))) :
  sum_counts f (l1 ++ l2)
  = (fst (sum_counts f l1) + fst (sum_counts f l2),
     snd (sum_counts f l1) + snd (sum_counts f l2)).
Proof.
  induction l1 as [| x l1 IH]; cbn [app].
  - cbn. now destruct (sum_counts f l2).
  - rewrite !sum_counts_cons, IH. cbn [fst snd]. apply f_equal2; lia.
Qed.

Lemma sum_counts_stored (l : list (list R * Result (Z * Z))) :
  Forall stored l ->
  sum_counts summary_counts l = (records_in l, 0)
  /\ sum_counts progress_counts l = (records_in l, 0).
Proof.
  induction 1 as [| [batch r] l Hx Hl [IH1 IH2]].
  - split; reflexivity.
  - rewrite !sum_counts_cons, IH1, IH2.
    unfold stored in Hx. cbn [fst snd] in Hx. subst r.
    cbn [records_in fold_right summary_counts progress_counts fst snd].
    fold (records_in l). rewrite !Z.add_0_r. split; reflexivity.
Qed.

(** A log in which exactly one batch raised and every other batch stored all
    of its records: the summary counts the raising batch as failed, the
    progress record counts no failure. *)
Lemma one_raising_batch (before after : list (list R * Result (Z * Z)))
    (bad : list R) (e : exn) :
  Forall stored before -> Forall stored after ->
  sum_counts summary_counts (before ++ (bad, Raise e) :: after)
  = (records_in before + records_in after, len bad)
  /\ sum_counts progress_counts (before ++ (bad, Raise e) :: after)
     = (records_in before + records_in after, 0).
Proof.
  intros Hb Ha.
  destruct (sum_counts_stored before Hb) as [B1 B2].
  destruct (sum_counts_stored after Ha) as [A1 A2].
  rewrite !sum_counts_app, !sum_counts_cons.
  rewrite B1, B2, A1, A2. cbn [fst snd summary_counts progress_counts].
  split; apply f_equal2; lia.
Qed.

(** [_process_batch] of [BaseIngestor] touches neither the batch size nor
    the counters nor the status. *)
Lemma process_batch_keeps_tracked (h : Hooks W R T) (batch : list R) :
  keeps tracked (_process_batch clock h batch).
Proof.
  unfold _process_batch. apply keeps_for_each. intros record [processed failed].
  unfold process_record. apply keeps_try_except.
  - apply keeps_bind; [| intro; apply keeps_ret].
    unfold transform_and_store.
    apply keeps_bind; [| intro];
      (unfold call; apply keeps_bind; [apply keeps_modify; reflexivity | intro];
       apply keeps_zoom; reflexivity).
  - intro e. apply keeps_bind; [apply keeps_zoom; reflexivity | intro].
    apply keeps_bind; [| intro; apply keeps_ret].
    unfold with_progress_at.
    apply keeps_bind; [apply keeps_gets | intros [p |]]; [| apply keeps_ret].
    apply keeps_bind; [apply keeps_zoom; reflexivity | intro t].
    apply keeps_modify. intro s. unfold tracked. cbn.
    destruct (progress s); reflexivity.
Qed.

Lemma subclass_frame (h : Hooks W R T) : process_batch_frame (subclass clock h).
Proof. intros batch s. apply process_batch_keeps_tracked. Qed.

End Pipeline.

End BaseProps.

(** ** Python strings *)

Module PyStrProps.
Import PyStr Spec.

Lemma to_lower_small (c : ascii) : to_lower c = small c.
Proof. destruct c as [[] [] [] [] [] [] [] []]; reflexivity. Qed.

Lemma to_upper_capital (c : ascii) : to_upper c = capital c.
Proof. destruct c as [[] [] [] [] [] [] [] []]; reflexivity. Qed.

Lemma is_cased_letter (c : ascii) : is_cased c = is_letter c.
Proof. destruct c as [[] [] [] [] [] [] [] []]; reflexivity. Qed.

Lemma small_capital (c : ascii) : small (capital c) = small c.
Proof. destruct c as [[] [] [] [] [] [] [] []]; reflexivity. Qed.

Lemma small_idempotent (c : ascii) : small (small c) = small c.
Proof. destruct c as [[] [] [] [] [] [] [] []]; reflexivity. Qed.

Lemma lowercased_capitalized_after (b : bool) (s : string) :
  lowercased (capitalized_after b s) = lowercased s.
Proof.
  revert b. induction s as [| c r IH]; intro b; cbn [capitalized_after lowercased].
  - reflexivity.
  - rewrite IH. destruct b.
    + now rewrite small_idempotent.
    + now rewrite small_capital.
Qed.

(** Lower-casing after title-casing is lower-casing. *)
Lemma lowercased_capitalized (s : string) : lowercased (capitalized s) = lowercased s.
Proof. apply lowercased_capitalized_after. Qed.

Lemma append_not_empty_r (a b : string) : b <> EmptyString -> (a ++ b) <> EmptyString.
Proof.
  intro H. destruct a as [| c a]; cbn; [exact H | discriminate].
Qed.

Lemma append_empty (a : string) : a ++ EmptyString = a.
Proof. induction a as [| c a IH]; cbn; [reflexivity | now rewrite IH]. Qed.

Lemma append_assoc3 (a b c : string) : (a ++ b) ++ c = a ++ (b ++ c).
Proof. induction a as [| x a IH]; cbn; [reflexivity | now rewrite IH]. Qed.

Lemma concat_cons (x : string) (l : list string) :
  String.concat EmptyString (x :: l) = x ++ String.concat EmptyString l.
Proof.
  destruct l as [| y l]; cbn [String.concat].
  - now rewrite append_empty.
  - reflexivity.
Qed.

Lemma concat_app (l1 l2 : list string) :
  String.concat EmptyString (l1 ++ l2)
  = String.concat EmptyString l1 ++ String.concat EmptyString l2.
Proof.
  induction l1 as [| x l1 IH].
  - reflexivity.
  - cbn [app]. now rewrite !concat_cons, IH, append_assoc3.
Qed.

(** *** Characters *)

Lemma concat_chars (s : string) : String.concat EmptyString (chars s) = s.
Proof.
  induction s as [| c r IH]; [reflexivity |].
  cbn [chars]. destruct (is_ascii_byte c).
  - now rewrite concat_cons, IH.
  - destruct (chars r) as [| [| c' ch] rest] eqn:E.
    + cbn in IH. now rewrite <- IH.
    + rewrite <- IH, !concat_cons. reflexivity.
    + destruct (is_continuation c'); rewrite <- IH, !concat_cons; reflexivity.
Qed.

Lemma continuation_not_ascii (c : ascii) :
  is_continuation c = true -> is_ascii_byte c = false.
Proof. destruct c as [[] [] [] [] [] [] [] []]; vm_compute; congruence. Qed.

Lemma chars_chunked (s : string) : chunked (chars s) = true.
Proof.
  induction s as [| c r IH]; [reflexivity |].
  cbn [chars]. destruct (is_ascii_byte c) eqn:A.
  - cbn [chunked is_char is_ascii_char]. rewrite A, IH.
    destruct (chars r); reflexivity.
  - destruct (chars r) as [| [| c' ch] rest] eqn:E.
    + reflexivity.
    + cbn in IH. discriminate.
    + destruct (is_continuation c') eqn:C.
      * cbn [chunked] in IH |- *.
        apply andb_true_iff in IH as [IH Hrest].
        apply andb_true_iff in IH as [Hch Hnext].
        rewrite Hrest, andb_true_r.
        apply andb_true_iff. split.
        -- cbn [is_char]. rewrite A. cbn [negb andb list_ascii_of_string forallb].
           rewrite C. cbn [andb].
           destruct ch as [| c2 ch']; [reflexivity |].
           cbn [is_char] in Hch. apply andb_true_iff in Hch as [_ Hch]. exact Hch.
        -- destruct rest as [| next rest']; [reflexivity |].
           cbn [is_ascii_char]. cbn [is_ascii_char] in Hnext.
           destruct ch as [| c2 ch'].
           ++ rewrite (continuation_not_ascii c' C) in Hnext. exact Hnext.
           ++ exact Hnext.
      * cbn [chunked]. cbn [chunked] in IH. rewrite IH.
        cbn [is_char is_ascii_char starts_continuation]. rewrite A, C. reflexivity.
Qed.

Lemma chars_cons (c : ascii) (r : string) :
  chars (String c r)
  = if is_ascii_byte c then String c EmptyString :: chars r
    else match chars r with
         | String c' ch :: rest =>
             if is_continuation c'
             then String c (String c' ch) :: rest
             else String c EmptyString :: String c' ch :: rest
         | rest => String c EmptyString :: rest
         end.
Proof. reflexivity. Qed.

Lemma chars_high_run (y : string) (k : string) :
  forall c,
    is_ascii_byte c = false ->
    forallb is_continuation (list_ascii_of_string k) = true ->
    match chars y with
    | next :: _ => starts_continuation next = false
    | [] => True
    end ->
    chars (String c (k ++ y)) = String c k :: chars y.
Proof.
  induction k as [| c1 k IH]; intros c A K Y; cbn [append];
    rewrite (chars_cons c), A.
  - destruct (chars y) as [| [| c' ch] rest]; try reflexivity.
    cbn [starts_continuation] in Y. now rewrite Y.
  - cbn [list_ascii_of_string forallb] in K. apply andb_true_iff in K as [C1 K].
    rewrite (IH c1 (continuation_not_ascii c1 C1) K Y). now rewrite C1.
Qed.

Lemma chunked_concat (l : list string) :
  chunked l = true -> chars (String.concat EmptyString l) = l.
Proof.
  induction l as [| x rest IH]; [reflexivity |].
  cbn [chunked]. intro H.
  apply andb_true_iff in H as [H Hrest]. apply andb_true_iff in H as [Hx Hnext].
  specialize (IH Hrest). rewrite concat_cons.
  assert (Y : is_ascii_char x = false ->
              match chars (String.concat EmptyString rest) with
              | next :: _ => starts_continuation next = false
              | [] => True
              end).
  { intro A. rewrite IH. destruct rest as [| next rest']; [exact I |].
    rewrite A in Hnext. cbn [orb] in Hnext. now apply negb_true_iff in Hnext. }
  destruct x as [| c k]; [discriminate |].
  destruct k as [| c1 k].
  - cbn [append]. rewrite chars_cons. cbn [is_ascii_char] in Y.
    destruct (is_ascii_byte c) eqn:A; [now rewrite IH |].
    specialize (Y eq_refl). rewrite IH in *.
    destruct rest as [| [| c' ch] rest']; try reflexivity.
    cbn [starts_continuation] in Y. now rewrite Y.
  - cbn [is_char] in Hx. apply andb_true_iff in Hx as [A K].
    apply negb_true_iff in A.
    cbn [append]. change (String c1 (k ++ String.concat EmptyString rest))
      with (String c1 k ++ String.concat EmptyString rest).
    rewrite (chars_high_run _ (String c1 k) c A K (Y eq_refl)). now rewrite IH.
Qed.

Lemma chunked_tail (x : string) (l : list string) :
  chunked (x :: l) = true -> chunked l = true.
Proof. cbn [chunked]. intro H. now apply andb_true_iff in H as [_ H]. Qed.

Lemma chunked_firstn (n : nat) (l : list string) :
  chunked l = true -> chunked (firstn n l) = true.
Proof.
  revert l. induction n as [| n IH]; intros l H; [reflexivity |].
  destruct l as [| x rest]; [reflexivity |].
  cbn [firstn]. pose proof (IH rest (chunked_tail _ _ H)) as Hr.
  cbn [chunked] in H |- *. rewrite Hr, andb_true_r.
  apply andb_true_iff in H as [H _]. apply andb_true_iff in H as [Hx Hnext].
  rewrite Hx. cbn [andb].
  destruct n as [| n']; [reflexivity |].
  destruct rest as [| next rest']; [reflexivity | exact Hnext].
Qed.

Lemma chunked_map (f : string -> string) (l : list string) :
  (forall ch, f ch = ch \/ f ch = "_") ->
  chunked l = true -> chunked (map f l) = true.
Proof.
  intro Hf. induction l as [| x rest IH]; intro H; [reflexivity |].
  cbn [map]. pose proof (IH (chunked_tail _ _ H)) as Hr.
  cbn [chunked] in H |- *. rewrite Hr, andb_true_r.
  apply andb_true_iff in H as [H _]. apply andb_true_iff in H as [Hx Hnext].
  destruct (Hf x) as [-> | ->].
  - rewrite Hx. cbn [andb].
    destruct rest as [| next rest']; [reflexivity |]. cbn [map].
    destruct (Hf next) as [-> | ->]; [exact Hnext |].
    cbn [starts_continuation]. apply orb_true_r.
  - cbn [is_char andb].
    destruct (map f rest); reflexivity.
Qed.

Lemma char_cases (ch : string) :
  is_char ch = true -> is_ascii_char ch = true \/ has_high ch = true.
Proof.
  destruct ch as [| c k]; [discriminate |].
  unfold has_high. cbn [list_ascii_of_string existsb is_ascii_char].
  destruct (is_ascii_byte c) eqn:A.
  - destruct k; [now left |]. cbn [is_char]. rewrite A. discriminate.
  - intros _. right. reflexivity.
Qed.

Lemma chunked_chars_in (l : list string) (ch : string) :
  chunked l = true -> In ch l -> is_char ch = true.
Proof.
  induction l as [| x rest IH]; intros H Hin; [destruct Hin |].
  destruct Hin as [<- | Hin].
  - cbn [chunked] in H. apply andb_true_iff in H as [H _].
    now apply andb_true_iff in H as [H _].
  - apply IH; [now apply chunked_tail in H | exact Hin].
Qed.

(** *** Case on ASCII text *)

Lemma has_high_app (a b : string) :
  has_high (a ++ b) = (has_high a || has_high b)%bool.
Proof.
  unfold has_high. induction a as [| c a IH]; [reflexivity |].
  cbn [append list_ascii_of_string existsb]. now rewrite IH, orb_assoc.
Qed.

Lemma chars_ascii (s : string) :
  is_ascii s = true ->
  chars s = map (fun c => String c EmptyString) (list_ascii_of_string s).
Proof.
  unfold is_ascii, has_high.
  induction s as [| c r IH]; [reflexivity |].
  cbn [list_ascii_of_string existsb chars map]. intro H.
  apply negb_true_iff, orb_false_iff in H as [A H].
  apply negb_false_iff in A. rewrite A, IH; [reflexivity |].
  now apply negb_true_iff.
Qed.

Lemma is_ascii_cons (c : ascii) (r : string) :
  is_ascii (String c r) = (is_ascii_byte c && is_ascii r)%bool.
Proof.
  unfold is_ascii, has_high. cbn [list_ascii_of_string existsb].
  now rewrite negb_orb, negb_involutive.
Qed.

Section Case.

Context {U : Unicode}.

Lemma lower_chars_ascii (l : list ascii) :
  forallb is_ascii_byte l = true ->
  forall before,
    String.concat EmptyString
      (lower_chars before (map (fun c => String c EmptyString) l))
    = lowercased (string_of_list_ascii l).
Proof.
  induction l as [| c l IH]; intros H before; [reflexivity |].
  cbn [forallb] in H. apply andb_true_iff in H as [A H].
  cbn [map lower_chars string_of_list_ascii lowercased].
  rewrite concat_cons, (IH H). unfold lower_char. rewrite A.
  now rewrite to_lower_small.
Qed.

Lemma title_chars_ascii (l : list ascii) :
  forallb is_ascii_byte l = true ->
  forall prev before,
    String.concat EmptyString
      (title_chars prev before (map (fun c => String c EmptyString) l))
    = capitalized_after prev (string_of_list_ascii l).
Proof.
  induction l as [| c l IH]; intros H prev before; [reflexivity |].
  cbn [forallb] in H. apply andb_true_iff in H as [A H].
  cbn [map title_chars string_of_list_ascii capitalized_after].
  rewrite concat_cons, (IH H). unfold lower_char, title_char, cased_char.
  rewrite A, is_cased_letter, to_lower_small, to_upper_capital.
  destruct prev; reflexivity.
Qed.

Lemma is_ascii_bytes (s : string) :
  is_ascii s = true -> forallb is_ascii_byte (list_ascii_of_string s) = true.
Proof.
  induction s as [| c r IH]; [reflexivity |].
  rewrite is_ascii_cons. intro H. apply andb_true_iff in H as [A H].
  cbn [list_ascii_of_string forallb]. now rewrite A, IH.
Qed.

(** On ASCII text [str.lower] and [str.title] are what the alphabet says. *)
Lemma lower_ascii (s : string) : is_ascii s = true -> lower s = lowercased s.
Proof.
  intro H. unfold lower. rewrite (chars_ascii s H).
  rewrite (lower_chars_ascii _ (is_ascii_bytes s H)).
  now rewrite string_of_list_ascii_of_string.
Qed.

Lemma title_ascii (s : string) : is_ascii s = true -> title s = capitalized s.
Proof.
  intro H. unfold title. rewrite (chars_ascii s H).
  rewrite (title_chars_ascii _ (is_ascii_bytes s H)).
  now rewrite string_of_list_ascii_of_string.
Qed.

Lemma capitalized_after_ascii (s : string) :
  forall b, is_ascii s = true -> is_ascii (capitalized_after b s) = true.
Proof.
  induction s as [| c r IH]; intros b H; [reflexivity |].
  cbn [capitalized_after]. rewrite is_ascii_cons in *.
  apply andb_true_iff in H as [A H]. rewrite (IH _ H), andb_true_r.
  revert A. destruct b, c as [[] [] [] [] [] [] [] []]; vm_compute; congruence.
Qed.

Lemma lower_title_ascii (s : string) :
  is_ascii s = true -> lower (title s) = lower s.
Proof.
  intro H. rewrite (title_ascii s H), (lower_ascii s H).
  rewrite lower_ascii by now apply capitalized_after_ascii.
  apply lowercased_capitalized.
Qed.

End Case.

(** *** Role names and the characters outside ASCII *)

Lemma plain_app (a b : string) : plain (a ++ b) = (plain a && plain b)%bool.
Proof.
  unfold plain. induction a as [| c a IH]; [reflexivity |].
  cbn [append list_ascii_of_string forallb]. now rewrite IH, andb_assoc.
Qed.

Lemma lowercased_app (a b : string) :
  lowercased (a ++ b) = lowercased a ++ lowercased b.
Proof.
  induction a as [| c a IH]; [reflexivity |].
  cbn [append lowercased]. now rewrite IH.
Qed.

Lemma plain_byte_ascii (c : ascii) :
  (is_lower c && negb (Ascii.eqb c "k"))%bool = true -> is_ascii_byte c = true.
Proof. destruct c as [[] [] [] [] [] [] [] []]; vm_compute; congruence. Qed.

Lemma plain_high (s : string) : has_high s = true -> plain s = false.
Proof.
  unfold has_high, plain. induction s as [| c r IH]; [discriminate |].
  cbn [list_ascii_of_string existsb forallb]. intro H.
  apply orb_true_iff in H as [H | H].
  - apply negb_true_iff in H.
    destruct (is_lower c && negb (Ascii.eqb c "k"))%bool eqn:P; [| reflexivity].
    apply plain_byte_ascii in P. congruence.
  - rewrite (IH H). apply andb_false_r.
Qed.

Lemma small_high (c : ascii) : is_ascii_byte c = false -> small c = c.
Proof. destruct c as [[] [] [] [] [] [] [] []]; vm_compute; congruence. Qed.

Lemma has_high_lowercased (s : string) : has_high (lowercased s) = has_high s.
Proof.
  unfold has_high. induction s as [| c r IH]; [reflexivity |].
  cbn [lowercased list_ascii_of_string existsb]. rewrite IH. f_equal.
  destruct c as [[] [] [] [] [] [] [] []]; reflexivity.
Qed.

Lemma cased_of_plain (c : ascii) (upper : bool) :
  is_ascii_byte c = true ->
  plain (lowercased (String (if upper then to_upper c else to_lower c) EmptyString))
  = true ->
  is_cased c = true.
Proof. destruct upper, c as [[] [] [] [] [] [] [] []]; vm_compute; congruence. Qed.

Lemma high_char (ch : string) :
  is_char ch = true -> is_ascii_char ch = false -> has_high ch = true.
Proof.
  intros H A. destruct (char_cases ch H) as [E | E]; [congruence | exact E].
Qed.

Lemma ascii_char_inv (ch : string) :
  is_ascii_char ch = true ->
  exists c, ch = String c EmptyString /\ is_ascii_byte c = true.
Proof.
  destruct ch as [| c [| c' k]]; try discriminate. intro H. now exists c.
Qed.

Lemma is_ascii_concat (l : list string) :
  forallb is_ascii_char l = true -> is_ascii (String.concat EmptyString l) = true.
Proof.
  induction l as [| x l IH]; [reflexivity |].
  cbn [forallb]. intro H. apply andb_true_iff in H as [Hx Hl].
  rewrite concat_cons. destruct (ascii_char_inv x Hx) as (c & -> & A).
  cbn [append]. rewrite is_ascii_cons, A. now apply IH.
Qed.

Section Roles.

Context {U : Unicode}.
Hypothesis tables : lawful.

Lemma uni_char (ch : string) :
  is_char ch = true -> is_ascii_char ch = false ->
  (forall before after, lower_char before ch after = uni_lower before ch after)
  /\ title_char ch = uni_title ch.
Proof.
  intros H A. unfold lower_char, title_char.
  destruct ch as [| c [| c' k]]; [discriminate | |].
  - cbn [is_ascii_char] in A. rewrite A. now split.
  - now split.
Qed.

Lemma lower_chars_plain (l : list string) :
  forall before,
    (forall ch, In ch l -> is_char ch = true) ->
    plain (String.concat EmptyString (lower_chars before l)) = true ->
    forallb is_ascii_char l = true.
Proof.
  induction l as [| ch rest IH]; intros before Hl H; [reflexivity |].
  cbn [lower_chars] in H. rewrite concat_cons, plain_app in H.
  apply andb_true_iff in H as [Hch Hrest].
  cbn [forallb]. rewrite (IH _ (fun c Hc => Hl c (or_intror Hc)) Hrest), andb_true_r.
  destruct (is_ascii_char ch) eqn:A; [reflexivity | exfalso].
  pose proof (Hl ch (or_introl eq_refl)) as Hc.
  destruct (uni_char ch Hc A) as [E _]. rewrite E in Hch.
  destruct (proj1 tables before ch (String.concat EmptyString rest)
              (high_char ch Hc A)) as [Hh | Hk].
  - rewrite (plain_high _ Hh) in Hch. discriminate.
  - rewrite Hk in Hch. discriminate.
Qed.

(** A text whose lower case is plain is ASCII. *)
Lemma plain_lower_ascii (s : string) :
  plain (lower s) = true -> is_ascii s = true.
Proof.
  intro H. rewrite <- (concat_chars s). apply is_ascii_concat.
  apply (lower_chars_plain (chars s) EmptyString); [| exact H].
  intros ch Hin. exact (chunked_chars_in _ _ (chars_chunked s) Hin).
Qed.

Lemma title_chars_plain (l : list string) :
  forall prev before,
    (forall ch, In ch l -> is_char ch = true) ->
    plain (lowercased (String.concat EmptyString (title_chars prev before l))) = true ->
    (prev = false ->
     starts_like_role
       (lowercased (String.concat EmptyString (title_chars prev before l))) = true) ->
    forallb is_ascii_char l = true.
Proof.
  induction l as [| ch rest IH]; intros prev before Hl H Hstart; [reflexivity |].
  cbn [title_chars] in H, Hstart.
  rewrite concat_cons, lowercased_app in H, Hstart. rewrite plain_app in H.
  apply andb_true_iff in H as [Hch Hrest].
  pose proof (Hl ch (or_introl eq_refl)) as Hc.
  destruct (is_ascii_char ch) eqn:A.
  - cbn [forallb]. rewrite A. cbn [andb].
    destruct (ascii_char_inv ch A) as (c & -> & Ac).
    apply (IH (cased_char (String c EmptyString)) (before ++ String c EmptyString));
      [intros x Hx; apply Hl; now right | exact Hrest |].
    unfold cased_char. rewrite Ac. intro Hcased. exfalso.
    unfold lower_char, title_char in Hch. rewrite Ac in Hch.
    assert (is_cased c = true); [| congruence].
    destruct prev.
    + apply (cased_of_plain c false Ac Hch).
    + apply (cased_of_plain c true Ac Hch).
  - exfalso. destruct (uni_char ch Hc A) as [El Et].
    pose proof (high_char ch Hc A) as Hh.
    destruct prev.
    + rewrite El in Hch.
      destruct (proj1 tables before ch (String.concat EmptyString rest) Hh)
        as [Hi | Hk].
      * rewrite plain_high in Hch; [discriminate |].
        now rewrite has_high_lowercased.
      * rewrite Hk in Hch. discriminate.
    + rewrite Et in Hch, Hstart. specialize (Hstart eq_refl).
      destruct (proj2 tables ch Hh) as [Hi | (c & k & Hk & Hc3)].
      * rewrite plain_high in Hch; [discriminate |].
        now rewrite has_high_lowercased.
      * rewrite Hk in Hstart. cbn [lowercased append starts_like_role] in Hstart.
        destruct Hc3 as [-> | [-> | ->]]; discriminate.
Qed.

(** The test that [normalize_role] makes on the title-cased role is the
    test on the role itself, for a list of role names. *)
Lemma role_test (role : string) (names : list string) :
  forallb (fun name => plain name && starts_like_role name)%bool names = true ->
  str_in (lower (title role)) names = str_in (lower role) names.
Proof.
  intro Hnames.
  assert (Hin : forall x, str_in x names = true ->
                          plain x = true /\ starts_like_role x = true).
  { intros x Hx. unfold str_in in Hx. apply existsb_exists in Hx as (y & Hy & E).
    apply String.eqb_eq in E. subst y.
    rewrite forallb_forall in Hnames. specialize (Hnames x Hy).
    now apply andb_true_iff in Hnames. }
  destruct (is_ascii role) eqn:A; [now rewrite lower_title_ascii |].
  destruct (str_in (lower role) names) eqn:E1.
  { apply Hin in E1 as [P _]. apply plain_lower_ascii in P. congruence. }
  destruct (str_in (lower (title role)) names) eqn:E2; [exfalso | reflexivity].
  apply Hin in E2 as [P S].
  pose proof (plain_lower_ascii _ P) as At.
  rewrite (lower_ascii _ At) in P, S. unfold title in P, S.
  assert (Hall : forallb is_ascii_char (chars role) = true).
  { apply (title_chars_plain (chars role) false EmptyString); [| exact P | now intros _].
    intros ch Hc. exact (chunked_chars_in _ _ (chars_chunked role) Hc). }
  apply is_ascii_concat in Hall. rewrite concat_chars in Hall. congruence.
Qed.

End Roles.

End PyStrProps.

(** ** The Claude conversation ingestor *)

Module ClaudeProps.
Import Base Claude Spec MonadProps BaseProps PyStrProps.

Section Ingestor.

Context {B : Type}.
Context {U : PyStr.Unicode}.
Variable pxt : Pixeltable B.
Variable json_loads : string -> Result value.
Variable json_dumps : value -> string.
Variable str_value : value -> string.
Variable gettempdir : string.
Variable repr_summary : Summary -> string.

(** *** Rendering of messages *)

Lemma normalize_role_spec (role : string) :
  lawful -> normalize_role role = normalized_role role.
Proof.
  intro tables. unfold normalize_role, normalized_role.
  now rewrite !(role_test tables).
Qed.

Lemma format_message_block (m : value) :
  is_message m = true -> format_message str_value m = Ok (block str_value m).
Proof.
  unfold is_message, format_message, block, message_role, message_content,
    dict_get_default.
  destruct m as [| | | | | | d]; try discriminate.
  destruct (dict_get d "role") as [[| | | | role | |] |]; try discriminate;
    intros _; reflexivity.
Qed.

Lemma format_messages_blocks (msgs : list value) :
  forall text_parts,
    forallb is_message msgs = true ->
    format_messages str_value msgs text_parts
    = Ok (text_parts ++ map (block str_value) msgs)%list.
Proof.
  induction msgs as [| m r IH]; intros text_parts H; cbn [format_messages map].
  - now rewrite app_nil_r.
  - cbn [forallb] in H. apply andb_true_iff in H as [Hm Hr].
    rewrite (format_message_block m Hm), (IH _ Hr), <- app_assoc. reflexivity.
Qed.

Lemma format_messages_as_text_run (msgs : list value) :
  forallb is_message msgs = true ->
  _format_messages_as_text str_value (VList msgs) = Ok (rendered str_value msgs).
Proof.
  intro H. unfold _format_messages_as_text, rendered. cbn [iterate].
  rewrite (format_messages_blocks msgs [] H). reflexivity.
Qed.

(** C8: on a list of messages the text is the blocks ["<role>: <content>"]
    in order with a blank line between them, where the role of each message
    is normalized as stated: a role whose lower case is human or user gives
    Human, assistant or claude gives Assistant, any other role is title-cased
    (a missing role counts as unknown). Lower case and title case are those
    of [str.lower] and [str.title]; on ASCII roles they are what the
    alphabet says: a letter that starts the role or follows a character that
    is not a letter is a capital, every other letter is small. For the roles
    outside ASCII the two facts [lawful] of the Unicode tables are used. *)
Theorem messages_render_as_blocks (msgs : list value) :
  lawful ->
  forallb is_message msgs = true ->
  _format_messages_as_text str_value (VList msgs)
  = Ok (String.concat blank_line (map (labelled str_value) msgs))
  /\ (forall role, normalize_role role = normalized_role role)
  /\ (forall role,
        PyStr.is_ascii role = true ->
        PyStr.lower role = lowercased role /\ PyStr.title role = capitalized role).
Proof.
  intros tables H. split; [| split].
  - rewrite (format_messages_as_text_run msgs H). unfold rendered.
    do 2 f_equal. apply map_ext. intro m. unfold block, labelled.
    now rewrite (normalize_role_spec _ tables).
  - intro role. now apply normalize_role_spec.
  - intros role A. split; [now apply lower_ascii | now apply title_ascii].
Qed.

(** *** Parsing of JSON sources *)

Lemma conversation_fields_ok (conv : value) (i : Z) :
  is_conversation conv = true ->
  exists d doc_text title created_at updated_at,
    conversation_fields str_value conv i
    = Ok (d, doc_text, title, created_at, updated_at)
    /\ text_of str_value conv = Some doc_text.
Proof.
  unfold is_conversation, text_of, conversation_fields, dict_has, dict_get_default.
  destruct conv as [| | | | | | d]; try discriminate.
  destruct (dict_get d "messages") as [[| | | | | msgs |] |]; try discriminate;
    intro H.
  - rewrite (format_messages_as_text_run msgs H).
    repeat eexists.
  - repeat eexists.
Qed.

Lemma extract_document_run (conv : value) (source_path : string) (i : Z)
    (w : World B) (d : dict) (doc_text title created_at updated_at : value) :
  conversation_fields str_value conv i
  = Ok (d, doc_text, title, created_at, updated_at) ->
  _extract_conversation_as_document str_value conv source_path i w
  = (Ok (mkDocument doc_text
           (document_metadata d source_path i title created_at updated_at
              (fst (clock w)))
           title),
     snd (clock w)).
Proof.
  intro H. unfold _extract_conversation_as_document, bind, lift_result.
  rewrite H. reflexivity.
Qed.

Lemma indices_shift (i : Z) (n : nat) :
  map (fun k => Some (VInt (i + Z.of_nat k))) (seq 1 n)
  = map (fun k => Some (VInt (i + 1 + Z.of_nat k))) (seq 0 n).
Proof.
  rewrite <- seq_shift, map_map. apply map_ext. intro k.
  do 2 f_equal. lia.
Qed.

Lemma extract_each_run (source_path : string) (convs : list value) :
  forall i conversations (w : World B),
    forallb is_conversation convs = true ->
    exists docs w',
      extract_each str_value convs source_path i conversations w
      = (Ok (conversations ++ docs)%list, w')
      /\ length docs = length convs
      /\ map conversation_index docs
         = map (fun k => Some (VInt (i + Z.of_nat k))) (seq 0 (length convs))
      /\ map (fun doc => Some (document_text doc)) docs
         = map (text_of str_value) convs
      /\ fs w' = fs w.
Proof.
  induction convs as [| conv rest IH]; intros i conversations w H.
  - exists [], w. cbn. rewrite app_nil_r. auto.
  - cbn [forallb] in H. apply andb_true_iff in H as [Hc Hr].
    destruct (conversation_fields_ok conv i Hc)
      as (d & doc_text & title & created_at & updated_at & F & Tx).
    cbn [extract_each].
    rewrite (bind_ok _ _ _ _ _ (extract_document_run conv source_path i w _ _ _ _ _ F)).
    destruct (IH (i + 1) (conversations ++
                [mkDocument doc_text
                   (document_metadata d source_path i title created_at updated_at
                      (fst (clock w))) title])%list (snd (clock w)) Hr)
      as (docs & w' & E & L & I & Tr & Fs).
    eexists (_ :: docs), w'. rewrite E, <- app_assoc.
    split; [reflexivity |]. cbn [length map seq].
    split; [now rewrite L |].
    split.
    + rewrite indices_shift, <- I. unfold conversation_index at 1.
      cbn. now rewrite Z.add_0_r.
    + split; [now rewrite Tr, Tx | exact Fs].
Qed.

Lemma read_text_file (source_path stored : string) (w : World B) :
  fs_lookup (fs w) source_path = Some (NFile stored) ->
  read_text source_path w = (Ok (PyStr.universal_newlines stored), w).
Proof. intro H. unfold read_text. now rewrite H. Qed.

Lemma in_world_run {A} (m : M (World B) A) (e : Env (World B)) :
  in_world m e = (fst (m (world e)), set_world (snd (m (world e))) e).
Proof. unfold in_world, zoom. now destruct (m (world e)). Qed.

(** Reading a source that reads as [content]. *)
Lemma read_source (source_path content : string) (e : Env (World B)) :
  read_text source_path (world e) = (Ok content, world e) ->
  in_world (read_text source_path) e = (Ok content, e).
Proof.
  intro H. rewrite in_world_run, H. cbn. destruct e; reflexivity.
Qed.

(** C9: a JSON source whose content (the text that reading it gives) parses
    to a sequence of N conversation objects yields N records with the
    indices 0..N-1 and the document texts of the objects, in their order; a
    single conversation object yields one record, of index 0; content that
    is not JSON yields no record, and nothing is raised. *)
Theorem parse_json_source (source_path content : string) (e : Env (World B)) :
  read_text source_path (world e) = (Ok content, world e) ->
  PyStr.lower (PyPath.suffix source_path) = ".json" ->
  (forall convs,
      json_loads content = Ok (VList convs) ->
      forallb is_conversation convs = true ->
      exists docs e',
        parse_source json_loads str_value source_path e = (Ok docs, e')
        /\ length docs = length convs
        /\ map conversation_index docs = indices (length convs)
        /\ map (fun doc => Some (document_text doc)) docs
           = map (text_of str_value) convs)
  /\ (forall d,
      json_loads content = Ok (VDict d) ->
      is_conversation (VDict d) = true ->
      exists doc e',
        parse_source json_loads str_value source_path e = (Ok [doc], e')
        /\ conversation_index doc = Some (VInt 0)
        /\ Some (document_text doc) = text_of str_value (VDict d))
  /\ (forall ex,
      json_loads content = Raise ex ->
      exn_class ex = JSONDecodeError ->
      exists e', parse_source json_loads str_value source_path e = (Ok [], e')).
Proof.
  intros Hfile Hsuffix.
  pose proof (read_source _ _ _ Hfile) as Hread.
  unfold parse_source.
  rewrite (bind_ok _ _ _ _ _ Hread), Hsuffix. cbn [String.eqb Ascii.eqb Bool.eqb].
  unfold _parse_json_conversations.
  split; [| split].
  - intros convs J H. rewrite J.
    destruct (extract_each_run source_path convs 0 [] (world e) H)
      as (docs & w' & E & L & I & Tr & _).
    exists docs, (set_world w' e). rewrite in_world_run, E. cbn [fst snd app].
    split; [reflexivity |]. split; [exact L |]. split; [| exact Tr].
    rewrite I. unfold indices. apply map_ext. intro k. reflexivity.
  - intros d J H. rewrite J.
    destruct (conversation_fields_ok (VDict d) 0 H)
      as (d' & doc_text & title & created_at & updated_at & F & Tx).
    unfold bind. rewrite in_world_run.
    rewrite (extract_document_run _ source_path 0 (world e) _ _ _ _ _ F).
    cbn [fst snd ret]. eexists _, _. split; [reflexivity |].
    split; [reflexivity | now rewrite Tx].
  - intros ex J C. rewrite J, C. cbn. eexists. reflexivity.
Qed.

(** *** Validation *)


(** *** What the backend calls leave alone *)

Lemma on_backend_keeps_fs {A} (m : M B A) :
  keeps (fun e : Env (World B) => fs (world e)) (on_backend m).
Proof.
  intro e. unfold on_backend, in_world, in_backend, zoom.
  destruct (m (backend (world e))). reflexivity.
Qed.

Lemma on_backend_keeps_undeletable {A} (m : M B A) :
  keeps (fun e : Env (World B) => undeletable (world e)) (on_backend m).
Proof.
  intro e. unfold on_backend, in_world, in_backend, zoom.
  destruct (m (backend (world e))). reflexivity.
Qed.

Lemma on_backend_keeps_log {A} (m : M B A) :
  keeps (fun e : Env (World B) => log e) (on_backend m).
Proof.
  intro e. unfold on_backend, in_world, in_backend, zoom.
  destruct (m (backend (world e))). reflexivity.
Qed.

Lemma logger_keeps_fs (lvl : LogLevel) (msg : string) :
  keeps (fun e : Env (World B) => fs (world e)) (logger lvl msg).
Proof. intro e. reflexivity. Qed.

Lemma ensure_schema_keeps_fs :
  keeps (fun e : Env (World B) => fs (world e)) (_ensure_pixeltable_schema pxt).
Proof.
  unfold _ensure_pixeltable_schema.
  apply keeps_try_except.
  - apply keeps_bind; [apply on_backend_keeps_fs | intro].
    apply keeps_bind; [apply on_backend_keeps_fs | intro].
    apply keeps_try_except.
    + apply keeps_bind; [apply on_backend_keeps_fs | intro].
      apply keeps_bind; [apply on_backend_keeps_fs | intro].
      apply logger_keeps_fs.
    + intro. apply logger_keeps_fs.
  - intro. apply keeps_bind; [apply logger_keeps_fs | intro; apply keeps_raise].
Qed.

Lemma in_env_keeps_of {A X} (f : Env (World B) -> X) (m : M (Env (World B)) A) :
  keeps f m -> keeps (fun s : St (World B) => f (env s)) (in_env m).
Proof.
  intros H s. unfold in_env, zoom. specialize (H (env s)).
  destruct (m (env s)). exact H.
Qed.

Lemma initialize_backend_keeps_fs :
  keeps (fun s : St (World B) => fs (world (env s)))
        (initialize_backend (in_backend (pxt_import pxt))
           (claude_hooks pxt json_loads json_dumps str_value gettempdir)).
Proof.
  unfold initialize_backend.
  apply keeps_try_except.
  - apply keeps_bind; [| intro].
    { apply (in_env_keeps_of (fun e => fs (world e))).
      apply (on_backend_keeps_fs (pxt_import pxt)). }
    apply keeps_bind; [| intro].
    { apply (in_env_keeps_of (fun e => fs (world e))). intro e. reflexivity. }
    apply keeps_bind; [| intro].
    { unfold call. apply keeps_bind; [apply keeps_modify; reflexivity | intro].
      apply (in_env_keeps_of (fun e => fs (world e))).
      apply ensure_schema_keeps_fs. }
    apply (in_env_keeps_of (fun e => fs (world e))). apply logger_keeps_fs.
  - intro e. destruct (ExnClass_eqb (exn_class e) ImportError);
      (apply keeps_bind; [| intro; apply keeps_raise]);
      apply (in_env_keeps_of (fun e => fs (world e))); apply logger_keeps_fs.
Qed.



(** *** The staged temp file *)

Lemma fs_lookup_write_same (f : FS) (p : string) (n : Node) :
  fs_lookup (fs_write f p n) p = Some n.
Proof. unfold fs_write. cbn. now rewrite String.eqb_refl. Qed.

Lemma fs_lookup_remove_same (f : FS) (p : string) :
  fs_lookup (fs_remove f p) p = None.
Proof.
  unfold fs_remove. induction f as [| [p' n] r IH]; cbn [filter fst].
  - reflexivity.
  - destruct (String.eqb p p') eqn:E; cbn [negb].
    + exact IH.
    + cbn [fs_lookup]. now rewrite E.
Qed.

Lemma create_temp_document_stages (text title : value) (metadata : dict)
    (w w1 : World B) (p : string) :
  _create_temp_document str_value gettempdir text title metadata w = (Ok p, w1) ->
  p <> EmptyString
  /\ (exists content, fs_lookup (fs w1) p = Some (NFile content))
  /\ undeletable w1 = undeletable w.
Proof.
  unfold _create_temp_document.
  destruct title as [| | | | title_s | |]; try discriminate.
  unfold bind at 1. unfold datetime_now at 1, Base.now at 1, clock at 1.
  unfold bind at 1.
  match goal with
  | |- context [mkdir_exist_ok ?a ?b ?w0] =>
      destruct (mkdir_exist_ok a b w0) as [[[] | ex] w2] eqn:Emk;
      [ assert (U2 : undeletable w2 = undeletable w) | discriminate ]
  end.
  { unfold mkdir_exist_ok in Emk. cbn [fs] in Emk.
    repeat match type of Emk with
           | context [match ?x with _ => _ end] => destruct x
           end; inversion Emk; reflexivity. }
  unfold bind at 1.
  match goal with
  | |- context [open_write ?a ?b w2] =>
      destruct (open_write a b w2) as [[[] | ex] w3] eqn:Eow; [| discriminate];
      set (path := a) in *
  end.
  unfold ret. intro H. injection H as <- <-.
  unfold open_write in Eow.
  assert (Hw : exists content,
             w3 = set_fs (fs_write (fs w2) path (NFile content)) w2).
  { destruct (fs_lookup (fs w2) path) as [[] |];
      try discriminate;
      destruct (written _ EmptyString) as [content [ex |]];
      try discriminate; injection Eow as <-; eexists; reflexivity. }
  destruct Hw as [content ->].
  split; [| split].
  - subst path. unfold PyPath.joinpath. apply append_not_empty_r. discriminate.
  - exists content. cbn [fs set_fs]. apply fs_lookup_write_same.
  - exact U2.
Qed.

Lemma transform_record_stages (record : Document) (w w1 : World B) (t : dict) :
  transform_record json_dumps str_value gettempdir record w = (Ok t, w1) ->
  exists p,
    dict_get t "_temp_file_path" = Some (VStr p)
    /\ p <> EmptyString
    /\ (exists content, fs_lookup (fs w1) p = Some (NFile content))
    /\ undeletable w1 = undeletable w.
Proof.
  unfold transform_record, bind.
  destruct (_create_temp_document _ _ _ _ _ w) as [[p | ex] w2] eqn:E;
    [| discriminate].
  destruct (create_temp_document_stages _ _ _ _ _ _ E) as (Hp & [content Hc] & Hu).
  unfold datetime_now, Base.now, clock, ret. intro H. injection H as <- <-.
  exists p. cbn. repeat split; auto. exists content. exact Hc.
Qed.

Lemma insert_record_frame (t : dict) (e : Env (World B)) :
  let e1 := snd (insert_record pxt t e) in
  fs (world e1) = fs (world e)
  /\ undeletable (world e1) = undeletable (world e)
  /\ log e1 = log e.
Proof.
  assert (K : forall X (f : Env (World B) -> X),
             (forall A (m : M B A), keeps f (on_backend m)) ->
             keeps f (insert_record pxt t)).
  { intros X f Hf. unfold insert_record.
    apply keeps_bind; [apply keeps_gets | intros [|]].
    - apply keeps_bind; [apply Hf | intro].
      apply keeps_bind; [apply keeps_gets | intro]. apply Hf.
    - apply keeps_bind; [apply keeps_raise | intro].
      apply keeps_bind; [apply keeps_gets | intro]. apply Hf. }
  cbn zeta. split; [| split].
  - apply (K _ (fun e => fs (world e))). intros; apply on_backend_keeps_fs.
  - apply (K _ (fun e => undeletable (world e))).
    intros; apply on_backend_keeps_undeletable.
  - apply (K _ (fun e => log e)). intros; apply on_backend_keeps_log.
Qed.

Lemma release_temp_file_run (t : dict) (p content : string) (e : Env (World B)) :
  dict_get t "_temp_file_path" = Some (VStr p) ->
  p <> EmptyString ->
  fs_lookup (fs (world e)) p = Some (NFile content) ->
  release_temp_file t e
  = if PyStr.str_in p (undeletable (world e))
    then (Ok tt,
          add_log WARNING
            ("Could not clean up temp file " ++ p ++ ": "
             ++ "[Errno 13] Permission denied: '" ++ p ++ "'") e)
    else (Ok tt, set_world (set_fs (fs_remove (fs (world e)) p) (world e)) e).
Proof.
  intros Hd Hp Hf.
  unfold release_temp_file, dict_get_default. rewrite Hd.
  apply String.eqb_neq in Hp. rewrite Hp.
  assert (Hex : in_world (path_exists p) e = (Ok true, e)).
  { rewrite in_world_run. unfold path_exists. rewrite Hf. cbn.
    destruct e; reflexivity. }
  rewrite (bind_ok _ _ _ _ _ Hex).
  unfold try_except. rewrite in_world_run. unfold unlink. rewrite Hf.
  destruct (PyStr.str_in p (undeletable (world e))); cbn.
  - destruct e; reflexivity.
  - reflexivity.
Qed.

(** C3, as the code has it: the temp file that [transform_record] has staged
    is deleted by the store step once the insert has returned; when the
    insert (or fetching the table) raises, the store step logs the error and
    raises it again, and the temp file is left in place. A failure of the
    deletion itself is logged as a warning and the store step returns. *)
Theorem store_releases_after_insert (record : Document) (w : World B)
    (t : dict) (e : Env (World B)) :
  transform_record json_dumps str_value gettempdir record w = (Ok t, world e) ->
  exists p,
    dict_get t "_temp_file_path" = Some (VStr p)
    /\ fs_exists (fs (world e)) p = true
    /\ match insert_record pxt t e with
       | (Ok _, e1) =>
           exists e2,
             _store_pixeltable pxt t e = (Ok tt, e2)
             /\ if PyStr.str_in p (undeletable (world e))
                then fs_exists (fs (world e2)) p = true
                     /\ exists msg, log e2 = (log e ++ [(WARNING, msg)])%list
                else fs_exists (fs (world e2)) p = false /\ log e2 = log e
       | (Raise ex, e1) =>
           exists e2,
             _store_pixeltable pxt t e = (Raise ex, e2)
             /\ fs (world e2) = fs (world e)
             /\ log e2
                = (log e ++ [(ERROR, "Error storing record in Pixeltable: "
                                     ++ exn_str ex)%string])%list
       end.
Proof.
  intro H.
  destruct (transform_record_stages _ _ _ _ H) as (p & Hd & Hp & [content Hc] & _).
  exists p. split; [exact Hd |].
  split; [unfold fs_exists; now rewrite Hc |].
  pose proof (insert_record_frame t e) as (Ffs & Fun & Flog).
  unfold _store_pixeltable, try_except.
  destruct (insert_record pxt t e) as [[[] | ex] e1] eqn:I; cbn [snd] in *.
  - rewrite (bind_ok _ _ _ _ _ I).
    rewrite <- Ffs in Hc.
    rewrite (release_temp_file_run t p content e1 Hd Hp Hc), Fun.
    destruct (PyStr.str_in p (undeletable (world e))).
    + eexists. split; [reflexivity |]. cbn [add_log world log].
      split.
      * unfold fs_exists. now rewrite Hc.
      * rewrite Flog. eexists. reflexivity.
    + eexists. split; [reflexivity |]. cbn [set_world world set_fs fs log].
      split; [| exact Flog].
      unfold fs_exists. now rewrite fs_lookup_remove_same.
  - rewrite (bind_raise _ _ _ _ _ I).
    eexists. split; [reflexivity |]. cbn. rewrite Ffs, Flog. auto.
Qed.

End Ingestor.

End ClaudeProps.

(** ** The properties on concrete runs *)

Module Scenarios.
Import Base Claude Spec Fixture BaseProps ClaudeProps.

(** *** Batch isolation *)

(** C1: a run over three batches of one record whose second batch raises in
    [_process_batch]. The exception stays inside [ingest], which returns a
    summary with 2 processed and 1 failed record and the status [FAILED];
    the progress record has [processed_items] 2 but [failed_items] 0: the
    handler of the batch adds the batch to the local count only. *)
Theorem failing_batch_is_not_counted_in_progress :
  let out :=
    Base.ingest clock (in_backend (pxt_import backend_ok)) repr_summary
      (failing_batch_class "b") "/data/conversations.json" false false (fresh 1) in
  (exists summary,
      fst out = Ok (Ingested summary)
      /\ total_records summary = 3
      /\ processed_records summary = 2
      /\ failed_records summary = 1)
  /\ progress_counters (snd out) = Some (3, 2, 0, FAILED).
Proof.
  cbv zeta. split.
  - eexists. split; [vm_compute; reflexivity |]. repeat split.
  - vm_compute. reflexivity.
Qed.

Lemma failing_batch_class_frame (bad : string) :
  process_batch_frame (failing_batch_class bad).
Proof.
  intros batch s. unfold failing_batch_class. cbn [process_batch_method].
  destruct batch as [| doc rest]; [apply process_batch_keeps_tracked |].
  destruct (doc_title doc); try apply process_batch_keeps_tracked.
  destruct (String.eqb s0 bad); [reflexivity | apply process_batch_keeps_tracked].
Qed.

(** The accounting theorem on the same run: three batches, the second
    raises, the other two store their record. *)
Example accounting_of_the_failing_batch :
  exists summary s2,
    Base.ingest clock (in_backend (pxt_import backend_ok)) repr_summary
      (failing_batch_class "b") "/data/conversations.json" false false (fresh 1)
    = (Ok (Ingested summary), s2)
    /\ total_records summary = 3
    /\ processed_records summary = 2
    /\ failed_records summary = 1
    /\ option_map processed_items (progress s2) = Some 2
    /\ option_map failed_items (progress s2) = Some 0
    /\ option_map status (progress s2) = Some FAILED.
Proof.
  exact (ingest_accounting clock (in_backend (pxt_import backend_ok)) repr_summary
           (failing_batch_class "b") "/data/conversations.json" false
           (fresh 1) export_parsed export_records [0; 1; 2]
           eq_refl (failing_batch_class_frame "b") eq_refl).
Qed.

(** The same run when no batch raises: the two failure counts agree. *)
Example three_batches_all_stored :
  let out := run_ingest backend_ok "/data/conversations.json" false (fresh 1) in
  progress_counters (snd out) = Some (3, 3, 0, COMPLETED)
  /\ is_ok (fst out) = true.
Proof. cbv zeta. split; vm_compute; reflexivity. Qed.

(** When every record fails on its own, the failures do reach the progress
    record. *)
Example record_failures_are_counted_in_progress :
  progress_counters
    (snd (run_ingest backend_insert_fails "/data/conversations.json" false (fresh 2)))
  = Some (3, 0, 3, FAILED).
Proof. vm_compute. reflexivity. Qed.

(** *** Validate-only runs *)

(** C2, counterexample: a validate-only run on a source that passes
    validation and parsing starts from the status [PENDING] and leaves the
    status [RUNNING]. *)
Lemma validate_only_moves_status_to_running :
  option_map status (progress (fresh 100)) = Some PENDING
  /\ is_ok (fst (run_ingest backend_ok "/data/chat.txt" true (fresh 100))) = true
  /\ option_map status
       (progress (snd (run_ingest backend_ok "/data/chat.txt" true (fresh 100))))
     = Some RUNNING.
Proof. repeat split; vm_compute; reflexivity. Qed.

Lemma validate_only_report_witness :
  exists s2,
    Base.ingest clock (in_backend (pxt_import backend_ok)) repr_summary
      claude_class "/data/chat.txt" false true (fresh 100)
    = (Ok (Validated (mkReport "passed" (len chat_records) (hd_error chat_records))),
       s2)
    /\ calls s2
       = (calls (fresh 100)
          ++ [CallEnsureSchema; CallValidateSource; CallParseSource])%list
    /\ progress s2 = option_map (parsed (len chat_records)) (progress (fresh 100))
    /\ world (env s2) = world (env chat_parsed).
Proof.
  apply (validate_only_report clock (in_backend (pxt_import backend_ok))
           repr_summary claude_class "/data/chat.txt" false
           (fresh 100) chat_parsed chat_records).
  vm_compute. reflexivity.
Defined.

(** *** The fatal path *)

Lemma ingest_reraises_fatal_error_witness :
  exists s2 t,
    Base.ingest clock (in_backend (pxt_import backend_ok)) repr_summary
      claude_class "/data/blank.md" false false (fresh 100)
    = (Raise (Exn ValueError "Source validation failed: File is empty"), s2)
    /\ progress s2
       = option_map
           (failed_with (Exn ValueError "Source validation failed: File is empty") t)
           (progress (fresh 100))
    /\ option_map status (progress s2)
       = option_map (fun _ => FAILED) (progress (fresh 100))
    /\ option_map errors (progress s2)
       = option_map
           (fun p => (errors p
                      ++ [(isoformat t ++ ": "
                           ++ exn_str (Exn ValueError
                                "Source validation failed: File is empty"))%string])%list)
           (progress (fresh 100)).
Proof.
  apply (ingest_reraises_fatal_error clock (in_backend (pxt_import backend_ok))
           repr_summary claude_class "/data/blank.md" false false
           (fresh 100) blank_refused
           (Exn ValueError "Source validation failed: File is empty")).
  vm_compute. reflexivity.
Defined.

(** *** Terminal states *)

(** C5, counterexample: after a run that ended [COMPLETED], [pause] moves
    the status to [PAUSED] and [resume] then moves it to [RUNNING]. *)
Lemma pause_leaves_terminal_state :
  option_map status (progress completed) = Some COMPLETED
  /\ option_map status (progress (snd (pause completed))) = Some PAUSED
  /\ option_map status (progress (snd (Base.resume (snd (pause completed)))))
     = Some RUNNING.
Proof. repeat split; vm_compute; reflexivity. Qed.

(** *** Rejected sources *)


Example wrong_extension_and_blank_file_are_unacceptable :
  unacceptable files "/data/slides.pdf" /\ unacceptable files "/data/blank.md".
Proof.
  split.
  - right; left. split; vm_compute; reflexivity.
  - right; right. eexists. split; vm_compute; reflexivity.
Qed.


(** *** Rendering and parsing *)

Lemma fixture_tables : lawful.
Proof.
  split.
  - intros before ch after H. left. cbn [PyStr.uni_lower unicode].
    destruct (String.eqb ch capital_e_acute);
      [vm_compute; reflexivity | exact H].
  - intros ch H. left. cbn [PyStr.uni_title unicode].
    destruct (String.eqb ch e_acute); [vm_compute; reflexivity | exact H].
Qed.

Lemma messages_render_as_blocks_witness :
  _format_messages_as_text str_value (VList mixed_messages)
  = Ok ("Human: Hi" ++ blank_line ++ "Assistant: Hello" ++ blank_line
        ++ "Tool_Use 2Nd: 7" ++ blank_line
        ++ capital_e_acute ++ "diteur: Bien")
  /\ (forall role, normalize_role role = normalized_role role)
  /\ (forall role,
        PyStr.is_ascii role = true ->
        PyStr.lower role = lowercased role /\ PyStr.title role = capitalized role).
Proof.
  apply (messages_render_as_blocks str_value mixed_messages fixture_tables).
  vm_compute. reflexivity.
Defined.

Example sample_messages_text :
  _format_messages_as_text str_value (VList sample_messages)
  = Ok ("Human: Hi" ++ blank_line ++ "Assistant: Hello" ++ blank_line
        ++ "System: Be brief" ++ blank_line ++ "Unknown: no role").
Proof. vm_compute. reflexivity. Qed.

Example roles_of_the_specification :
  map normalize_role ["human"; "User"; "HUMAN"; "assistant"; "Claude"; "ASSISTANT";
                      "tool_use"; "system"]
  = ["Human"; "Human"; "Human"; "Assistant"; "Assistant"; "Assistant";
     "Tool_Use"; "System"].
Proof. vm_compute. reflexivity. Qed.

Lemma parse_json_source_witness :
  (exists docs e',
      parse_source json_loads str_value "/data/conversations.json" env0 = (Ok docs, e')
      /\ length docs = 3%nat
      /\ map conversation_index docs = indices 3
      /\ map (fun doc => Some (document_text doc)) docs
         = [ Some (VStr ("Human: Hi" ++ blank_line ++ "Assistant: Hello"));
             Some (VStr EmptyString);
             Some (VStr "c") ])
  /\ (exists doc e',
      parse_source json_loads str_value "/data/single.json" env0 = (Ok [doc], e')
      /\ conversation_index doc = Some (VInt 0)
      /\ Some (document_text doc) = text_of str_value one_conversation)
  /\ (exists e',
      parse_source json_loads str_value "/data/broken.json" env0 = (Ok [], e')).
Proof.
  split; [| split].
  - refine (proj1 (parse_json_source json_loads str_value
                     "/data/conversations.json" three_conversations_json env0 _ _)
              conversation_list _ _);
      vm_compute; reflexivity.
  - refine (proj1 (proj2 (parse_json_source json_loads str_value
                            "/data/single.json" one_conversation_json env0 _ _))
              one_conversation_items _ _);
      vm_compute; reflexivity.
  - refine (proj2 (proj2 (parse_json_source json_loads str_value
                            "/data/broken.json" "{not json" env0 _ _))
              (Exn JSONDecodeError "Expecting value: line 1 column 1 (char 0)") _ _);
      vm_compute; reflexivity.
Defined.

(** The end-to-end scenario of a plain-text file: one record, the text of the
    file. *)
Example parse_plain_text :
  match fst (parse_source json_loads str_value "/data/chat.txt" env0) with
  | Ok [doc] => document_text doc = VStr chat_text
  | _ => False
  end.
Proof. vm_compute. reflexivity. Qed.

(** *** The staged temp file *)

(** C3, counterexample: the insert raises; the store step raises too and the
    temp file that [transform_record] staged is still there. *)
Lemma failed_store_leaves_temp_file :
  transform_record json_dumps str_value "/tmp" first_document world0
  = (Ok staged_record, staged_world)
  /\ dict_get staged_record "_temp_file_path" = Some (VStr staged_path)
  /\ fst (_store_pixeltable backend_insert_fails staged_record
            (mkEnv true [] staged_world))
     = Raise (Exn RuntimeError "insert failed")
  /\ fs_exists
       (fs (world (snd (_store_pixeltable backend_insert_fails staged_record
                          (mkEnv true [] staged_world)))))
       staged_path = true.
Proof. repeat split; vm_compute; reflexivity. Qed.

Lemma store_releases_after_insert_witness :
  exists p,
    dict_get staged_record "_temp_file_path" = Some (VStr p)
    /\ fs_exists (fs (world (mkEnv true [] staged_world))) p = true
    /\ match insert_record backend_ok staged_record (mkEnv true [] staged_world) with
       | (Ok _, e1) =>
           exists e2,
             _store_pixeltable backend_ok staged_record (mkEnv true [] staged_world)
             = (Ok tt, e2)
             /\ if PyStr.str_in p (undeletable (world (mkEnv true [] staged_world)))
                then fs_exists (fs (world e2)) p = true
                     /\ exists msg,
                         log e2 = (log (mkEnv true [] staged_world)
                                   ++ [(WARNING, msg)])%list
                else fs_exists (fs (world e2)) p = false
                     /\ log e2 = log (mkEnv true [] staged_world)
       | (Raise ex, e1) =>
           exists e2,
             _store_pixeltable backend_ok staged_record (mkEnv true [] staged_world)
             = (Raise ex, e2)
             /\ fs (world e2) = fs (world (mkEnv true [] staged_world))
             /\ log e2
                = (log (mkEnv true [] staged_world)
                   ++ [(ERROR, "Error storing record in Pixeltable: "
                               ++ exn_str ex)%string])%list
       end.
Proof.
  apply (store_releases_after_insert backend_ok json_dumps str_value "/tmp"
           first_document world0 staged_record (mkEnv true [] staged_world)).
  vm_compute. reflexivity.
Defined.

(** The three outcomes of the store step on the staged record. *)
Example store_outcomes :
  let stored := _store_pixeltable backend_ok staged_record (mkEnv true [] staged_world) in
  let locked :=
    _store_pixeltable backend_ok staged_record (mkEnv true [] staged_world_locked) in
  (fst stored = Ok tt
   /\ fs_exists (fs (world (snd stored))) staged_path = false
   /\ log (snd stored) = [])
  /\ (fst locked = Ok tt
      /\ fs_exists (fs (world (snd locked))) staged_path = true
      /\ map fst (log (snd locked)) = [WARNING]).
Proof. cbv zeta. repeat split; vm_compute; reflexivity. Qed.

(** *** Counting in a batch *)

Example batch_counts :
  fst (_process_batch clock
         (claude_hooks backend_insert_fails json_loads json_dumps str_value "/tmp")
         chat_records chat_parsed) = Ok (0, 1)
  /\ fst (_process_batch clock
            (claude_hooks backend_ok json_loads json_dumps str_value "/tmp")
            chat_records chat_parsed) = Ok (1, 0).
Proof. split; vm_compute; reflexivity. Qed.

End Scenarios.

(* ===================================================================== *)
(** ** The batch loop *)
(* ===================================================================== *)

Module BatchingProps.
Import Base Spec Laws MonadProps BaseProps.

(** ** The batches of a run *)

Lemma firstn_plus {A} (a b : nat) (l : list A) :
  firstn (a + b) l = (firstn a l ++ firstn b (skipn a l))%list.
Proof.
  revert l. induction a as [| a IH]; intro l; cbn.
  - reflexivity.
  - destruct l as [| x l]; cbn.
    + now rewrite firstn_nil.
    + now rewrite IH.
Qed.

Lemma chunks_concat {A} (b m : nat) (l : list A) :
  concat (map (fun k => firstn b (skipn (k * b) l)) (seq 0 m)) = firstn (m * b) l.
Proof.
  induction m as [| m IH].
  - reflexivity.
  - rewrite seq_S, map_app, concat_app, IH. cbn [map concat Nat.add].
    rewrite app_nil_r.
    replace (S m * b)%nat with (m * b + b)%nat by lia.
    now rewrite firstn_plus.
Qed.

Lemma range_positive_step (n bs : Z) :
  0 < bs ->
  py_range 0 n bs
  = Ok (map (fun k => Z.of_nat k * bs) (seq 0 (Z.to_nat ((n + bs - 1) / bs)))).
Proof.
  intro H. unfold py_range.
  destruct (bs =? 0) eqn:E0; [apply Z.eqb_eq in E0; lia |].
  destruct (0 <? bs) eqn:E1; [| apply Z.ltb_ge in E1; lia].
  replace (n - 0 + bs - 1) with (n + bs - 1) by lia.
  f_equal.
Qed.

Lemma range_negative_step (n bs : Z) :
  0 <= n -> bs < 0 -> py_range 0 n bs = Ok [].
Proof.
  intros Hn H. unfold py_range.
  destruct (bs =? 0) eqn:E0; [apply Z.eqb_eq in E0; lia |].
  destruct (0 <? bs) eqn:E1; [apply Z.ltb_lt in E1; lia |].
  assert (Hq : (0 - n - bs - 1) / - bs <= 0).
  { apply Z.lt_succ_r. apply Z.div_lt_upper_bound; lia. }
  destruct ((0 - n - bs - 1) / - bs) eqn:Eq; try lia; reflexivity.
Qed.

Lemma slice_as_chunk {A} (l : list A) (k b : nat) :
  slice l (Z.of_nat k * Z.of_nat b) (Z.of_nat k * Z.of_nat b + Z.of_nat b)
  = firstn b (skipn (k * b) l).
Proof.
  unfold slice. f_equal.
  - lia.
  - f_equal. lia.
Qed.

Lemma batches_as_chunks {A} (bs : Z) (records : list A) :
  0 < bs ->
  batches_of bs records
  = map (fun k => firstn (Z.to_nat bs) (skipn (k * Z.to_nat bs) records))
        (seq 0 (Z.to_nat ((len records + bs - 1) / bs))).
Proof.
  intro H. unfold batches_of. rewrite (range_positive_step _ _ H), map_map.
  apply map_ext. intro k.
  rewrite <- (Z2Nat.id bs) at 1 2 3 by lia.
  apply slice_as_chunk.
Qed.

Lemma chunk_bounds (n bs : Z) :
  0 <= n -> 0 < bs ->
  0 <= (n + bs - 1) / bs
  /\ bs * ((n + bs - 1) / bs) <= n + bs - 1 < bs * ((n + bs - 1) / bs) + bs.
Proof.
  intros Hn H.
  pose proof (Z.mul_div_le (n + bs - 1) bs H).
  pose proof (Z.mul_succ_div_gt (n + bs - 1) bs H).
  split; [apply Z.div_pos; lia | lia].
Qed.

Lemma batches_concat {A} (bs : Z) (records : list A) :
  0 < bs -> concat (batches_of bs records) = records.
Proof.
  intro H. rewrite (batches_as_chunks bs records H).
  destruct (chunk_bounds (len records) bs) as [Hq Hdiv]; [unfold len; lia | exact H |].
  rewrite chunks_concat. apply firstn_all2.
  unfold len in *. nia.
Qed.

(** X1: with a positive batch size, the batches of [ingest] are the records
    cut in order: their concatenation is the record list, no batch is empty
    and none is longer than the batch size. *)
Theorem batches_partition_records {A} (bs : Z) (records : list A) :
  0 < bs ->
  concat (batches_of bs records) = records
  /\ Forall (fun batch => 0 < len batch <= bs) (batches_of bs records).
Proof.
  intro H. split; [now apply batches_concat |].
  rewrite (batches_as_chunks bs records H).
  destruct (chunk_bounds (len records) bs) as [Hq Hdiv]; [unfold len; lia | exact H |].
  apply Forall_forall. intros batch Hin.
  apply in_map_iff in Hin as (k & <- & Hk). apply in_seq in Hk.
  unfold len. rewrite length_firstn, length_skipn.
  assert (Hlt : (k * Z.to_nat bs < length records)%nat).
  { unfold len in *. nia. }
  lia.
Qed.

Section Runs.

Context {W R T : Type}.
Variable clock : W -> datetime * W.
Variable import_pixeltable : M W unit.
Variable repr_summary : Summary -> string.

Lemma count_nonneg (b : bool) (l : list bool) : 0 <= count b l.
Proof. unfold count, len. lia. Qed.

Lemma inherited_batch_counted (h : Hooks W R T) (batch : list R) (s : St W) :
  counted (batch, fst (_process_batch clock h batch s)).
Proof.
  destruct (for_each_process_record clock h batch 0 0 s) as [s' E].
  unfold _process_batch. rewrite E. cbn [fst snd].
  eexists _, _. split; [reflexivity |]. rewrite !Z.add_0_l.
  split; [| split; apply count_nonneg].
  rewrite count_true_false. unfold len. now rewrite outcomes_length.
Qed.

Lemma inherited_log (h : Hooks W R T) (records : list R) (starts : list Z) :
  forall acc s,
    let log := batch_log clock (subclass clock h) records starts acc s in
    Forall counted log
    /\ map fst log = map (fun i => slice records i (i + batch_size s)) starts.
Proof.
  induction starts as [| i rest IH]; intros acc s; cbn zeta.
  - split; [constructor | reflexivity].
  - cbn [batch_log].
    destruct (batch_turn_accounting clock (subclass clock h) records i acc s
                (subclass_frame clock h)) as (s1 & E & B1 & _).
    rewrite E.
    match type of E with
    | _ = (Ok ?a, _) => destruct (IH a s1) as [F M]
    end.
    split.
    + constructor; [| exact F]. apply inherited_batch_counted.
    + cbn [map fst]. rewrite M, B1. reflexivity.
Qed.

Lemma sum_counts_counted (l : list (list R * Result (Z * Z))) :
  Forall counted l ->
  sum_counts progress_counts l = sum_counts summary_counts l
  /\ fst (sum_counts summary_counts l) + snd (sum_counts summary_counts l)
     = len (concat (map fst l))
  /\ 0 <= fst (sum_counts summary_counts l)
  /\ 0 <= snd (sum_counts summary_counts l).
Proof.
  induction 1 as [| [batch r] l (p & f & Hr & Hsum & Hp & Hf) Hl (IH1 & IH2 & IH3 & IH4)].
  - cbn. repeat split; lia.
  - rewrite !sum_counts_cons, IH1. cbn [fst snd] in *. subst r.
    cbn [summary_counts progress_counts fst snd map concat].
    unfold len in *. rewrite length_app.
    repeat split; lia.
Qed.

(** X2: a full run of a class that inherits [_process_batch], with a positive
    batch size, once the first three steps have succeeded: [ingest] returns
    a summary in which every parsed record is counted once, as processed or
    as failed; the progress record takes the same two counts, so its
    [failed_items] agrees with [failed_records]; and the run ends
    [COMPLETED] exactly when no record failed. *)
Theorem inherited_run_counts_every_record (h : Hooks W R T)
    (source_path : string) (resume : bool) (s s1 : St W) (records : list R) :
  prepare import_pixeltable (subclass clock h) source_path s = (Ok records, s1) ->
  0 < batch_size s1 ->
  exists summary s2,
    ingest clock import_pixeltable repr_summary (subclass clock h)
      source_path resume false s = (Ok (Ingested summary), s2)
    /\ total_records summary = len records
    /\ processed_records summary + failed_records summary = len records
    /\ 0 <= processed_records summary
    /\ 0 <= failed_records summary
    /\ option_map processed_items (progress s2)
       = option_map (fun p => processed_items p + processed_records summary)
                    (progress s)
    /\ option_map failed_items (progress s2)
       = option_map (fun p => failed_items p + failed_records summary) (progress s)
    /\ option_map status (progress s2)
       = option_map (fun _ => if failed_records summary =? 0
                              then COMPLETED else FAILED) (progress s).
Proof.
  intros Hprep Hbs.
  pose proof (range_positive_step (len records) (batch_size s1) Hbs) as Hrange.
  destruct (ingest_accounting clock import_pixeltable repr_summary
              (subclass clock h) source_path resume s s1 records _ Hprep
              (subclass_frame clock h) Hrange)
    as (summary & s2 & E & Ht & Hp & Hf & Pp & Pf & Ps).
  match type of Hp with
  | _ = fst (sum_counts _ ?l) => set (log := l) in *
  end.
  destruct (inherited_log h records
              (map (fun k => Z.of_nat k * batch_size s1)
                   (seq 0 (Z.to_nat ((len records + batch_size s1 - 1) / batch_size s1))))
              (0, 0) (loop_start records s1)) as [Fc Fm].
  fold log in Fc, Fm.
  destruct (sum_counts_counted log Fc) as (Eq & Hsum & H0p & H0f).
  rewrite Eq in Pp, Pf.
  assert (Hcat : concat (map fst log) = records).
  { rewrite Fm.
    destruct (loop_start_tracks records s1) as [-> _].
    pose proof (batches_concat (batch_size s1) records Hbs) as C.
    unfold batches_of in C. rewrite Hrange in C. exact C. }
  rewrite Hcat in Hsum.
  exists summary, s2. rewrite Hp, Hf.
  repeat split; auto.
Qed.

End Runs.

End BatchingProps.

Module EdgeProps.
Import Base Spec Laws MonadProps BaseProps BatchingProps.

Section Runs.

Context {W R T : Type}.
Variable clock : W -> datetime * W.
Variable import_pixeltable : M W unit.
Variable repr_summary : Summary -> string.

(** *** Batch sizes that are not positive *)

Lemma loop_start_calls (records : list R) (s : St W) :
  calls (loop_start records s) = calls s
  /\ progress (loop_start records s) = option_map (parsed (len records)) (progress s).
Proof. split; reflexivity. Qed.

(** X3: with batch size 0 the run is fatal even when the source validates and
    parses: [range] refuses the step, [ingest] raises a [ValueError], the
    status becomes [FAILED], and no record is transformed or stored. *)
Theorem zero_batch_size_is_fatal (c : Class) (source_path : string)
    (resume : bool) (s s1 : St W) (records : list R) :
  prepare (T:=T) import_pixeltable c source_path s = (Ok records, s1) ->
  batch_size s1 = 0 ->
  exists s2,
    ingest clock import_pixeltable repr_summary c source_path resume false s
    = (Raise (Exn ValueError "range() arg 3 must not be zero"), s2)
    /\ option_map status (progress s2) = option_map (fun _ => FAILED) (progress s)
    /\ calls s2
       = (calls s ++ [CallEnsureSchema; CallValidateSource; CallParseSource])%list.
Proof.
  intros Hprep Hbs.
  pose proof (prepare_keeps_progress import_pixeltable c source_path s) as K.
  rewrite Hprep in K. cbn [snd] in K.
  pose proof (prepare_calls_ok import_pixeltable c source_path s s1 records Hprep) as C.
  destruct (loop_start_calls records s1) as [C0 P0].
  destruct (ingest_handler_run (R:=R) clock
              (Exn ValueError "range() arg 3 must not be zero")
              (loop_start records s1)) as (s2 & E & P & C2).
  exists s2. split; [| split].
  - unfold ingest, try_except, ingest_body.
    rewrite (bind_ok _ _ _ _ _ Hprep), loop_start_run.
    unfold bind at 1. unfold run_batches.
    rewrite (bind_ok (gets batch_size) _ (loop_start records s1)
               (batch_size (loop_start records s1)) (loop_start records s1) eq_refl).
    change (batch_size (loop_start records s1)) with (batch_size s1).
    rewrite Hbs. cbn [py_range Z.eqb]. unfold bind at 1. cbn [lift_result].
    exact E.
  - rewrite P, P0, K. destruct (progress s); reflexivity.
  - now rewrite C2, C0, C.
Qed.

(** X4: with a negative batch size the loop has no turn: [ingest] transforms
    and stores nothing, yet returns a summary with 0 processed and 0 failed
    records for all the records parsed, and the run ends [COMPLETED]. *)
Theorem negative_batch_size_stores_nothing (c : Class) (source_path : string)
    (resume : bool) (s s1 : St W) (records : list R) :
  prepare (T:=T) import_pixeltable c source_path s = (Ok records, s1) ->
  batch_size s1 < 0 ->
  exists summary s2,
    ingest clock import_pixeltable repr_summary c source_path resume false s
    = (Ok (Ingested summary), s2)
    /\ total_records summary = len records
    /\ processed_records summary = 0
    /\ failed_records summary = 0
    /\ option_map status (progress s2) = option_map (fun _ => COMPLETED) (progress s)
    /\ calls s2
       = (calls s ++ [CallEnsureSchema; CallValidateSource; CallParseSource])%list.
Proof.
  intros Hprep Hbs.
  pose proof (prepare_keeps_progress import_pixeltable c source_path s) as K.
  rewrite Hprep in K. cbn [snd] in K.
  pose proof (prepare_calls_ok import_pixeltable c source_path s s1 records Hprep) as C.
  assert (Hrange : py_range 0 (len records) (batch_size s1) = Ok [])
    by (apply range_negative_step; [unfold len; lia | exact Hbs]).
  unfold ingest, try_except, ingest_body.
  rewrite (bind_ok _ _ _ _ _ Hprep), loop_start_run.
  unfold bind at 1. unfold run_batches.
  rewrite (bind_ok (gets batch_size) _ (loop_start records s1)
             (batch_size (loop_start records s1)) (loop_start records s1) eq_refl).
  change (batch_size (loop_start records s1)) with (batch_size s1).
  assert (Hr : @lift_result (St W) _ (py_range 0 (len records) (batch_size s1))
                 (loop_start records s1) = (Ok [], loop_start records s1))
    by (unfold lift_result; now rewrite Hrange).
  rewrite (bind_ok _ _ _ _ _ Hr).
  cbn [for_each]. unfold bind at 1. cbn [ret].
  cbv [bind modify with_progress ret gets set_progress].
  cbn [fst snd progress Z.ltb Z.compare Z.eqb].
  destruct (loop_start_calls records s1) as [C0 P0]. rewrite P0, K.
  destruct (progress s) as [p |]; cbn [option_map].
  - destruct (to_dict_returns (set_status COMPLETED (parsed (len records) p)))
      as (d & D & _).
    unfold lift_result. rewrite D.
    cbv [in_env zoom logger modify set_env add_log].
    eexists _, _. split; [reflexivity |].
    cbn [total_records processed_records failed_records progress option_map calls].
    rewrite C0, C. repeat split.
  - cbv [in_env zoom logger modify set_env add_log lift_result].
    eexists _, _. split; [reflexivity |].
    cbn [total_records processed_records failed_records progress option_map calls].
    rewrite C0, C. repeat split.
Qed.

(** *** What [_process_batch] does besides counting *)

(** The state after a whole batch. *)
Lemma process_batch_state (h : Hooks W R T) (batch : list R) :
  forall acc s,
    snd (for_each batch (process_record clock h) acc s)
    = fold_left (fun s' record => after_record clock h record s') batch s.
Proof.
  induction batch as [| r rest IH]; intros [processed failed] s; cbn [for_each fold_left].
  - reflexivity.
  - rewrite (bind_ok _ _ _ _ _ (process_record_run clock h r processed failed s)).
    apply IH.
Qed.

Lemma after_record_effects (h : Hooks W R T) (r : R) (s : St W) :
  (exists extra,
      calls (after_record clock h r s) = (calls s ++ extra)%list
      /\ (extra = [CallTransformRecord]
          \/ extra = [CallTransformRecord; CallStorePixeltable])
      /\ (record_succeeds h r s = true ->
          extra = [CallTransformRecord; CallStorePixeltable]))
  /\ error_count (after_record clock h r s)
     = option_map (fun n => n + (if record_succeeds h r s then 0 else 1))
                  (error_count s).
Proof.
  unfold after_record, record_succeeds, error_count, process_record,
    transform_and_store, try_except.
  cbv [bind call modify in_env zoom add_call set_env ret logger add_log
       with_progress_at with_progress gets in_world now set_world set_progress].
  cbn [fst snd env calls progress world].
  destruct (transform_record h r (env s)) as [[t | e] e1]; cbn [fst snd env calls progress].
  - destruct (_store_pixeltable h t e1) as [[[] | e] e2];
      cbn [fst snd env calls progress is_ok].
    + split.
      * exists [CallTransformRecord; CallStorePixeltable].
        rewrite <- app_assoc. auto.
      * destruct (progress s); cbn; [now rewrite Z.add_0_r | reflexivity].
    + split.
      * exists [CallTransformRecord; CallStorePixeltable].
        destruct (progress s); cbn; [destruct (clock _) |];
          cbn; rewrite <- app_assoc; auto.
      * destruct (progress s) as [p |]; cbn; [| reflexivity].
        destruct (clock _). cbn. unfold len. rewrite length_app. cbn. f_equal. lia.
  - split.
    + exists [CallTransformRecord].
      destruct (progress s); cbn; [destruct (clock _) |]; cbn;
        (split; [reflexivity | split; [auto | discriminate]]).
    + destruct (progress s) as [p |]; cbn; [| reflexivity].
      destruct (clock _). cbn. unfold len. rewrite length_app. cbn. f_equal. lia.
Qed.

Lemma count_call_app (c : Call) (l1 l2 : list Call) :
  count_call c (l1 ++ l2) = count_call c l1 + count_call c l2.
Proof. unfold count_call, len. rewrite filter_app, length_app. lia. Qed.

(** X5: [_process_batch] calls [transform_record] exactly once for every
    record of the batch, the store at most once per record and at least once
    for every record counted as processed, and no other hook. *)
Theorem process_batch_hook_calls (h : Hooks W R T) (batch : list R) (s : St W) :
  exists extra,
    calls (snd (_process_batch clock h batch s)) = (calls s ++ extra)%list
    /\ count_call CallTransformRecord extra = len batch
    /\ count (true) (outcomes clock h batch s)
       <= count_call CallStorePixeltable extra <= len batch
    /\ Forall (fun c => c = CallTransformRecord \/ c = CallStorePixeltable) extra.
Proof.
  unfold _process_batch. rewrite process_batch_state.
  revert s. induction batch as [| r rest IH]; intro s; cbn [fold_left outcomes].
  - exists []. rewrite app_nil_r. cbn. repeat split; try lia. constructor.
  - destruct (after_record_effects h r s) as [(e1 & C1 & Hshape & Hok) _].
    destruct (IH (after_record clock h r s)) as (e2 & C2 & Ht & Hs & Ha).
    exists (e1 ++ e2)%list. rewrite C2, C1, <- app_assoc.
    split; [reflexivity |].
    rewrite !count_call_app, count_cons.
    assert (L : len (r :: rest) = 1 + len rest) by (unfold len; cbn [length]; lia).
    rewrite L.
    destruct (record_succeeds h r s) eqn:Ok1.
    + rewrite (Hok eq_refl). cbn [Bool.eqb].
      change (count_call CallTransformRecord [CallTransformRecord; CallStorePixeltable])
        with 1.
      change (count_call CallStorePixeltable [CallTransformRecord; CallStorePixeltable])
        with 1.
      split; [lia |]. split; [lia |].
      apply Forall_app; split;
        [repeat (apply Forall_cons; [auto |]); apply Forall_nil | exact Ha].
    + cbn [Bool.eqb].
      destruct Hshape as [-> | ->].
      * change (count_call CallTransformRecord [CallTransformRecord]) with 1.
        change (count_call CallStorePixeltable [CallTransformRecord]) with 0.
        split; [lia |]. split; [lia |]. apply Forall_app; split;
        [repeat (apply Forall_cons; [auto |]); apply Forall_nil | exact Ha].
      * change (count_call CallTransformRecord [CallTransformRecord; CallStorePixeltable])
          with 1.
        change (count_call CallStorePixeltable [CallTransformRecord; CallStorePixeltable])
          with 1.
        split; [lia |]. split; [lia |]. apply Forall_app; split;
        [repeat (apply Forall_cons; [auto |]); apply Forall_nil | exact Ha].
Qed.

(** X6: every record that [_process_batch] counts as failed leaves exactly
    one message in the error log of the progress record, and the records
    counted as processed leave none: the log grows by the failed count that
    is returned. *)
Theorem process_batch_logs_each_failure (h : Hooks W R T) (batch : list R)
    (s : St W) :
  exists processed failed,
    fst (_process_batch clock h batch s) = Ok (processed, failed)
    /\ error_count (snd (_process_batch clock h batch s))
       = option_map (fun n => n + failed) (error_count s).
Proof.
  destruct (for_each_process_record clock h batch 0 0 s) as [s' E].
  exists (0 + count true (outcomes clock h batch s)),
         (0 + count false (outcomes clock h batch s)).
  split; [unfold _process_batch; now rewrite E |].
  clear s' E. rewrite Z.add_0_l.
  unfold _process_batch. rewrite process_batch_state.
  revert s. induction batch as [| r rest IH]; intro s; cbn [fold_left outcomes].
  - cbn. destruct (error_count s); cbn; [now rewrite Z.add_0_r | reflexivity].
  - destruct (after_record_effects h r s) as [_ E1].
    rewrite IH, E1, count_cons.
    destruct (error_count s); cbn [option_map]; [| reflexivity].
    destruct (record_succeeds h r s); cbn [Bool.eqb]; f_equal; lia.
Qed.

(** *** A backend that cannot be imported *)

(** X7: when importing Pixeltable raises, [ingest] raises the same exception
    before it has looked at the source: no hook is called, not even the
    validation, so a wrong path is not reported; the client stays unset, the
    status becomes [FAILED], and the failure is logged twice, by
    [initialize_backend] and by [ingest]. *)
Theorem import_failure_precedes_validation (c : Class) (source_path : string)
    (resume validate_only : bool) (s : St W) (e : exn) (w' : W) :
  import_pixeltable (world (env s)) = (Raise e, w') ->
  exists s2,
    ingest (R:=R) (T:=T) clock import_pixeltable repr_summary c source_path
      resume validate_only s = (Raise e, s2)
    /\ calls s2 = calls s
    /\ pixeltable_client (env s2) = pixeltable_client (env s)
    /\ option_map status (progress s2) = option_map (fun _ => FAILED) (progress s)
    /\ log (env s2)
       = (log (env s)
          ++ [ (INFO, ("Starting ingestion of " ++ source_path)%string);
               (ERROR,
                if ExnClass_eqb (exn_class e) ImportError
                then "Pixeltable not available - install with: pip install pixeltable"
                else ("Pixeltable initialization failed: " ++ exn_str e)%string);
               (ERROR, ("Ingestion failed: " ++ exn_str e)%string) ])%list.
Proof.
  intro H.
  cbv [ingest ingest_body prepare initialize_backend try_except bind in_env
       in_world zoom logger modify raise with_progress with_progress_at gets ret
       now call].
  cbn [env world set_env set_world add_log]. rewrite H.
  cbn [env world set_env set_world add_log set_progress progress calls log
       pixeltable_client fst snd].
  destruct (ExnClass_eqb (exn_class e) ImportError);
    cbn [env world set_env set_world add_log set_progress progress calls log
         pixeltable_client fst snd];
    destruct (progress s) as [p |];
    cbn [env world set_env set_world add_log set_progress progress calls log
         pixeltable_client fst snd option_map];
    try (destruct (clock w') as [t w2]);
    cbn [env world set_env set_world add_log set_progress progress calls log
         pixeltable_client fst snd option_map];
    (eexists; split; [reflexivity |]);
    cbn [env world set_env set_world add_log set_progress progress calls log
         pixeltable_client fst snd option_map];
    rewrite <- ?app_assoc; repeat split; reflexivity.
Qed.

End Runs.

End EdgeProps.

(* ===================================================================== *)
(** ** The progress record, further *)
(* ===================================================================== *)

Module ProgressLaws.
Import Base Spec Laws MonadProps BaseProps.

(** ** The progress record: error view and metadata *)

Lemma last_n_suffix {A} (n : nat) (l : list A) :
  exists older, l = (older ++ last_n n l)%list.
Proof.
  exists (firstn (length l - n) l). unfold last_n. now rewrite firstn_skipn.
Qed.

Lemma last_n_length {A} (n : nat) (l : list A) :
  length (last_n n l) = Nat.min n (length l).
Proof. unfold last_n. rewrite length_skipn. lia. Qed.

Lemma last_n_snoc {A} (n : nat) (l : list A) (x d : A) :
  last (last_n (S n) (l ++ [x])) d = x.
Proof.
  unfold last_n. rewrite length_app. cbn [length].
  rewrite skipn_app.
  replace (length l + 1 - S n - length l)%nat with 0%nat by lia.
  cbn [skipn]. apply last_last.
Qed.

(** X8: when [to_dict] returns, its [error_count] is the length of the whole
    error log while [recent_errors] holds the last min(5, n) messages of the
    log, in their order; and when it returns after [add_error], the count has
    grown by one and the message just appended, with its time stamp, is the
    last of [recent_errors]. *)
Theorem to_dict_error_view (p : IngestorProgress) (msg : string) (t : datetime)
    (d d' : ProgressDict) :
  to_dict p = Ok d ->
  to_dict (add_error msg t p) = Ok d' ->
  d_error_count d = len (errors p)
  /\ (exists older, errors p = (older ++ d_recent_errors d)%list)
  /\ len (d_recent_errors d) = Z.min 5 (len (errors p))
  /\ d_error_count d' = len (errors p) + 1
  /\ last (d_recent_errors d') EmptyString = stamped t msg.
Proof.
  unfold to_dict. intros H H'.
  destruct (completion_percentage p) as [cp |]; [| discriminate].
  destruct (success_rate p) as [sr |]; [| discriminate].
  destruct (completion_percentage (add_error msg t p)) as [cp' |]; [| discriminate].
  destruct (success_rate (add_error msg t p)) as [sr' |]; [| discriminate].
  injection H as <-. injection H' as <-.
  cbn [d_error_count d_recent_errors add_error errors].
  split; [reflexivity |]. split; [apply last_n_suffix |].
  split; [unfold len; rewrite last_n_length; lia |].
  split.
  - unfold len. rewrite length_app. cbn. lia.
  - apply (last_n_snoc 4).
Qed.

Lemma dict_get_set (d : dict) (k k' : string) (v : value) :
  dict_get (dict_set d k v) k'
  = if String.eqb k' k then Some v else dict_get d k'.
Proof.
  induction d as [| [k0 v0] r IH]; cbn [dict_set dict_get].
  - reflexivity.
  - destruct (String.eqb k k0) eqn:E; cbn [dict_get].
    + apply String.eqb_eq in E. subst k0.
      destruct (String.eqb k' k); reflexivity.
    + rewrite IH. destruct (String.eqb k' k0) eqn:E0; [| reflexivity].
      apply String.eqb_eq in E0. subst k0.
      destruct (String.eqb k' k) eqn:E1; [| reflexivity].
      apply String.eqb_eq in E1. subst k'. now rewrite String.eqb_refl in E.
Qed.

Lemma dict_get_absent (d : dict) (k : string) :
  ~ In k (keys d) -> dict_get d k = None.
Proof.
  induction d as [| [k0 v0] r IH]; cbn [keys map fst In dict_get]; intro H.
  - reflexivity.
  - destruct (String.eqb k k0) eqn:E.
    + apply String.eqb_eq in E. subst. tauto.
    + apply IH. tauto.
Qed.

Lemma distinct_NoDup (l : list string) : distinct l = true -> NoDup l.
Proof.
  induction l as [| x r IH]; cbn [distinct]; intro H; constructor.
  - apply andb_prop in H as [H _]. intro Hin.
    assert (E : PyStr.str_in x r = true).
    { unfold PyStr.str_in. apply existsb_exists. exists x.
      split; [exact Hin | apply String.eqb_refl]. }
    rewrite E in H. discriminate.
  - apply IH. now apply andb_prop in H as [_ H].
Qed.

(** Looking a key up after [d.update(other)]. *)
Lemma dict_get_update (other : dict) :
  NoDup (keys other) ->
  forall (d : dict) (k : string),
    dict_get (dict_update d other) k
    = match dict_get other k with
      | Some v => Some v
      | None => dict_get d k
      end.
Proof.
  unfold dict_update.
  induction other as [| [k0 v0] r IH]; intros Hnd d k; cbn [fold_left fst snd dict_get].
  - reflexivity.
  - cbn [keys map fst] in Hnd. inversion Hnd as [| ? ? Hnotin Hnd']; subst.
    rewrite (IH Hnd'), dict_get_set.
    destruct (String.eqb k k0) eqn:E.
    + apply String.eqb_eq in E. subst k0.
      now rewrite (dict_get_absent r k Hnotin).
    + reflexivity.
Qed.

(** X9: [update(processed, failed, metadata)] adds the two counts to the
    counters and merges the metadata: a key of the argument gets the value
    of the argument, every other key keeps its value; an absent or empty
    argument changes no key. The status and the error log are untouched.
    (The keys of the argument are distinct, as those of a [dict] are.) *)
Theorem update_merges_metadata (processed failed : Z) (md : option dict)
    (t : datetime) (p : IngestorProgress) (k : string) :
  distinct (match md with Some other => keys other | None => [] end) = true ->
  dict_get (metadata (update processed failed md t p)) k
  = match md with
    | Some other =>
        match dict_get other k with
        | Some v => Some v
        | None => dict_get (metadata p) k
        end
    | None => dict_get (metadata p) k
    end
  /\ processed_items (update processed failed md t p) = processed_items p + processed
  /\ failed_items (update processed failed md t p) = failed_items p + failed
  /\ errors (update processed failed md t p) = errors p
  /\ status (update processed failed md t p) = status p.
Proof.
  intro H. split; [| repeat split].
  unfold update. cbn [metadata].
  destruct md as [[| kv other] |]; cbn [dict_truthy].
  - reflexivity.
  - apply (dict_get_update (kv :: other) (distinct_NoDup _ H)).
  - reflexivity.
Qed.

End ProgressLaws.

(* ===================================================================== *)
(** ** Sources of the Claude ingestor *)
(* ===================================================================== *)

Module SourceProps.
Import Base Claude Spec Laws MonadProps BaseProps PyStrProps ClaudeProps.

Section Ingestor.

Context {B : Type}.
Context {U : PyStr.Unicode}.
Variable pxt : Pixeltable B.
Variable json_loads : string -> Result value.
Variable json_dumps : value -> string.
Variable str_value : value -> string.
Variable gettempdir : string.
Variable repr_summary : Summary -> string.

(** *** Validation, in full *)

Lemma length_zero_iff_empty (s : string) :
  (String.length s =? 0)%nat = String.eqb s EmptyString.
Proof. destruct s; reflexivity. Qed.

Lemma read_text_inv (source_path content : string) (w w' : World B) :
  read_text source_path w = (Ok content, w') ->
  exists stored,
    fs_lookup (fs w) source_path = Some (NFile stored)
    /\ content = PyStr.universal_newlines stored.
Proof.
  unfold read_text.
  destruct (fs_lookup (fs w) source_path) as [[stored | err | | reason] |];
    intro H; inversion H; subst.
  eexists. split; reflexivity.
Qed.

(** X10: [validate_source] changes nothing. On a path whose status cannot be
    read it raises the [OSError] of [stat]. On every other path it returns:
    [(True, None)] exactly on the acceptable sources, that is a file that
    can be read, with a supported extension, whose text is not blank, and,
    for a [.json] file, on whose text [json.loads] does not fail with
    anything else than a [JSONDecodeError] (a [.json] file that is not JSON
    is accepted); [(False, reason)] with a reason that is not empty on the
    others. *)
Theorem validate_source_decides (source_path : string) (w : World B) :
  match fs_lookup (fs w) source_path with
  | Some (NNoStat reason) =>
      validate_source json_loads source_path w
      = (Raise (os_error reason source_path), w)
  | _ =>
      exists reason,
        validate_source json_loads source_path w
        = (Ok (acceptable json_loads (fs w) source_path, reason), w)
        /\ match reason with
           | None => acceptable json_loads (fs w) source_path = true
           | Some r => acceptable json_loads (fs w) source_path = false
                       /\ r <> EmptyString
           end
  end.
Proof.
  unfold validate_source, acceptable, bind, path_exists.
  destruct (fs_lookup (fs w) source_path) as [n |] eqn:L; cbn [negb].
  2:{ eexists. split; [reflexivity |]. split; [reflexivity | cbn; discriminate]. }
  change get_supported_formats with [".txt"; ".json"; ".md"].
  destruct n as [stored | err | | why]; [| | | reflexivity]; cbn [negb];
    (destruct (PyStr.str_in (PyStr.lower (PyPath.suffix source_path))
                [".txt"; ".json"; ".md"]) eqn:S; cbn [negb andb];
     [| eexists; (split; [reflexivity |]);
        (split; [reflexivity | cbn; discriminate]) ]);
    unfold try_except, bind, read_text; rewrite L.
  - rewrite length_zero_iff_empty.
    destruct (String.eqb (PyStr.strip (PyStr.universal_newlines stored)) EmptyString);
      cbn [negb andb].
    + eexists. split; [reflexivity |]. split; [reflexivity | discriminate].
    + destruct (String.eqb (PyStr.lower (PyPath.suffix source_path)) ".json").
      * destruct (json_loads (PyStr.universal_newlines stored))
          as [[| | | | | |] | e]; cbn [ret];
          try (destruct (existsb _ markers); eexists; split; reflexivity);
          try (eexists; split; reflexivity).
        destruct (ExnClass_eqb (exn_class e) JSONDecodeError); cbn [ret raise].
        -- destruct (existsb _ markers); eexists; split; reflexivity.
        -- eexists. split; [reflexivity |]. split; [reflexivity | cbn; discriminate].
      * cbn [ret]. destruct (existsb _ markers); eexists; split; reflexivity.
  - eexists. split; [reflexivity |]. split; [reflexivity | cbn; discriminate].
  - eexists. split; [reflexivity |]. split; [reflexivity | cbn; discriminate].
Qed.

(** *** Parsing of plain-text sources *)

(** X11: a source that is not a [.json] file is parsed as one record: the
    whole text read from the file is the document text, the title is the
    placeholder of index 0, the metadata says format [text]; nothing is
    logged and no file is touched. *)
Theorem parse_text_source (source_path content : string) (e : Env (World B)) :
  read_text source_path (world e) = (Ok content, world e) ->
  String.eqb (PyStr.lower (PyPath.suffix source_path)) ".json" = false ->
  exists doc e',
    parse_source json_loads str_value source_path e = (Ok [doc], e')
    /\ document_text doc = VStr content
    /\ doc_title doc = VStr "Claude Conversation 1"
    /\ conversation_index doc = Some (VInt 0)
    /\ dict_get (doc_metadata doc) "format" = Some (VStr "text")
    /\ dict_get (doc_metadata doc) "source_file" = Some (VStr source_path)
    /\ log e' = log e
    /\ fs (world e') = fs (world e).
Proof.
  intros Hfile Hsuffix.
  pose proof (read_source source_path content e Hfile) as Hread.
  unfold parse_source.
  rewrite (bind_ok _ _ _ _ _ Hread), Hsuffix.
  unfold _parse_text_conversations, bind.
  rewrite !in_world_run. cbn.
  eexists _, _. split; [reflexivity |]. cbn. repeat split.
Qed.

(** *** Messages and conversations that cannot be rendered *)

Lemma format_message_raises (m : value) :
  is_message m = false ->
  exists e, format_message str_value m = Raise e /\ exn_class e = AttributeError.
Proof.
  unfold is_message, format_message, dict_get_default.
  destruct m as [| | | | | | d]; try (intros _; eexists; split; reflexivity).
  destruct (dict_get d "role") as [[| | | | role | |] |]; try discriminate;
    intros _; eexists; split; reflexivity.
Qed.

Lemma format_messages_raises (msgs : list value) :
  forall text_parts,
    forallb is_message msgs = false ->
    exists e,
      format_messages str_value msgs text_parts = Raise e
      /\ exn_class e = AttributeError.
Proof.
  induction msgs as [| m r IH]; intros text_parts H; cbn [forallb] in H.
  - discriminate.
  - cbn [format_messages].
    destruct (is_message m) eqn:Hm.
    + rewrite (format_message_block str_value m Hm). apply IH. exact H.
    + destruct (format_message_raises m Hm) as (e & -> & C). eauto.
Qed.

(** X12: on a list of messages [_format_messages_as_text] returns exactly when
    every message is an object whose role is a string or absent; one message
    of another shape (a role that is null or a number, a message that is not
    an object) makes the whole rendering raise an [AttributeError]. *)
Theorem format_messages_all_or_nothing (msgs : list value) :
  match _format_messages_as_text str_value (VList msgs) with
  | Ok text => forallb is_message msgs = true /\ text = rendered str_value msgs
  | Raise e => forallb is_message msgs = false /\ exn_class e = AttributeError
  end.
Proof.
  destruct (forallb is_message msgs) eqn:H.
  - rewrite (format_messages_as_text_run str_value msgs H). split; reflexivity.
  - unfold _format_messages_as_text. cbn [iterate].
    destruct (format_messages_raises msgs [] H) as (e & -> & C).
    split; [reflexivity | exact C].
Qed.

Lemma conversation_fields_index (conv : value) (i j : Z) :
  is_ok (conversation_fields str_value conv i)
  = is_ok (conversation_fields str_value conv j).
Proof.
  unfold conversation_fields.
  destruct conv as [| | | | s | l | d]; try reflexivity.
  destruct (dict_has d "messages"); [| reflexivity].
  destruct (_format_messages_as_text _ _); reflexivity.
Qed.

Lemma extract_document_outcome (conv : value) (source_path : string) (i : Z)
    (w : World B) :
  is_ok (fst (_extract_conversation_as_document str_value conv source_path i w))
  = extractable str_value conv.
Proof.
  unfold extractable. rewrite (conversation_fields_index conv 0 i).
  unfold _extract_conversation_as_document, bind, lift_result.
  destruct (conversation_fields str_value conv i) as [[[[[d t] ti] c] u] | e];
    reflexivity.
Qed.

Lemma extract_each_outcome (source_path : string) (convs : list value) :
  forall i conversations (w : World B),
    is_ok (fst (extract_each str_value convs source_path i conversations w))
    = forallb (extractable str_value) convs.
Proof.
  induction convs as [| conv rest IH]; intros i conversations w;
    cbn [extract_each forallb].
  - reflexivity.
  - rewrite <- (extract_document_outcome conv source_path i w).
    unfold bind.
    destruct (_extract_conversation_as_document str_value conv source_path i w)
      as [[doc | e] w1]; cbn [fst is_ok andb].
    + apply IH.
    + reflexivity.
Qed.

(** X13: parsing a JSON array is all or nothing: [parse_source] returns
    records exactly when every element of the array can be extracted; a
    single element that cannot (a number, a string, an object whose
    [messages] are null or hold a message without a string role) makes the
    whole call raise, and no record of the other elements is returned. *)
Theorem parse_json_array_all_or_nothing (source_path content : string)
    (convs : list value) (e : Env (World B)) :
  read_text source_path (world e) = (Ok content, world e) ->
  PyStr.lower (PyPath.suffix source_path) = ".json" ->
  json_loads content = Ok (VList convs) ->
  is_ok (fst (parse_source json_loads str_value source_path e))
  = forallb (extractable str_value) convs.
Proof.
  intros Hfile Hsuffix J.
  pose proof (read_source source_path content e Hfile) as Hread.
  unfold parse_source.
  rewrite (bind_ok _ _ _ _ _ Hread), Hsuffix. cbn [String.eqb Ascii.eqb Bool.eqb].
  unfold _parse_json_conversations. rewrite J, in_world_run. cbn [fst].
  apply extract_each_outcome.
Qed.
(** *** A [.json] source without conversations *)

(** X14: a [.json] file that is not blank and whose text is not JSON, or is
    a JSON number, string, boolean or null, passes [validate_source] and is
    then parsed to no record at all, without an exception: the run that
    follows has nothing to store. Only the text that is not JSON leaves a
    trace, one error line in the log. *)
Theorem json_source_without_conversations (source_path content : string)
    (e : Env (World B)) :
  read_text source_path (world e) = (Ok content, world e) ->
  String.eqb (PyStr.lower (PyPath.suffix source_path)) ".json" = true ->
  String.eqb (PyStr.strip content) EmptyString = false ->
  no_conversations (json_loads content) = true ->
  validate_source json_loads source_path (world e) = (Ok (true, None), world e)
  /\ exists e',
       parse_source json_loads str_value source_path e = (Ok [], e')
       /\ world e' = world e
       /\ log e'
          = match json_loads content with
            | Ok _ => log e
            | Raise ex =>
                (log e ++ [(ERROR, ("Invalid JSON in " ++ source_path ++ ": "
                                    ++ exn_str ex)%string)])%list
            end.
Proof.
  intros Hfile Hjson Hblank Hnone.
  pose proof (read_source source_path content e Hfile) as Hread.
  destruct (read_text_inv _ _ _ _ Hfile) as (stored & Hstored & Hcontent).
  split.
  - unfold validate_source, bind, path_exists. rewrite Hstored. cbn [negb].
    apply String.eqb_eq in Hjson. rewrite Hjson.
    change (PyStr.str_in ".json" get_supported_formats) with true. cbn [negb].
    unfold try_except, bind. rewrite Hfile.
    rewrite length_zero_iff_empty, Hblank.
    change (String.eqb ".json" ".json") with true. cbv iota.
    unfold no_conversations in Hnone.
    destruct (json_loads content) as [[| | | | | |] | ex]; try discriminate;
      cbn [ret]; try (destruct (existsb _ markers); reflexivity).
    rewrite Hnone. cbn [ret]. destruct (existsb _ markers); reflexivity.
  - unfold parse_source. rewrite (bind_ok _ _ _ _ _ Hread), Hjson.
    unfold _parse_json_conversations, no_conversations in *.
    destruct (json_loads content) as [[| | | | | |] | ex]; try discriminate;
      try (eexists; split; [reflexivity |]; split; reflexivity).
    rewrite Hnone. unfold bind, logger, modify, ret.
    eexists. split; [reflexivity |]. split; reflexivity.
Qed.

End Ingestor.

End SourceProps.

(* ===================================================================== *)
(** ** Staged files *)
(* ===================================================================== *)

Module StagingProps.
Import Base Claude Spec Laws MonadProps BaseProps PyStrProps ClaudeProps SourceProps.

Section Ingestor.

Context {B : Type}.
Context {U : PyStr.Unicode}.
Variable pxt : Pixeltable B.
Variable json_loads : string -> Result value.
Variable json_dumps : value -> string.
Variable str_value : value -> string.
Variable gettempdir : string.
Variable repr_summary : Summary -> string.

(** *** The staged file: its name, its place and its text *)

Lemma append_assoc (a b c : string) : ((a ++ b) ++ c) = (a ++ (b ++ c)).
Proof. induction a as [| x a IH]; cbn; [reflexivity | now rewrite IH]. Qed.

Lemma append_empty_r (a : string) : (a ++ EmptyString) = a.
Proof. induction a as [| x a IH]; cbn; [reflexivity | now rewrite IH]. Qed.

Lemma prefix_append (a b : string) : String.prefix a (a ++ b) = true.
Proof.
  induction a as [| x a IH]; cbn.
  - now destruct b.
  - destruct (Ascii.ascii_dec x x); [exact IH | congruence].
Qed.

Lemma joinpath_inside (d child : string) : inside d (PyPath.joinpath d child) = true.
Proof.
  unfold inside, PyPath.joinpath.
  replace (d ++ "/" ++ child) with ((d ++ "/") ++ child)
    by (rewrite append_assoc; reflexivity).
  rewrite prefix_append. apply orb_true_r.
Qed.

(** The character that [re.sub] puts for [ch]. *)
Lemma replaced_char (ch : string) :
  (if PyStr.word_char ch then ch else "_") = ch
  \/ (if PyStr.word_char ch then ch else "_") = "_".
Proof. destruct (PyStr.word_char ch); [now left | now right]. Qed.

Lemma chars_sub_unsafe (s : string) :
  PyStr.chars (PyStr.sub_unsafe s)
  = map (fun ch => if PyStr.word_char ch then ch else "_") (PyStr.chars s).
Proof.
  unfold PyStr.sub_unsafe. apply chunked_concat.
  apply chunked_map; [exact replaced_char | apply chars_chunked].
Qed.

Lemma chars_safe_title (title : string) :
  PyStr.chars (safe_title title)
  = firstn 50 (map (fun ch => if PyStr.word_char ch then ch else "_")
                 (PyStr.chars title)).
Proof.
  unfold safe_title, PyStr.take. rewrite chars_sub_unsafe.
  apply chunked_concat, chunked_firstn.
  apply chunked_map; [exact replaced_char | apply chars_chunked].
Qed.

Lemma forallb_firstn {A} (f : A -> bool) (n : nat) (l : list A) :
  forallb f l = true -> forallb f (firstn n l) = true.
Proof.
  revert l. induction n as [| n IH]; intros [| x r] H; cbn in *; try reflexivity.
  apply andb_true_iff in H as [Hx Hr]. now rewrite Hx, IH.
Qed.

Lemma replaced_word_chars (l : list string) :
  forallb PyStr.word_char
    (map (fun ch => if PyStr.word_char ch then ch else "_") l) = true.
Proof.
  induction l as [| ch r IH]; [reflexivity |].
  cbn [map forallb]. rewrite IH, andb_true_r.
  destruct (PyStr.word_char ch) eqn:E; [exact E | reflexivity].
Qed.

(** X15: the title that goes into the name of a staged file has at most 50
    characters, and each of them is a character that [\w] matches (a letter,
    a digit or [_], in ASCII or outside it), [-] or [.]: no path separator
    and no blank is among them, whatever the title of the document. *)
Theorem safe_title_is_safe (title : string) :
  (length (PyStr.chars (safe_title title)) <= 50)%nat
  /\ forallb PyStr.word_char (PyStr.chars (safe_title title)) = true
  /\ ~ In "/" (PyStr.chars (safe_title title))
  /\ ~ In " " (PyStr.chars (safe_title title)).
Proof.
  assert (W : forallb PyStr.word_char (PyStr.chars (safe_title title)) = true).
  { rewrite chars_safe_title. apply forallb_firstn, replaced_word_chars. }
  split; [| split; [exact W | split]].
  - rewrite chars_safe_title. apply firstn_le_length.
  - intro H. rewrite forallb_forall in W. specialize (W _ H). discriminate.
  - intro H. rewrite forallb_forall in W. specialize (W _ H). discriminate.
Qed.

Lemma concat_snoc (l : list string) (x : string) :
  String.concat EmptyString (l ++ [x]) = String.concat EmptyString l ++ x.
Proof.
  induction l as [| s r IH]; cbn [app].
  - reflexivity.
  - destruct r as [| s' r'].
    + reflexivity.
    + change (String.concat EmptyString (s :: (s' :: r') ++ [x]))
        with (s ++ String.concat EmptyString ((s' :: r') ++ [x])).
      rewrite IH.
      change (String.concat EmptyString (s :: s' :: r'))
        with (s ++ String.concat EmptyString (s' :: r')).
      now rewrite append_assoc.
Qed.

(** What a successful [_create_temp_document] has done. *)
Lemma create_temp_document_run (text title : value) (metadata : dict)
    (w w1 : World B) (p : string) :
  _create_temp_document str_value gettempdir text title metadata w = (Ok p, w1) ->
  exists title_s text_s,
    title = VStr title_s
    /\ text = VStr text_s
    /\ p = PyPath.joinpath (temp_dir gettempdir) (staged_name (fst (clock w)) title_s)
    /\ fs_lookup (fs w1) p
       = Some (NFile (staged_content str_value title_s metadata text_s))
    /\ ticks w1 = S (ticks w)
    /\ times w1 = times w.
Proof.
  unfold _create_temp_document.
  destruct title as [| | | | title_s | |]; try discriminate.
  unfold bind at 1. unfold datetime_now at 1, Base.now at 1, clock at 1.
  unfold bind at 1.
  match goal with
  | |- context [mkdir_exist_ok ?a ?b ?w0] =>
      destruct (mkdir_exist_ok a b w0) as [[[] | ex] w2] eqn:Emk; [| discriminate]
  end.
  assert (Hw2 : ticks w2 = S (ticks w) /\ times w2 = times w).
  { unfold mkdir_exist_ok in Emk. cbn [fs] in Emk.
    repeat match type of Emk with
           | context [match ?x with _ => _ end] => destruct x
           end; inversion Emk; split; reflexivity. }
  unfold bind at 1.
  match goal with
  | |- context [open_write ?a ?b w2] =>
      destruct (open_write a b w2) as [[[] | ex] w3] eqn:Eow; [| discriminate];
      set (path := a) in *
  end.
  unfold ret. intro H. injection H as <- <-.
  unfold open_write in Eow.
  assert (Hw3 : exists text_s,
             text = VStr text_s
             /\ w3 = set_fs (fs_write (fs w2) path
                       (NFile (staged_content str_value title_s metadata text_s))) w2).
  { unfold staged_content, staged_lines, title_line, source_line, created_line,
      parsed_line, dict_get_default.
    unfold dict_get_default in Eow.
    destruct (truthy match dict_get metadata "created_at" with
                     | Some v => v
                     | None => VNone
                     end);
      destruct (dict_get metadata "parsed_at") as [pa |];
      destruct text as [| | | | text_s | |];
      cbn [app written] in Eow;
      repeat match type of Eow with
             | context [if PyStr.encodable ?s then _ else _] =>
                 destruct (PyStr.encodable s)
             end;
      destruct (fs_lookup (fs w2) path) as [[] |]; try discriminate;
      injection Eow as <-; exists text_s; (split; [reflexivity |]);
      cbn [app String.concat]; rewrite ?append_assoc; cbn [append];
      rewrite ?append_assoc; reflexivity. }
  destruct Hw3 as (text_s & -> & ->).
  exists title_s, text_s. cbn [fs set_fs ticks times].
  destruct Hw2 as [-> ->].
  repeat split. apply fs_lookup_write_same.
Qed.


(** X17: when [transform_record] returns, reading the staged file back gives
    the header (title, source type, creation time when the metadata has one,
    parse time, separator) followed by the document text, as a file read in
    text mode gives them: each [\r\n] and each lone [\r] of the title, the
    metadata and the text has become [\n]. *)
Theorem staged_file_reads_back (record : Document) (w w1 : World B) (t : dict) :
  transform_record json_dumps str_value gettempdir record w = (Ok t, w1) ->
  exists title text p,
    doc_title record = VStr title
    /\ document_text record = VStr text
    /\ dict_get t "_temp_file_path" = Some (VStr p)
    /\ read_text p w1
       = (Ok (PyStr.universal_newlines
                (staged_header str_value title (doc_metadata record) ++ text)),
          w1).
Proof.
  unfold transform_record, bind.
  destruct (_create_temp_document _ _ _ _ _ w) as [[p | ex] w2] eqn:E;
    [| discriminate].
  destruct (create_temp_document_run _ _ _ _ _ _ E)
    as (title & text & Ht & Hx & Hp & Hf & _).
  unfold datetime_now, Base.now, clock, ret. intro H. injection H as <- <-.
  exists title, text, p. cbn. repeat split; auto.
  unfold read_text. cbn [fs]. rewrite Hf.
  unfold staged_content, staged_header. now rewrite concat_snoc.
Qed.

End Ingestor.

Section Failures.

Context {B : Type}.
Context {U : PyStr.Unicode}.
Variable pxt : Pixeltable B.
Variable json_loads : string -> Result value.
Variable json_dumps : value -> string.
Variable str_value : value -> string.
Variable gettempdir : string.
Variable repr_summary : Summary -> string.

(** What a returning [transform_record] has done. *)
Lemma transform_record_run (record : Document) (w w1 : World B) (t : dict) :
  transform_record json_dumps str_value gettempdir record w = (Ok t, w1) ->
  exists title text,
    doc_title record = VStr title
    /\ document_text record = VStr text
    /\ dict_get t "_temp_file_path"
       = Some (VStr (PyPath.joinpath (temp_dir gettempdir)
                       (staged_name (fst (clock w)) title)))
    /\ fs_lookup (fs w1)
         (PyPath.joinpath (temp_dir gettempdir) (staged_name (fst (clock w)) title))
       = Some (NFile (staged_content str_value title (doc_metadata record) text)).
Proof.
  unfold transform_record, bind.
  destruct (_create_temp_document _ _ _ _ _ w) as [[p | ex] w2] eqn:E;
    [| discriminate].
  destruct (create_temp_document_run _ _ _ _ _ _ _ _ E)
    as (title & text & Ht & Hx & Hp & Hf & _).
  unfold datetime_now, Base.now, clock, ret. intro H. injection H as <- <-.
  exists title, text. subst p.
  split; [exact Ht |]. split; [exact Hx |].
  split; [reflexivity |]. cbn [fs]. exact Hf.
Qed.

(** *** Two documents, one staged file *)

(** X18: the name of a staged file depends on the title only through its safe
    form and on the time only through its seconds. Two documents whose
    titles have the same safe form (the same document twice, or titles that
    differ in replaced characters or after the 50th character), transformed
    one after the other within one second, are staged at the same path: the
    second file replaces the first, both records name it, and it reads as
    the header and text of the second document. *)
Theorem same_second_same_title_share_a_file (r1 r2 : Document)
    (w w1 w2 : World B) (t1 t2 : dict) (title1 title2 : string) :
  transform_record json_dumps str_value gettempdir r1 w = (Ok t1, w1) ->
  transform_record json_dumps str_value gettempdir r2 w1 = (Ok t2, w2) ->
  doc_title r1 = VStr title1 ->
  doc_title r2 = VStr title2 ->
  safe_title title1 = safe_title title2 ->
  strftime_compact (fst (clock w)) = strftime_compact (fst (clock w1)) ->
  exists p text2,
    dict_get t1 "_temp_file_path" = Some (VStr p)
    /\ dict_get t2 "_temp_file_path" = Some (VStr p)
    /\ document_text r2 = VStr text2
    /\ read_text p w2
       = (Ok (PyStr.universal_newlines
                (staged_content str_value title2 (doc_metadata r2) text2)), w2).
Proof.
  intros E1 E2 T1 T2 Hsafe Htime.
  destruct (transform_record_run _ _ _ _ E1) as (ti1 & tx1 & Ht1 & _ & Hp1 & _).
  destruct (transform_record_run _ _ _ _ E2) as (ti2 & tx2 & Ht2 & Hx2 & Hp2 & Hf2).
  rewrite T1 in Ht1. injection Ht1 as <-.
  rewrite T2 in Ht2. injection Ht2 as <-.
  assert (Hsame : staged_name (fst (clock w1)) title2
                  = staged_name (fst (clock w)) title1).
  { unfold staged_name. now rewrite Hsafe, Htime. }
  rewrite Hsame in Hp2, Hf2.
  eexists _, tx2.
  split; [exact Hp1 |]. split; [exact Hp2 |]. split; [exact Hx2 |].
  unfold read_text. now rewrite Hf2.
Qed.

(** *** A document whose text is not a string *)


End Failures.

End StagingProps.

(* ===================================================================== *)
(** ** The backend *)
(* ===================================================================== *)

Module BackendProps.
Import Base Claude Spec Laws MonadProps BaseProps ClaudeProps.

Section Ingestor.

Context {B : Type}.
Context {U : PyStr.Unicode}.
Variable pxt : Pixeltable B.
Variable json_loads : string -> Result value.
Variable json_dumps : value -> string.
Variable str_value : value -> string.
Variable gettempdir : string.
Variable repr_summary : Summary -> string.

(** *** The set-up of the schema *)

(** X20: [_ensure_pixeltable_schema] raises exactly when creating the
    directory or the table raises, and then raises that exception; a failure
    of the chunk view or of the embedding index is swallowed. Whatever
    happens it writes one line to the log (error, warning or info) and
    touches no file. *)
Theorem schema_setup_failures (e : Env (World B)) :
  let out := _ensure_pixeltable_schema pxt e in
  fst out
  = match pxt_create_dir pxt "doc_search" (backend (world e)) with
    | (Raise ex, _) => Raise ex
    | (Ok _, b1) =>
        match pxt_create_table pxt "doc_search.all_documents" b1 with
        | (Raise ex, _) => Raise ex
        | (Ok _, _) => Ok tt
        end
    end
  /\ (exists line, log (snd out) = (log e ++ [line])%list
                   /\ (fst line = ERROR <-> is_ok (fst out) = false))
  /\ fs (world (snd out)) = fs (world e).
Proof.
  cbv zeta.
  unfold _ensure_pixeltable_schema, try_except, bind, on_backend, in_world,
    in_backend, zoom, logger, modify, raise.
  cbn [world backend set_world set_backend].
  destruct (pxt_create_dir pxt "doc_search" (backend (world e))) as [[[] | ex] b1];
    cbn [fst snd world backend set_world set_backend log add_log fs].
  - destruct (pxt_create_table pxt "doc_search.all_documents" b1) as [[[] | ex] b2];
      cbn [fst snd world backend set_world set_backend log add_log fs].
    + destruct (pxt_create_view pxt "doc_search.all_documents_chunks" b2)
        as [[[] | ex] b3];
        cbn [fst snd world backend set_world set_backend log add_log fs].
      * destruct (pxt_add_embedding_index pxt "doc_search.all_documents_chunks" b3)
          as [[[] | ex] b4];
          cbn [fst snd world backend set_world set_backend log add_log fs];
          (split; [reflexivity |]; split; [| reflexivity]);
          eexists; (split; [reflexivity |]); cbn; split; discriminate.
      * split; [reflexivity |]. split; [| reflexivity].
        eexists. split; [reflexivity |]. cbn. split; discriminate.
    + split; [reflexivity |]. split; [| reflexivity].
      eexists. split; [reflexivity |]. cbn. split; reflexivity.
  - split; [reflexivity |]. split; [| reflexivity].
    eexists. split; [reflexivity |]. cbn. split; reflexivity.
Qed.

End Ingestor.

End BackendProps.

(* ===================================================================== *)
(** ** Files and clean-up *)
(* ===================================================================== *)

Module FilesProps.
Import Base Claude Spec Laws MonadProps BaseProps PyStrProps ClaudeProps SourceProps StagingProps.

(** *** Runs that stay inside a relation *)

Section Steps.

Context {S : Type} (P : S -> S -> Prop).
Hypothesis P_refl : forall s, P s s.
Hypothesis P_trans : forall s1 s2 s3, P s1 s2 -> P s2 s3 -> P s1 s3.

Lemma steps_ret {A} (a : A) : steps P (ret a).
Proof. intro s. apply P_refl. Qed.

Lemma steps_raise {A} (e : exn) : steps P (@raise S A e).
Proof. intro s. apply P_refl. Qed.

Lemma steps_gets {A} (f : S -> A) : steps P (gets f).
Proof. intro s. apply P_refl. Qed.

Lemma steps_lift_result {A} (r : Result A) : steps P (@lift_result S A r).
Proof. intro s. unfold lift_result. destruct r; apply P_refl. Qed.

Lemma steps_bind {A C} (m : M S A) (k : A -> M S C) :
  steps P m -> (forall a, steps P (k a)) -> steps P (bind m k).
Proof.
  intros Hm Hk s. unfold bind. specialize (Hm s).
  destruct (m s) as [[a | e] s']; simpl in *.
  - eapply P_trans; [exact Hm | apply Hk].
  - exact Hm.
Qed.

Lemma steps_try_except {A} (m : M S A) (h : exn -> M S A) :
  steps P m -> (forall e, steps P (h e)) -> steps P (try_except m h).
Proof.
  intros Hm Hh s. unfold try_except. specialize (Hm s).
  destruct (m s) as [[a | e] s']; simpl in *.
  - exact Hm.
  - eapply P_trans; [exact Hm | apply Hh].
Qed.

Lemma steps_for_each {A C} (xs : list A) (body : A -> C -> M S C) :
  (forall x acc, steps P (body x acc)) ->
  forall acc, steps P (for_each xs body acc).
Proof.
  intros Hbody. induction xs as [| x r IH]; intro acc; simpl.
  - apply steps_ret.
  - apply steps_bind; [apply Hbody | intro; apply IH].
Qed.

Lemma keeps_steps {A X} (proj : S -> X) (m : M S A) :
  (forall s s', proj s' = proj s -> P s s') -> keeps proj m -> steps P m.
Proof. intros H K s. apply H, K. Qed.

End Steps.

Lemma same_outside_refl (d : string) (f : FS) : same_outside d f f.
Proof. intros q _. reflexivity. Qed.

Lemma same_outside_trans (d : string) (f1 f2 f3 : FS) :
  same_outside d f1 f2 -> same_outside d f2 f3 -> same_outside d f1 f3.
Proof. intros H12 H23 q Hq. now rewrite (H23 q Hq), (H12 q Hq). Qed.

Lemma fs_lookup_remove_other (f : FS) (p q : string) :
  String.eqb q p = false -> fs_lookup (fs_remove f p) q = fs_lookup f q.
Proof.
  intro Hqp. unfold fs_remove.
  induction f as [| [p' n] r IH]; [reflexivity |].
  cbn [filter fst fs_lookup].
  destruct (String.eqb p p') eqn:Epp'; cbn [negb].
  - apply String.eqb_eq in Epp'. subst p'. now rewrite Hqp.
  - cbn [fs_lookup]. now rewrite IH.
Qed.

Lemma fs_lookup_write_other (f : FS) (p q : string) (n : Node) :
  String.eqb q p = false -> fs_lookup (fs_write f p n) q = fs_lookup f q.
Proof.
  intro Hqp. unfold fs_write. cbn [fs_lookup]. rewrite Hqp.
  now apply fs_lookup_remove_other.
Qed.

Lemma outside_differs (d p q : string) :
  inside d p = true -> inside d q = false -> String.eqb q p = false.
Proof.
  intros Hp Hq. destruct (String.eqb q p) eqn:E; [| reflexivity].
  apply String.eqb_eq in E. subst q. congruence.
Qed.

Lemma same_outside_remove (d p : string) (f : FS) :
  inside d p = true -> same_outside d f (fs_remove f p).
Proof.
  intros Hp q Hq. apply fs_lookup_remove_other. eapply outside_differs; eauto.
Qed.

Lemma same_outside_write (d p : string) (n : Node) (f : FS) :
  inside d p = true -> same_outside d f (fs_write f p n).
Proof.
  intros Hp q Hq. apply fs_lookup_write_other. eapply outside_differs; eauto.
Qed.

Lemma inside_self (d : string) : inside d d = true.
Proof. unfold inside. now rewrite String.eqb_refl. Qed.

Lemma inside_below (d p : string) :
  String.prefix (d ++ "/") p = true -> inside d p = true.
Proof. intro H. unfold inside. rewrite H. apply orb_true_r. Qed.

Section Ingestor.

Context {B : Type}.
Context {U : PyStr.Unicode}.
Variable pxt : Pixeltable B.
Variable json_loads : string -> Result value.
Variable json_dumps : value -> string.
Variable str_value : value -> string.
Variable gettempdir : string.
Variable repr_summary : Summary -> string.

(** *** The walk of [rmtree] *)

Lemma rmtree_entries_outside (d : string) (locked : list string) (entries : FS) :
  forall f, same_outside d f (fst (rmtree_entries d entries f locked)).
Proof.
  induction entries as [| [p n] rest IH]; intro f; cbn [rmtree_entries].
  - apply same_outside_refl.
  - destruct (String.prefix (d ++ "/") p) eqn:Ep; [| apply IH].
    destruct n; try apply same_outside_refl;
      (destruct (PyStr.str_in p locked); [apply same_outside_refl |]);
      (eapply same_outside_trans; [| apply IH]);
      apply same_outside_remove; now apply inside_below.
Qed.

Lemma rmtree_entries_monotone (d : string) (locked : list string) (entries : FS)
    (q : string) :
  forall f, fs_lookup f q = None ->
            fs_lookup (fst (rmtree_entries d entries f locked)) q = None.
Proof.
  induction entries as [| [p n] rest IH]; intros f Hq; cbn [rmtree_entries].
  - exact Hq.
  - destruct (String.prefix (d ++ "/") p); [| now apply IH].
    destruct n; try exact Hq;
      (destruct (PyStr.str_in p locked); [exact Hq |]);
      apply IH; (destruct (String.eqb q p) eqn:E;
        [ apply String.eqb_eq in E; subst; apply fs_lookup_remove_same
        | now rewrite fs_lookup_remove_other ]).
Qed.

Lemma str_in_In (x : string) (xs : list string) :
  PyStr.str_in x xs = true -> In x xs.
Proof.
  unfold PyStr.str_in. intro H. apply existsb_exists in H.
  destruct H as (y & Hy & E). apply String.eqb_eq in E. now subst.
Qed.

Lemma readable_below_cons (d p : string) (n : Node) (rest : FS) :
  readable_below d ((p, n) :: rest) = true ->
  String.prefix (d ++ "/") p = true ->
  has_status n = true /\ readable_below d rest = true.
Proof.
  unfold readable_below. cbn [forallb fst snd]. intros H Ep.
  apply andb_true_iff in H as [H Hrest].
  rewrite (inside_below _ _ Ep) in H. now split.
Qed.

Lemma readable_below_tail (d : string) (entry : string * Node) (rest : FS) :
  readable_below d (entry :: rest) = true -> readable_below d rest = true.
Proof.
  unfold readable_below. cbn [forallb]. intro H.
  now apply andb_true_iff in H as [_ H].
Qed.

Lemma rmtree_entries_succeeds (d : string) (locked : list string) (entries : FS) :
  (forall p, In p locked -> inside d p = false) ->
  readable_below d entries = true ->
  forall f, snd (rmtree_entries d entries f locked) = None.
Proof.
  intros Hfree.
  induction entries as [| [p n] rest IH]; intros Hread f; cbn [rmtree_entries];
    [reflexivity |].
  pose proof (IH (readable_below_tail _ _ _ Hread)) as IH'.
  destruct (String.prefix (d ++ "/") p) eqn:Ep; [| apply IH'].
  destruct (readable_below_cons _ _ _ _ Hread Ep) as [Hn _].
  destruct (PyStr.str_in p locked) eqn:El.
  { apply str_in_In, Hfree in El.
    rewrite (inside_below _ _ Ep) in El. discriminate. }
  destruct n; try discriminate; apply IH'.
Qed.

Lemma rmtree_entries_removes (d : string) (locked : list string) (entries : FS)
    (q : string) :
  (forall p, In p locked -> inside d p = false) ->
  String.prefix (d ++ "/") q = true ->
  readable_below d entries = true ->
  forall f,
    In q (map fst entries) ->
    fs_lookup (fst (rmtree_entries d entries f locked)) q = None.
Proof.
  intros Hfree Hq.
  induction entries as [| [p n] rest IH]; intros Hread f;
    cbn [rmtree_entries map fst]; [intros [] |].
  pose proof (IH (readable_below_tail _ _ _ Hread)) as IH'.
  destruct (String.prefix (d ++ "/") p) eqn:Ep.
  - destruct (readable_below_cons _ _ _ _ Hread Ep) as [Hn _].
    destruct (PyStr.str_in p locked) eqn:El.
    { apply str_in_In, Hfree in El.
      rewrite (inside_below _ _ Ep) in El. discriminate. }
    destruct n; try discriminate;
      (intros [<- | Hin]; [| now apply IH']);
      apply rmtree_entries_monotone, fs_lookup_remove_same.
  - intros [<- | Hin]; [congruence | now apply IH'].
Qed.

Lemma fs_lookup_keys (f : FS) (q : string) (n : Node) :
  fs_lookup f q = Some n -> In q (map fst f).
Proof.
  induction f as [| [p m] r IH]; cbn [fs_lookup map fst]; [discriminate |].
  destruct (String.eqb q p) eqn:E.
  - apply String.eqb_eq in E. now left.
  - intro H. right. now apply IH.
Qed.

Lemma rmtree_outside (d : string) (w : World B) :
  same_outside d (fs w) (fs (snd (rmtree d w))).
Proof.
  unfold rmtree.
  destruct (fs_lookup (fs w) d) as [[| | |] |]; try apply same_outside_refl.
  pose proof (rmtree_entries_outside d (undeletable w) (fs w) (fs w)) as H.
  destruct (rmtree_entries d (fs w) (fs w) (undeletable w)) as [f [e |]];
    cbn [fst snd fs set_fs] in *; [exact H |].
  destruct (PyStr.str_in d (undeletable w)); cbn [snd fs set_fs]; [exact H |].
  eapply same_outside_trans; [exact H |].
  apply same_outside_remove, inside_self.
Qed.

Lemma removable_spec (d : string) (w : World B) :
  removable d w = true ->
  forall p, In p (undeletable w) -> inside d p = false.
Proof.
  unfold removable. intros H p Hin.
  apply andb_true_iff in H as [H _].
  rewrite forallb_forall in H. specialize (H p Hin).
  now apply negb_true_iff in H.
Qed.

Lemma removable_readable (d : string) (w : World B) :
  removable d w = true -> readable_below d (fs w) = true.
Proof. unfold removable. intro H. now apply andb_true_iff in H as [_ H]. Qed.

Lemma rmtree_removes (d : string) (w : World B) :
  fs_lookup (fs w) d = Some NDir ->
  removable d w = true ->
  fst (rmtree d w) = Ok tt
  /\ forall q, inside d q = true -> fs_lookup (fs (snd (rmtree d w))) q = None.
Proof.
  intros Hdir Hfree0. pose proof (removable_spec d w Hfree0) as Hfree.
  pose proof (removable_readable d w Hfree0) as Hread.
  unfold rmtree. rewrite Hdir.
  destruct (PyStr.str_in d (undeletable w)) eqn:El.
  { apply str_in_In, Hfree in El. rewrite inside_self in El. discriminate. }
  pose proof (rmtree_entries_succeeds d (undeletable w) (fs w) Hfree Hread (fs w))
    as Hs.
  pose proof (fun q Hq =>
                rmtree_entries_removes d (undeletable w) (fs w) q Hfree Hq Hread (fs w))
    as Hr.
  pose proof (fun q => rmtree_entries_monotone d (undeletable w) (fs w) q (fs w)) as Hm.
  destruct (rmtree_entries d (fs w) (fs w) (undeletable w)) as [f o].
  cbn [fst snd] in *. subst o. cbn [fst snd fs set_fs].
  split; [reflexivity |].
  intros q Hq.
  destruct (String.eqb q d) eqn:E.
  - apply String.eqb_eq in E. subst q. apply fs_lookup_remove_same.
  - rewrite (fs_lookup_remove_other _ _ _ E).
    unfold inside in Hq. rewrite E in Hq. cbn [orb] in Hq.
    destruct (fs_lookup (fs w) q) as [n |] eqn:L.
    + apply (Hr q Hq). eapply fs_lookup_keys; eauto.
    + now apply Hm.
Qed.

(** *** [cleanup] *)

(** X21: [cleanup] raises in one case only: when the status of the staging
    directory cannot be read, the existence test, which stands outside the
    [try], raises the [OSError] of [stat]. In every other state of the
    staging directory (missing, not a directory, holding files that cannot
    be removed) it returns, and a failure of the removal ends as one warning
    in the log. Raising or not, it drops the backend client, leaves the
    progress as it is, and changes no path outside the staging directory. *)
Theorem cleanup_raises_only_on_unreadable_status (s : St (World B)) :
  let out := claude_cleanup gettempdir s in
  fst out
  = match fs_lookup (files_of s) (temp_dir gettempdir) with
    | Some (NNoStat reason) => Raise (os_error reason (temp_dir gettempdir))
    | _ => Ok tt
    end
  /\ pixeltable_client (env (snd out)) = false
  /\ progress (snd out) = progress s
  /\ same_outside (temp_dir gettempdir) (files_of s) (files_of (snd out)).
Proof.
  cbv zeta.
  cbv [claude_cleanup Base.cleanup bind in_env zoom modify logger
       gets try_except in_world ret files_of path_exists].
  cbn [env set_env set_client add_log world pixeltable_client log progress fst snd].
  destruct (fs_lookup (fs (world (env s))) (temp_dir gettempdir))
    as [[stored | err | | reason] |] eqn:L;
    cbn [env set_env set_client set_world add_log world pixeltable_client
         log progress fst snd];
    try (repeat split; apply same_outside_refl);
    pose proof (rmtree_outside (temp_dir gettempdir) (world (env s))) as Hout;
    (destruct (rmtree (temp_dir gettempdir) (world (env s))) as [[[] | e] w'];
     cbn [snd] in Hout;
     cbn [env set_env set_client set_world add_log world pixeltable_client
          log progress fst snd];
     repeat split; exact Hout).
Qed.

(** X22: when the staging directory exists and nothing in it is protected
    from removal (every entry can be examined and removed), [cleanup]
    removes the directory and every path below it:
    whatever earlier failures left there is gone, and the log ends with the
    information line of the clean-up. *)
Theorem cleanup_empties_staging_directory (s : St (World B)) :
  fs_lookup (files_of s) (temp_dir gettempdir) = Some NDir ->
  removable (temp_dir gettempdir) (world (env s)) = true ->
  let s' := snd (claude_cleanup gettempdir s) in
  (forall q, inside (temp_dir gettempdir) q = true -> fs_lookup (files_of s') q = None)
  /\ log (env s')
     = (log (env s) ++ [(INFO, "Cleanup completed");
                        (INFO, "Cleaned up temporary document files")])%list.
Proof.
  intros Hdir Hfree. cbv zeta.
  cbv [claude_cleanup Base.cleanup bind in_env zoom modify logger
       gets try_except in_world ret files_of] in *.
  cbn [env set_env set_client add_log world pixeltable_client log progress fst snd].
  unfold path_exists. rewrite Hdir.
  cbn [env set_env set_client set_world add_log world pixeltable_client
       log progress fst snd].
  destruct (rmtree_removes _ _ Hdir Hfree) as [Hok Hgone].
  destruct (rmtree (temp_dir gettempdir) (world (env s))) as [r w'].
  cbn [fst snd] in Hok, Hgone. subst r.
  cbn [env set_env set_client set_world add_log world pixeltable_client
       log progress fst snd].
  split; [exact Hgone |]. now rewrite <- app_assoc.
Qed.

(** *** What a run does to the files *)

Lemma datetime_now_keeps_fs : keeps (@fs B) datetime_now.
Proof. intro w. reflexivity. Qed.

Lemma in_world_keeps_of {A X} (f : World B -> X) (m : M (World B) A) :
  keeps f m -> keeps (fun e : Env (World B) => f (world e)) (in_world m).
Proof.
  intros H e. unfold in_world, zoom. specialize (H (world e)).
  destruct (m (world e)). exact H.
Qed.

Lemma call_keeps_of {A X} (f : Env (World B) -> X) (c : Call)
    (m : M (Env (World B)) A) :
  keeps f m -> keeps (fun s : St (World B) => f (env s)) (call c m).
Proof.
  intro H. unfold call.
  apply keeps_bind; [apply keeps_modify; reflexivity | intro].
  now apply in_env_keeps_of.
Qed.

Lemma with_progress_keeps_files f :
  keeps (@files_of B) (with_progress f).
Proof. apply keeps_modify. reflexivity. Qed.

Lemma with_progress_at_keeps_files f :
  keeps (@files_of B) (with_progress_at clock f).
Proof.
  unfold with_progress_at. apply keeps_bind; [apply keeps_gets | intros [p |]].
  - apply keeps_bind; [| intro; apply with_progress_keeps_files].
    apply (in_env_keeps_of (fun e => fs (world e))).
    apply (in_world_keeps_of fs). apply datetime_now_keeps_fs.
  - apply keeps_ret.
Qed.

Lemma log_keeps_files (lvl : LogLevel) (msg : string) :
  keeps (@files_of B) (in_env (logger lvl msg)).
Proof. apply (in_env_keeps_of (fun e => fs (world e))), logger_keeps_fs. Qed.

Lemma read_text_keeps_fs (p : string) : keeps (@fs B) (read_text p).
Proof.
  intro w. unfold read_text.
  destruct (fs_lookup (fs w) p) as [[| | |] |]; reflexivity.
Qed.

Lemma path_exists_keeps_fs (p : string) : keeps (@fs B) (path_exists p).
Proof.
  intro w. unfold path_exists.
  destruct (fs_lookup (fs w) p) as [[| | |] |]; reflexivity.
Qed.

Lemma validate_source_keeps_fs (source_path : string) :
  keeps (@fs B) (validate_source json_loads source_path).
Proof.
  unfold validate_source.
  apply keeps_bind; [apply path_exists_keeps_fs | intro ex].
  destruct (negb ex); [apply keeps_ret |].
  destruct (negb _); [apply keeps_ret |].
  apply keeps_try_except; [| intro; apply keeps_ret].
  apply keeps_bind; [apply read_text_keeps_fs | intro content].
  destruct (_ =? _)%nat; [apply keeps_ret |].
  apply keeps_bind.
  - destruct (String.eqb _ _); [| apply keeps_ret].
    destruct (json_loads content) as [[| | | | | |] | e]; try apply keeps_ret.
    destruct (ExnClass_eqb _ _); [apply keeps_ret | apply keeps_raise].
  - intros [|]; [apply keeps_ret |].
    destruct (existsb _ _); apply keeps_ret.
Qed.

Lemma extract_document_keeps_fs (conv : value) (source_path : string) (i : Z) :
  keeps (@fs B) (_extract_conversation_as_document str_value conv source_path i).
Proof.
  unfold _extract_conversation_as_document.
  apply keeps_bind; [apply keeps_lift_result | intros [[[[d t] ti] c] u]].
  apply keeps_bind; [apply datetime_now_keeps_fs | intro; apply keeps_ret].
Qed.

Lemma extract_each_keeps_fs (convs : list value) (source_path : string) :
  forall i acc, keeps (@fs B) (extract_each str_value convs source_path i acc).
Proof.
  induction convs as [| conv r IH]; intros i acc; cbn [extract_each].
  - apply keeps_ret.
  - apply keeps_bind; [apply extract_document_keeps_fs | intro; apply IH].
Qed.

Lemma parse_source_keeps_fs (source_path : string) :
  keeps (fun e : Env (World B) => fs (world e))
        (parse_source json_loads str_value source_path).
Proof.
  unfold parse_source.
  apply keeps_bind;
    [apply (in_world_keeps_of fs), read_text_keeps_fs | intro content].
  destruct (String.eqb _ _).
  - unfold _parse_json_conversations.
    destruct (json_loads content) as [[| | | | | convs | d] | e];
      try apply keeps_ret.
    + apply (in_world_keeps_of fs), extract_each_keeps_fs.
    + apply keeps_bind; [| intro; apply keeps_ret].
      apply (in_world_keeps_of fs), extract_document_keeps_fs.
    + destruct (ExnClass_eqb _ _); [| apply keeps_raise].
      apply keeps_bind; [apply logger_keeps_fs | intro; apply keeps_ret].
  - unfold _parse_text_conversations.
    apply keeps_bind;
      [apply (in_world_keeps_of fs), datetime_now_keeps_fs | intro].
    apply keeps_bind; [| intro; apply keeps_ret].
    apply (in_world_keeps_of fs), extract_document_keeps_fs.
Qed.

Lemma prepare_keeps_files (source_path : string) :
  keeps (@files_of B)
    (prepare (in_backend (pxt_import pxt))
       (ClaudeConversationIngestor pxt json_loads json_dumps str_value gettempdir)
       source_path).
Proof.
  unfold prepare.
  apply keeps_bind; [apply log_keeps_files | intro].
  apply keeps_bind; [apply initialize_backend_keeps_fs | intro].
  apply keeps_bind.
  - apply (call_keeps_of (fun e => fs (world e))).
    apply (in_world_keeps_of fs), validate_source_keeps_fs.
  - intros [is_valid error_msg].
    apply keeps_bind.
    + destruct (negb is_valid); [apply keeps_raise | apply keeps_ret].
    + intro. apply (call_keeps_of (fun e => fs (world e))).
      apply parse_source_keeps_fs.
Qed.

(** X23: a run with [validate_only] set changes no file, whether it passes
    or raises: the source is read, nothing is staged. *)
Theorem validate_only_changes_no_file (source_path : string) (resume : bool)
    (s : St (World B)) :
  files_of (snd (claude_ingest pxt json_loads json_dumps str_value gettempdir
                   repr_summary source_path resume true s))
  = files_of s.
Proof.
  revert s. change (keeps (@files_of B)
    (claude_ingest pxt json_loads json_dumps str_value gettempdir
       repr_summary source_path resume true)).
  unfold claude_ingest, ingest.
  apply keeps_try_except.
  - unfold ingest_body.
    apply keeps_bind; [apply prepare_keeps_files | intro records].
    apply keeps_bind; [apply with_progress_keeps_files | intro].
    apply keeps_bind; [apply log_keeps_files | intro]. apply keeps_ret.
  - intro e.
    apply keeps_bind; [apply log_keeps_files | intro].
    apply keeps_bind; [apply with_progress_keeps_files | intro].
    apply keeps_bind; [apply with_progress_at_keeps_files | intro].
    apply keeps_raise.
Qed.

Lemma touches_only_refl (d : string) (s : St (World B)) : touches_only d s s.
Proof. apply same_outside_refl. Qed.

Lemma touches_only_trans (d : string) (s1 s2 s3 : St (World B)) :
  touches_only d s1 s2 -> touches_only d s2 s3 -> touches_only d s1 s3.
Proof. apply same_outside_trans. Qed.

Lemma keeps_files_touches_only {A} (d : string) (m : M (St (World B)) A) :
  keeps (@files_of B) m -> steps (touches_only d) m.
Proof.
  intros K s. unfold touches_only. rewrite (K s). apply same_outside_refl.
Qed.

Lemma call_touches_only {A} (d : string) (c : Call) (m : M (Env (World B)) A)
    (s : St (World B)) :
  same_outside d (fs (world (env s))) (fs (world (snd (m (env s))))) ->
  touches_only d s (snd (call c m s)).
Proof.
  intro H. unfold call, bind, modify, in_env, zoom, touches_only, files_of.
  cbn [env add_call]. destruct (m (env s)) as [r e']. exact H.
Qed.

Lemma create_temp_document_outside (text title : value) (metadata : dict)
    (w : World B) :
  same_outside (temp_dir gettempdir) (fs w)
    (fs (snd (_create_temp_document str_value gettempdir text title metadata w))).
Proof.
  unfold _create_temp_document.
  destruct title as [| | | | title_s | |]; try apply same_outside_refl.
  unfold bind, datetime_now, Base.now, clock, mkdir_exist_ok. cbn [fs].
  set (p := PyPath.joinpath (temp_dir gettempdir) _).
  assert (Hp : inside (temp_dir gettempdir) p = true) by apply joinpath_inside.
  assert (Hopen : forall parts (w0 : World B),
             same_outside (temp_dir gettempdir) (fs w0)
               (fs (snd (open_write p parts w0)))).
  { intros parts w0. unfold open_write.
    destruct (fs_lookup (fs w0) p) as [[| | |] |];
      try apply same_outside_refl;
      destruct (written parts EmptyString) as [text' [e |]]; cbn [snd fs set_fs];
      now apply same_outside_write. }
  destruct (fs_lookup (fs w) (temp_dir gettempdir)) as [[| | |] |];
    try apply same_outside_refl.
  - match goal with
    | |- context [open_write p ?parts ?w0] =>
        specialize (Hopen parts w0); destruct (open_write p parts w0) as [[[] | e] w1]
    end; exact Hopen.
  - destruct (fs_lookup (fs w) gettempdir) as [[| | |] |];
      try apply same_outside_refl.
    match goal with
    | |- context [open_write p ?parts ?w0] =>
        specialize (Hopen parts w0); destruct (open_write p parts w0) as [[[] | e] w1]
    end;
      (eapply same_outside_trans; [| exact Hopen]);
      cbn [fs set_fs]; apply same_outside_write, inside_self.
Qed.

Lemma transform_record_outside (record : Document) (w : World B) :
  same_outside (temp_dir gettempdir) (fs w)
    (fs (snd (transform_record json_dumps str_value gettempdir record w))).
Proof.
  unfold transform_record, bind.
  pose proof (create_temp_document_outside (document_text record)
                (doc_title record) (doc_metadata record) w) as H.
  destruct (_create_temp_document _ _ _ _ _ w) as [[p | e] w1]; exact H.
Qed.

Lemma release_temp_file_outside (d p : string) (t : dict) (e : Env (World B)) :
  dict_get t "_temp_file_path" = Some (VStr p) ->
  inside d p = true ->
  same_outside d (fs (world e)) (fs (world (snd (release_temp_file t e)))).
Proof.
  intros Ht Hp. unfold release_temp_file, dict_get_default. rewrite Ht.
  destruct (String.eqb p EmptyString); [apply same_outside_refl |].
  unfold bind. rewrite in_world_run. unfold path_exists.
  assert (He : set_world (world e) e = e) by (destruct e; reflexivity).
  destruct (fs_lookup (fs (world e)) p) as [[| | |] |] eqn:L;
    cbn [fst snd]; rewrite He; try apply same_outside_refl;
    unfold try_except; rewrite in_world_run; unfold unlink; rewrite L;
    try apply same_outside_refl;
    destruct (PyStr.str_in p (undeletable (world e)));
    try apply same_outside_refl;
    cbn [fst snd world set_world fs set_fs]; now apply same_outside_remove.
Qed.

Lemma store_outside (d p : string) (t : dict) (e : Env (World B)) :
  dict_get t "_temp_file_path" = Some (VStr p) ->
  inside d p = true ->
  same_outside d (fs (world e)) (fs (world (snd (_store_pixeltable pxt t e)))).
Proof.
  intros Ht Hp. unfold _store_pixeltable, try_except, bind.
  destruct (insert_record_frame pxt t e) as (Hfs & _).
  destruct (insert_record pxt t e) as [[[] | ex] e1]; cbn [snd] in Hfs.
  - pose proof (release_temp_file_outside d p t e1 Ht Hp) as H.
    rewrite Hfs in H.
    destruct (release_temp_file t e1) as [[[] | ex] e2]; exact H.
  - cbn. rewrite Hfs. apply same_outside_refl.
Qed.

Lemma transform_and_store_touches_only (record : Document) :
  steps (touches_only (temp_dir gettempdir))
    (transform_and_store
       (claude_hooks pxt json_loads json_dumps str_value gettempdir) record).
Proof.
  intro s. unfold transform_and_store, bind.
  cbn [Base.transform_record Base._store_pixeltable claude_hooks].
  pose proof (call_touches_only (temp_dir gettempdir) CallTransformRecord
    (in_world (transform_record json_dumps str_value gettempdir record)) s) as H1.
  assert (Ht : forall t s1,
             call CallTransformRecord
               (in_world (transform_record json_dumps str_value gettempdir record)) s
             = (Ok t, s1) ->
             exists p, dict_get t "_temp_file_path" = Some (VStr p)
                       /\ inside (temp_dir gettempdir) p = true).
  { intros t s1. unfold call, bind, modify, in_env, zoom. cbn [env add_call].
    rewrite in_world_run.
    destruct (transform_record _ _ _ record (world (env s))) as [r w1] eqn:E.
    cbn [fst snd]. intro H. injection H as -> _.
    destruct (transform_record_run _ _ _ _ _ _ _ E) as (ti & tx & _ & _ & Hp & _).
    eexists. split; [exact Hp | apply joinpath_inside]. }
  assert (Hpre : same_outside (temp_dir gettempdir) (fs (world (env s)))
            (fs (world (snd (in_world
               (transform_record json_dumps str_value gettempdir record) (env s)))))).
  { rewrite in_world_run. cbn [snd world set_world].
    apply transform_record_outside. }
  specialize (H1 Hpre). clear Hpre.
  destruct (call CallTransformRecord _ s) as [[t | e] s1]; [| exact H1].
  destruct (Ht t s1 eq_refl) as (p & Hp & Hin).
  eapply touches_only_trans; [exact H1 |].
  apply call_touches_only. now apply (store_outside _ p).
Qed.

(** X24: a run of [ingest] changes no path outside the staging directory,
    whatever the source holds and however the run ends: the source file and
    every other file of the user are as they were. *)
Theorem ingest_touches_only_staging_directory (source_path : string)
    (resume validate_only : bool) (s : St (World B)) :
  touches_only (temp_dir gettempdir) s
    (snd (claude_ingest pxt json_loads json_dumps str_value gettempdir
            repr_summary source_path resume validate_only s)).
Proof.
  revert s.
  change (steps (touches_only (temp_dir gettempdir))
    (claude_ingest pxt json_loads json_dumps str_value gettempdir
       repr_summary source_path resume validate_only)).
  set (P := touches_only (B:=B) (temp_dir gettempdir)).
  assert (R : forall s, P s s) by apply touches_only_refl.
  assert (T : forall s1 s2 s3, P s1 s2 -> P s2 s3 -> P s1 s3)
    by apply touches_only_trans.
  assert (K : forall A (m : M (St (World B)) A), keeps (@files_of B) m -> steps P m)
    by (intros; now apply keeps_files_touches_only).
  assert (Hrec : forall r acc,
             steps P (process_record clock
               (claude_hooks pxt json_loads json_dumps str_value gettempdir) r acc)).
  { intros r [processed failed]. unfold process_record.
    apply (steps_try_except P T).
    - apply (steps_bind P T).
      + apply transform_and_store_touches_only.
      + intro. apply (steps_ret P R).
    - intro e. apply K.
      apply keeps_bind; [apply log_keeps_files | intro].
      apply keeps_bind; [apply with_progress_at_keeps_files | intro].
      apply keeps_ret. }
  assert (Hturn : forall records i acc,
             steps P (batch_turn clock
               (ClaudeConversationIngestor pxt json_loads json_dumps str_value gettempdir)
               records i acc)).
  { intros records i [pc fc]. unfold batch_turn.
    apply (steps_bind P T); [apply (steps_gets P R) | intro bs].
    apply (steps_try_except P T).
    - apply (steps_bind P T).
      + cbn [process_batch_method ClaudeConversationIngestor subclass].
        unfold _process_batch. now apply (steps_for_each P R T).
      + intros [processed failed]. apply K.
        apply keeps_bind; [apply with_progress_at_keeps_files | intro].
        apply keeps_bind; [apply log_keeps_files | intro]. apply keeps_ret.
    - intro e. apply K.
      apply keeps_bind; [apply log_keeps_files | intro].
      apply keeps_bind; [apply with_progress_at_keeps_files | intro].
      apply keeps_ret. }
  unfold claude_ingest, ingest.
  apply (steps_try_except P T).
  - unfold ingest_body.
    apply (steps_bind P T); [apply K, prepare_keeps_files | intro records].
    apply (steps_bind P T); [apply K, with_progress_keeps_files | intro].
    apply (steps_bind P T); [apply K, log_keeps_files | intro].
    destruct validate_only; [apply (steps_ret P R) |].
    apply (steps_bind P T); [| intro; apply (steps_ret P R)].
    unfold run_batches.
    apply (steps_bind P T); [apply (steps_gets P R) | intro bs].
    apply (steps_bind P T); [apply (steps_lift_result P R) | intro starts].
    apply (steps_bind P T); [now apply (steps_for_each P R T) | intros [pc fc]].
    apply K.
    apply keeps_bind; [apply with_progress_keeps_files | intro].
    apply keeps_bind.
    { destruct (0 <? pc); [| apply keeps_ret].
      apply keeps_bind; [apply keeps_lift_result | intro; apply keeps_ret]. }
    intro rate.
    apply keeps_bind; [apply keeps_gets | intros [p |]].
    + apply keeps_bind.
      { apply keeps_bind; [apply keeps_lift_result | intro; apply keeps_ret]. }
      intro. apply keeps_bind; [apply log_keeps_files | intro]. apply keeps_ret.
    + apply keeps_bind; [apply keeps_ret | intro].
      apply keeps_bind; [apply log_keeps_files | intro]. apply keeps_ret.
  - intro e. apply K.
    apply keeps_bind; [apply log_keeps_files | intro].
    apply keeps_bind; [apply with_progress_keeps_files | intro].
    apply keeps_bind; [apply with_progress_at_keeps_files | intro].
    apply keeps_raise.
Qed.

End Ingestor.

End FilesProps.

(* ===================================================================== *)
(** ** Further runs on the fixture *)
(* ===================================================================== *)

Module Instances.
Import Base Claude Fixture Spec Laws Samples.
Import BatchingProps EdgeProps ProgressLaws SourceProps StagingProps BackendProps FilesProps.

(** *** Batching and counting *)

Lemma batches_partition_records_witness :
  concat (batches_of 2 [10; 20; 30]) = [10; 20; 30]
  /\ Forall (fun batch => 0 < len batch <= 2) (batches_of 2 [10; 20; 30]).
Proof. apply (batches_partition_records 2 [10; 20; 30]). reflexivity. Defined.

Lemma inherited_run_counts_every_record_witness :
  exists summary s2,
    ingest clock (in_backend (pxt_import backend_ok)) repr_summary
      (subclass clock (claude_hooks backend_ok json_loads json_dumps str_value "/tmp"))
      "/data/conversations.json" false false (fresh 1)
    = (Ok (Ingested summary), s2)
    /\ total_records summary = len export_records
    /\ processed_records summary + failed_records summary = len export_records
    /\ 0 <= processed_records summary
    /\ 0 <= failed_records summary
    /\ option_map processed_items (progress s2)
       = option_map (fun p => processed_items p + processed_records summary)
                    (progress (fresh 1))
    /\ option_map failed_items (progress s2)
       = option_map (fun p => failed_items p + failed_records summary)
                    (progress (fresh 1))
    /\ option_map status (progress s2)
       = option_map (fun _ => if failed_records summary =? 0
                              then COMPLETED else FAILED) (progress (fresh 1)).
Proof.
  apply (inherited_run_counts_every_record clock (in_backend (pxt_import backend_ok))
           repr_summary
           (claude_hooks backend_ok json_loads json_dumps str_value "/tmp")
           "/data/conversations.json" false (fresh 1) export_parsed export_records).
  - vm_compute. reflexivity.
  - vm_compute. reflexivity.
Defined.

Lemma zero_batch_size_is_fatal_witness :
  exists s2,
    ingest clock (in_backend (pxt_import backend_ok)) repr_summary claude_class
      "/data/chat.txt" false false (fresh 0)
    = (Raise (Exn ValueError "range() arg 3 must not be zero"), s2)
    /\ option_map status (progress s2)
       = option_map (fun _ => FAILED) (progress (fresh 0))
    /\ calls s2
       = (calls (fresh 0)
          ++ [CallEnsureSchema; CallValidateSource; CallParseSource])%list.
Proof.
  apply (zero_batch_size_is_fatal clock (in_backend (pxt_import backend_ok))
           repr_summary claude_class "/data/chat.txt" false
           (fresh 0) chat_parsed_zero chat_records).
  - vm_compute. reflexivity.
  - vm_compute. reflexivity.
Defined.

Lemma negative_batch_size_stores_nothing_witness :
  exists summary s2,
    ingest clock (in_backend (pxt_import backend_ok)) repr_summary claude_class
      "/data/chat.txt" false false (fresh (-5))
    = (Ok (Ingested summary), s2)
    /\ total_records summary = len chat_records
    /\ processed_records summary = 0
    /\ failed_records summary = 0
    /\ option_map status (progress s2)
       = option_map (fun _ => COMPLETED) (progress (fresh (-5)))
    /\ calls s2
       = (calls (fresh (-5))
          ++ [CallEnsureSchema; CallValidateSource; CallParseSource])%list.
Proof.
  apply (negative_batch_size_stores_nothing clock (in_backend (pxt_import backend_ok))
           repr_summary claude_class "/data/chat.txt" false
           (fresh (-5)) chat_parsed_negative chat_records).
  - vm_compute. reflexivity.
  - vm_compute. reflexivity.
Defined.

Lemma import_failure_precedes_validation_witness :
  exists s2,
    ingest clock (in_backend (pxt_import backend_missing)) repr_summary
      (ClaudeConversationIngestor backend_missing json_loads json_dumps str_value "/tmp")
      "/data/nowhere.json" false false (fresh 100)
    = (Raise (Exn ImportError "No module named 'pixeltable'"), s2)
    /\ calls s2 = calls (fresh 100)
    /\ pixeltable_client (env s2) = pixeltable_client (env (fresh 100))
    /\ option_map status (progress s2)
       = option_map (fun _ => FAILED) (progress (fresh 100))
    /\ log (env s2)
       = (log (env (fresh 100))
          ++ [ (INFO, "Starting ingestion of /data/nowhere.json");
               (ERROR, "Pixeltable not available - install with: pip install pixeltable");
               (ERROR, "Ingestion failed: No module named 'pixeltable'") ])%list.
Proof.
  apply (import_failure_precedes_validation clock
           (in_backend (pxt_import backend_missing)) repr_summary
           (ClaudeConversationIngestor backend_missing json_loads json_dumps
              str_value "/tmp")
           "/data/nowhere.json" false false (fresh 100)
           (Exn ImportError "No module named 'pixeltable'")
           (world (env (fresh 100)))).
  vm_compute. reflexivity.
Defined.

(** *** The progress record *)

Lemma to_dict_error_view_witness :
  d_error_count six_errors_view = len (errors six_errors)
  /\ (exists older, errors six_errors = (older ++ d_recent_errors six_errors_view)%list)
  /\ len (d_recent_errors six_errors_view) = Z.min 5 (len (errors six_errors))
  /\ d_error_count seven_errors_view = len (errors six_errors) + 1
  /\ last (d_recent_errors seven_errors_view) EmptyString = stamped midnight "late".
Proof.
  apply (to_dict_error_view six_errors "late" midnight
           six_errors_view seven_errors_view).
  - vm_compute. reflexivity.
  - vm_compute. reflexivity.
Defined.

Example recent_errors_of_six :
  d_error_count six_errors_view = 6
  /\ d_recent_errors six_errors_view = ["e2"; "e3"; "e4"; "e5"; "e6"].
Proof. split; reflexivity. Qed.

Lemma update_merges_metadata_witness :
  dict_get (metadata (update 2 1 (Some [("source", VStr "export")]) midnight
                        (Progress.init 3 midnight))) "source"
  = Some (VStr "export")
  /\ processed_items (update 2 1 (Some [("source", VStr "export")]) midnight
                        (Progress.init 3 midnight)) = 0 + 2
  /\ failed_items (update 2 1 (Some [("source", VStr "export")]) midnight
                     (Progress.init 3 midnight)) = 0 + 1
  /\ errors (update 2 1 (Some [("source", VStr "export")]) midnight
               (Progress.init 3 midnight)) = []
  /\ status (update 2 1 (Some [("source", VStr "export")]) midnight
               (Progress.init 3 midnight)) = PENDING.
Proof.
  apply (update_merges_metadata 2 1 (Some [("source", VStr "export")]) midnight
           (Progress.init 3 midnight) "source").
  vm_compute. reflexivity.
Defined.

(** *** Sources *)

Lemma parse_text_source_witness :
  exists doc e',
    parse_source json_loads str_value "/data/chat.txt" env0 = (Ok [doc], e')
    /\ document_text doc = VStr chat_text
    /\ doc_title doc = VStr "Claude Conversation 1"
    /\ conversation_index doc = Some (VInt 0)
    /\ dict_get (doc_metadata doc) "format" = Some (VStr "text")
    /\ dict_get (doc_metadata doc) "source_file" = Some (VStr "/data/chat.txt")
    /\ log e' = log env0
    /\ fs (world e') = fs (world env0).
Proof.
  apply (parse_text_source json_loads str_value "/data/chat.txt" chat_text env0).
  - vm_compute. reflexivity.
  - vm_compute. reflexivity.
Defined.

Lemma parse_json_array_all_or_nothing_witness :
  is_ok (fst (parse_source json_loads str_value "/data/conversations.json" env0))
  = forallb (extractable str_value) conversation_list.
Proof.
  apply (parse_json_array_all_or_nothing json_loads str_value
           "/data/conversations.json" three_conversations_json conversation_list env0).
  - vm_compute. reflexivity.
  - vm_compute. reflexivity.
  - vm_compute. reflexivity.
Defined.

Lemma json_source_without_conversations_witness :
  validate_source json_loads "/data/broken.json" (world env0)
  = (Ok (true, None), world env0)
  /\ exists e',
       parse_source json_loads str_value "/data/broken.json" env0 = (Ok [], e')
       /\ world e' = world env0
       /\ log e'
          = match json_loads "{not json" with
            | Ok _ => log env0
            | Raise ex =>
                (log env0
                 ++ [(ERROR, ("Invalid JSON in " ++ "/data/broken.json" ++ ": "
                              ++ exn_str ex)%string)])%list
            end.
Proof.
  apply (json_source_without_conversations json_loads str_value
           "/data/broken.json" "{not json" env0).
  - vm_compute. reflexivity.
  - vm_compute. reflexivity.
  - vm_compute. reflexivity.
  - vm_compute. reflexivity.
Defined.

(** *** Staged files *)


Lemma staged_file_reads_back_witness :
  exists title text p,
    doc_title dos_document = VStr title
    /\ document_text dos_document = VStr text
    /\ dict_get dos_record "_temp_file_path" = Some (VStr p)
    /\ read_text p dos_world
       = (Ok (PyStr.universal_newlines
                (staged_header str_value title (doc_metadata dos_document) ++ text)),
          dos_world).
Proof.
  apply (staged_file_reads_back json_dumps str_value "/tmp"
           dos_document world0 dos_world dos_record).
  vm_compute. reflexivity.
Defined.

(** The document from another system is staged under a name that keeps the
    accent and has [_] for the blank and the slash; its carriage returns are
    in the file, and read back as line feeds. *)
Example staged_file_of_dos_document :
  dict_get dos_record "_temp_file_path"
  = Some (VStr ("/tmp/takeout_ingestor_docs/claude_conv_20240101_000000_caf"
                ++ e_acute ++ "_a_b.txt"))
  /\ fs_lookup (fs dos_world)
       ("/tmp/takeout_ingestor_docs/claude_conv_20240101_000000_caf"
        ++ e_acute ++ "_a_b.txt")
     = Some (NFile ("Title: caf" ++ e_acute ++ " a/b" ++ newline
                    ++ "Source: unknown" ++ newline
                    ++ "Parsed: 2024-01-01T00:00:00" ++ newline
                    ++ newline
                    ++ "==================================================" ++ newline
                    ++ newline
                    ++ "Hi" ++ cr ++ newline ++ "there" ++ cr))
  /\ fst (read_text ("/tmp/takeout_ingestor_docs/claude_conv_20240101_000000_caf"
                     ++ e_acute ++ "_a_b.txt") dos_world)
     = Ok ("Title: caf" ++ e_acute ++ " a/b" ++ newline
           ++ "Source: unknown" ++ newline
           ++ "Parsed: 2024-01-01T00:00:00" ++ newline
           ++ newline
           ++ "==================================================" ++ newline
           ++ newline
           ++ "Hi" ++ newline ++ "there" ++ newline).
Proof. repeat split; vm_compute; reflexivity. Qed.

(** A title that cannot be encoded stops the staging at its first line: the
    file is created and stays empty. *)
Example surrogate_title_leaves_empty_file :
  exists w1,
    transform_record json_dumps str_value "/tmp" surrogate_document world0
    = (Raise (Exn UnicodeEncodeError
                "'utf-8' codec can't encode character '\ud800' in position 0: surrogates not allowed"),
       w1)
    /\ fs_lookup (fs w1)
         "/tmp/takeout_ingestor_docs/claude_conv_20240101_000000_a_.txt"
       = Some (NFile EmptyString).
Proof. eexists. split; vm_compute; reflexivity. Qed.

Lemma same_second_same_title_share_a_file_witness :
  exists p text2,
    dict_get staged_record "_temp_file_path" = Some (VStr p)
    /\ dict_get restaged_record "_temp_file_path" = Some (VStr p)
    /\ document_text first_document = VStr text2
    /\ read_text p restaged_world
       = (Ok (PyStr.universal_newlines
                (staged_content str_value "a" (doc_metadata first_document) text2)),
          restaged_world).
Proof.
  apply (same_second_same_title_share_a_file json_dumps str_value "/tmp"
           first_document first_document world0 staged_world restaged_world
           staged_record restaged_record "a" "a").
  - vm_compute. reflexivity.
  - vm_compute. reflexivity.
  - vm_compute. reflexivity.
  - vm_compute. reflexivity.
  - vm_compute. reflexivity.
  - vm_compute. reflexivity.
Defined.


(** *** Clean-up *)

Lemma cleanup_empties_staging_directory_witness :
  (forall q, inside (temp_dir "/tmp") q = true ->
             fs_lookup (files_of (snd (claude_cleanup "/tmp" leftover))) q = None)
  /\ log (env (snd (claude_cleanup "/tmp" leftover)))
     = (log (env leftover)
        ++ [(INFO, "Cleanup completed");
            (INFO, "Cleaned up temporary document files")])%list.
Proof.
  apply (cleanup_empties_staging_directory "/tmp" leftover).
  - vm_compute. reflexivity.
  - vm_compute. reflexivity.
Defined.

(** Where the status of the staging directory cannot be read, [cleanup]
    raises: the client is dropped, the log has the line of the base class
    only. *)
Example cleanup_raises_on_sealed_directory :
  fst (claude_cleanup "/tmp" sealed)
  = Raise (Exn OSError "[Errno 13] Permission denied: '/tmp/takeout_ingestor_docs'")
  /\ pixeltable_client (env (snd (claude_cleanup "/tmp" sealed))) = false
  /\ log (env (snd (claude_cleanup "/tmp" sealed))) = [(INFO, "Cleanup completed")].
Proof. repeat split; vm_compute; reflexivity. Qed.

(** The file that a failed store leaves behind is there before the
    clean-up and gone after it. *)
Example cleanup_removes_leftover_file :
  fs_exists (files_of leftover) staged_path = true
  /\ fs_exists (files_of (snd (claude_cleanup "/tmp" leftover))) staged_path = false
  /\ files_of (snd (claude_cleanup "/tmp" leftover))
     = [ ("/tmp", NDir);
         ("/data/conversations.json", NFile three_conversations_json);
         ("/data/single.json", NFile one_conversation_json);
         ("/data/broken.json", NFile "{not json");
         ("/data/chat.txt", NFile chat_text);
         ("/data/blank.md", NFile (" " ++ newline));
         ("/data/slides.pdf", NFile "%PDF") ].
Proof. repeat split; vm_compute; reflexivity. Qed.

End Instances.
